(** * Log monitoring pipeline: bounded histories, periodic analysis, alerts

    A shallow embedding of the analysis core of the repository:

    - [log_system.py]: class [LogAnalyzer] ([__init__], [analyze_logs],
      [process_logs]) together with the module-level [CONFIG] and the three
      global queues; the data side of class [MonitoringDashboard]
      ([__init__], [process_queues], the text of [update_plots]);
      [LogGenerator.generate_log];
    - [log_analyzer.py]: the function [log_analyzer] with its module constants
      [N], [T], [S];
    - [log_producer.py]: [generate_log];
    - [visualization.py]: the queue-reading part of [LogVisualizer.update_plot]
      and the choice of the points it draws.

    Conventions of the embedding.
    - A Python [dict] that is only looked up and updated by key is a [gmap];
      the dict of [log_analyzer.py], which is iterated with [.items()], is an
      association list in insertion order.
    - [collections.deque(maxlen=n)] is a record holding its capacity and its
      items, oldest first.
    - A [queue.Queue] is the list of its pending items, oldest first.
    - A Python float is an IEEE 754 double: [Float.t] is the standard
      library's [spec_float] at precision 53 with its correctly rounded
      operations.  [int / int] is the correctly rounded quotient of the two
      integers, with [ZeroDivisionError] and [OverflowError] as in Python;
      [sum] adds from the left, starting from 0.0, with one rounding per
      addition (the [sum] of CPython up to version 3.11; later versions
      compensate the rounding errors).  The threshold of the configuration
      is the number written there, read as the double nearest to it.
    - [sys.maxsize], which limits the capacity of a deque, is that of a
      64-bit CPython.
    - [log['log_level']] ranges over the three levels of
      [CONFIG['log_levels']], the only ones the generators produce.
    - [datetime.now().strftime(...)] and [time.strftime(...)] read a clock
      supplied from outside: the k-th reading of a run is [clock k].
    - The threads are interleaved at the grain of one [put], one turn of the
      processing loop and one call of [analyze_logs].
    - [print] and [time.sleep] are not modelled. *)

From Stdlib Require Import ZArith QArith Qabs List Bool Lia SpecFloat.
From Stdlib Require PrimFloat FloatOps Uint63.
From stdpp Require Import base option list strings gmap.

Local Open Scope Z_scope.
Local Open Scope nat_scope.

(** ** collections.deque with a maximum length *)

Module Deque.
Section deque.
Context {A : Type}.

Record t := mk { maxlen : nat; items : list A }.

(** [sys.maxsize], the largest [Py_ssize_t] *)
Definition ssize_max : Z := 2 ^ 63 - 1.

(** [deque(maxlen=n)]: a negative [n] raises [ValueError] (maxlen must be
    non-negative), an [n] above [sys.maxsize] raises [OverflowError] (Python
    int too large to convert to C ssize_t). *)
Definition new (n : Z) : option t :=
  if (n <? 0)%Z then None
  else if (ssize_max <? n)%Z then None
  else Some (mk (Z.to_nat n) []).

Definition len (d : t) : nat := length (items d).

(** [d.append(x)]: the item is added on the right; when the deque is then
    longer than [maxlen] one item is removed from the left. *)
Definition append (x : A) (d : t) : t :=
  let l := items d ++ [x] in
  mk (maxlen d) (if maxlen d <? length l then tail l else l).

(** [d.clear()] *)
Definition clear (d : t) : t := mk (maxlen d) [].

(** several appends in a row, first element of [xs] first *)
Definition extend (xs : list A) (d : t) : t :=
  fold_left (fun acc x => append x acc) xs d.

(** the representation invariant of a bounded deque *)
Definition bounded (d : t) : Prop := len d <= maxlen d.

(** the last [n] elements of a list *)
Definition lastn (n : nat) (l : list A) : list A := drop (length l - n) l.
End deque.
Arguments t : clear implicits.
End Deque.

(** ** Python floats *)

Module Float.

(** the format of a double *)
Definition prec : Z := 53.
Definition emax : Z := 1024.

Definition t : Type := spec_float.

(** [0.0] and [1.0] *)
Definition zero : t := S754_zero false.
Definition one : t := S754_finite false 4503599627370496 (-52).

(** [x + y], [x / y] for a divisor that is not zero, [x < y], [x <= y] *)
Definition add : t -> t -> t := SFadd prec emax.
Definition div : t -> t -> t := SFdiv prec emax.
Definition ltb : t -> t -> bool := SFltb.
Definition leb : t -> t -> bool := SFleb.

(** an integer as it stands: mantissa [z], exponent 0, nothing rounded *)
Definition exact (z : Z) : t :=
  match z with
  | Z0 => S754_zero false
  | Zpos p => S754_finite false p 0
  | Zneg p => S754_finite true p 0
  end.

(** The quotient of two integers, rounded once to the nearest double (ties
    to even): the value of [a / b] on two ints, and of a decimal literal. *)
Definition quot (a b : Z) : t := div (exact a) (exact b).

(** [float(z)]: the double nearest to an int *)
Definition of_Z (z : Z) : t := binary_normalize prec emax z 0 false.

(** the double that a number written in the source denotes *)
Definition of_Q (q : Q) : t := quot (Qnum q) (Zpos (Qden q)).

(** [sum(xs)] for floats: a left fold that starts from [0.0] *)
Definition sum (xs : list t) : t := fold_left add xs zero.

Definition is_inf (x : t) : bool :=
  match x with
  | S754_infinity _ => true
  | _ => false
  end.

(** the number that a finite double stands for *)
Definition to_Q (x : t) : Q :=
  match x with
  | S754_finite s m e =>
      ((if s then -1 else 1) * inject_Z (Zpos m) * Qpower 2 e)%Q
  | _ => 0%Q
  end.

(** the shape of a double between 0.0 and 1.0 that a quotient can take *)
Definition below_one (x : t) : Prop :=
  x = zero \/
  exists m e, x = S754_finite false m e /\
    (e < -52 \/ (e = -52 /\ Zpos m <= 2 ^ 52))%Z.

(** [0.0 <= x <= 1.0] *)
Definition in_unit (x : t) : Prop := leb zero x = true /\ leb x one = true.

(** [a / b] on two small ints as the primitive doubles of the machine
    compute it, to compare with [quot] *)
Definition machine_quot (a b : Z) : PrimFloat.float :=
  PrimFloat.div (PrimFloat.of_uint63 (Uint63.of_Z a))
                (PrimFloat.of_uint63 (Uint63.of_Z b)).

End Float.

(** [sum(1 for x in xs if p(x))] *)
Fixpoint count {A : Type} (p : A -> bool) (xs : list A) : nat :=
  match xs with
  | [] => 0
  | x :: xs' => (if p x then 1 else 0) + count p xs'
  end.

(** ** The records that travel through the queues *)

Inductive Level := INFO | WARN | ERROR.

Definition Level_eqb (a b : Level) : bool :=
  match a, b with
  | INFO, INFO | WARN, WARN | ERROR, ERROR => true
  | _, _ => false
  end.

Module Log.
Record t := mk {
  device_id : string;
  timestamp : string;
  log_level : Level;
  message : string
}.
End Log.

(** [log['log_level'] == lv] *)
Definition has_level (lv : Level) (log : Log.t) : bool :=
  Level_eqb (Log.log_level log) lv.

Module Alert.
Record t := mk {
  device_id : string;
  timestamp : string;
  message : string;
  severity : string
}.
End Alert.

Module Result.
Record t := mk {
  device_id : string;
  timestamp : string;
  error_ratio : Float.t;
  warn_ratio : Float.t;
  last_error : option Log.t;
  alert_count : nat
}.
End Result.

(** ** log_system.py *)

Module LogSystem.

(** The entries of [CONFIG] that the analyzer reads.  [log_levels],
    [sample_messages] and [log_generation_interval] are read by
    [LogGenerator] only. *)
Record Config := {
  device_ids : list string;
  analysis_window : Z;
  analysis_interval : Q;
  alert_threshold : Q;
  alert_window : Z
}.

Definition CONFIG : Config := {|
  device_ids := ["device1"; "device2"; "device3"]%string;
  analysis_window := 20;
  analysis_interval := 5;
  alert_threshold := 1 # 2;
  alert_window := 10
|}.

(** [self.device_status[device_id]] *)
Record DeviceStatus := {
  last_error : option Log.t;
  alerts : list Alert.t
}.

(** The fields of a [LogAnalyzer], the three module-level queues, and the
    number of times the wall clock has been read. *)
Record State := {
  logs_cache : gmap string (Deque.t Log.t);
  device_status : gmap string DeviceStatus;
  alert_windows : gmap string (Deque.t Float.t);
  log_queue : list Log.t;
  analysis_queue : list Result.t;
  alert_queue : list Alert.t;
  clock_reads : nat
}.

Definition set_logs_cache (m : gmap string (Deque.t Log.t)) (s : State) : State :=
  {| logs_cache := m; device_status := device_status s;
     alert_windows := alert_windows s; log_queue := log_queue s;
     analysis_queue := analysis_queue s; alert_queue := alert_queue s;
     clock_reads := clock_reads s |}.

Definition set_device_status (m : gmap string DeviceStatus) (s : State) : State :=
  {| logs_cache := logs_cache s; device_status := m;
     alert_windows := alert_windows s; log_queue := log_queue s;
     analysis_queue := analysis_queue s; alert_queue := alert_queue s;
     clock_reads := clock_reads s |}.

Definition set_alert_windows (m : gmap string (Deque.t Float.t)) (s : State) : State :=
  {| logs_cache := logs_cache s; device_status := device_status s;
     alert_windows := m; log_queue := log_queue s;
     analysis_queue := analysis_queue s; alert_queue := alert_queue s;
     clock_reads := clock_reads s |}.

Definition set_log_queue (q : list Log.t) (s : State) : State :=
  {| logs_cache := logs_cache s; device_status := device_status s;
     alert_windows := alert_windows s; log_queue := q;
     analysis_queue := analysis_queue s; alert_queue := alert_queue s;
     clock_reads := clock_reads s |}.

Definition set_analysis_queue (q : list Result.t) (s : State) : State :=
  {| logs_cache := logs_cache s; device_status := device_status s;
     alert_windows := alert_windows s; log_queue := log_queue s;
     analysis_queue := q; alert_queue := alert_queue s;
     clock_reads := clock_reads s |}.

Definition set_alert_queue (q : list Alert.t) (s : State) : State :=
  {| logs_cache := logs_cache s; device_status := device_status s;
     alert_windows := alert_windows s; log_queue := log_queue s;
     analysis_queue := analysis_queue s; alert_queue := q;
     clock_reads := clock_reads s |}.

Definition set_clock_reads (n : nat) (s : State) : State :=
  {| logs_cache := logs_cache s; device_status := device_status s;
     alert_windows := alert_windows s; log_queue := log_queue s;
     analysis_queue := analysis_queue s; alert_queue := alert_queue s;
     clock_reads := n |}.

(** *** Statements: a state monad with exceptions *)

Inductive exn :=
  KeyError (key : string) | ZeroDivisionError | OverflowError | Empty.

Definition M (A : Type) : Type := State -> (A + exn) * State.

#[global] Instance M_ret : MRet M := fun A a s => (inl a, s).

#[global] Instance M_bind : MBind M := fun A B k m s =>
  match m s with
  | (inl a, s') => k a s'
  | (inr e, s') => (inr e, s')
  end.

Definition raise {A : Type} (e : exn) : M A := fun s => (inr e, s).

(** [try: body  except: handler] with a bare [except] *)
Definition try_except (body handler : M ()) : M () := fun s =>
  match body s with
  | (inl tt, s') => (inl tt, s')
  | (inr _, s') => handler s'
  end.

Definition modify (f : State -> State) : M () := fun s => (inl tt, f s).

(** [for k in ks: body(k)] *)
Fixpoint for_each (ks : list string) (body : string -> M ()) : M () :=
  match ks with
  | [] => mret tt
  | k :: ks' => body k ;; for_each ks' body
  end.

(** [a / b] on two ints: the quotient rounded to the nearest double;
    [ZeroDivisionError] on a zero divisor, [OverflowError] when the result
    is too large for a float *)
Definition truediv (a b : Z) : M Float.t :=
  if (b =? 0)%Z then raise ZeroDivisionError
  else
    let q := Float.quot a b in
    if Float.is_inf q then raise OverflowError else mret q.

(** [x / n] for a float and an int: the int is converted to a float and the
    two are divided; [ZeroDivisionError] on a zero divisor.  In
    [analyze_logs] the divisor [n] is the length of the alert window, which
    no conversion takes out of the range of the doubles. *)
Definition float_truediv (x : Float.t) (n : Z) : M Float.t :=
  if (n =? 0)%Z then raise ZeroDivisionError
  else mret (Float.div x (Float.of_Z n)).

(** [datetime.now().strftime("%Y-%m-%d %H:%M:%S")] against the clock
    [clock], which gives the text of the k-th reading *)
Definition datetime_now (clock : nat -> string) : M string := fun s =>
  (inl (clock (clock_reads s)), set_clock_reads (S (clock_reads s)) s).

(** [d[key]] for each of the three dicts *)
Definition get_logs_cache (key : string) : M (Deque.t Log.t) := fun s =>
  match logs_cache s !! key with
  | Some d => (inl d, s)
  | None => (inr (KeyError key), s)
  end.

Definition get_device_status (key : string) : M DeviceStatus := fun s =>
  match device_status s !! key with
  | Some d => (inl d, s)
  | None => (inr (KeyError key), s)
  end.

Definition get_alert_window (key : string) : M (Deque.t Float.t) := fun s =>
  match alert_windows s !! key with
  | Some d => (inl d, s)
  | None => (inr (KeyError key), s)
  end.

(** [log_queue.get_nowait()] *)
Definition get_nowait : M Log.t := fun s =>
  match log_queue s with
  | [] => (inr Empty, s)
  | log :: rest => (inl log, set_log_queue rest s)
  end.

(** *** LogAnalyzer.__init__ *)

(** [{k: f(k) for k in ks}], where evaluating [f(k)] may raise *)
Fixpoint dict_comp {V : Type} (f : string -> option V) (ks : list string)
    (acc : gmap string V) : option (gmap string V) :=
  match ks with
  | [] => Some acc
  | k :: ks' =>
      match f k with
      | Some v => dict_comp f ks' (<[k := v]> acc)
      | None => None
      end
  end.

(** The state after [analyzer = LogAnalyzer()] with the queues as they are
    created at import; [None] when a [deque(maxlen=...)] raises [ValueError]
    or [OverflowError]. *)
Definition init (cfg : Config) : option State :=
  cache ← dict_comp (fun _ => Deque.new (analysis_window cfg)) (device_ids cfg) ∅;
  status ← dict_comp (fun _ => Some {| last_error := None; alerts := [] |})
             (device_ids cfg) ∅;
  windows ← dict_comp (fun _ => Deque.new (alert_window cfg)) (device_ids cfg) ∅;
  Some {| logs_cache := cache; device_status := status;
          alert_windows := windows; log_queue := [];
          analysis_queue := []; alert_queue := []; clock_reads := 0 |}.

(** *** LogAnalyzer.analyze_logs *)

(** [self.device_status[device_id]['last_error'] = log] *)
Definition set_last_error (device_id : string) (log : Log.t) : M () :=
  st ← get_device_status device_id;
  modify (fun s => set_device_status
    (<[device_id := {| last_error := Some log; alerts := alerts st |}]>
       (device_status s)) s).

(** [self.device_status[device_id]['alerts'].append(alert)] *)
Definition append_alert (device_id : string) (alert : Alert.t) : M () :=
  st ← get_device_status device_id;
  modify (fun s => set_device_status
    (<[device_id := {| last_error := last_error st;
                       alerts := alerts st ++ [alert] |}]>
       (device_status s)) s).

(** [self.alert_windows[device_id].append(x)] *)
Definition window_append (device_id : string) (x : Float.t) : M () :=
  w ← get_alert_window device_id;
  modify (fun s => set_alert_windows
    (<[device_id := Deque.append x w]> (alert_windows s)) s).

(** [self.alert_windows[device_id].clear()] *)
Definition window_clear (device_id : string) : M () :=
  w ← get_alert_window device_id;
  modify (fun s => set_alert_windows
    (<[device_id := Deque.clear w]> (alert_windows s)) s).

(** [alert_queue.put(alert)] and [analysis_queue.put(result)] *)
Definition put_alert (alert : Alert.t) : M () :=
  modify (fun s => set_alert_queue (alert_queue s ++ [alert]) s).

Definition put_analysis (r : Result.t) : M () :=
  modify (fun s => set_analysis_queue (analysis_queue s ++ [r]) s).

Definition alert_message (device_id : string) : string :=
  ("设备" +:+ device_id +:+ " ERROR比例超过50%")%string.

(** the body of the [for device_id in CONFIG['device_ids']] loop *)
Definition analyze_device (cfg : Config) (clock : nat -> string)
    (device_id : string) : M () :=
  cache ← get_logs_cache device_id;
  let logs := Deque.items cache in
  match logs with
  | [] => mret tt
  | _ :: _ =>
    let total := length logs in
    let error_count := count (has_level ERROR) logs in
    let warn_count := count (has_level WARN) logs in
    error_ratio ← truediv (Z.of_nat error_count) (Z.of_nat total);
    warn_ratio ← truediv (Z.of_nat warn_count) (Z.of_nat total);
    let error_logs := List.filter (has_level ERROR) logs in
    match last error_logs with
    | Some log => set_last_error device_id log
    | None => mret tt
    end ;;
    window_append device_id error_ratio ;;
    w ← get_alert_window device_id;
    (if (Z.of_nat (Deque.len w) =? alert_window cfg)%Z then
       w ← get_alert_window device_id;
       avg_error_ratio ← float_truediv (Float.sum (Deque.items w))
                                       (alert_window cfg);
       if Float.ltb (Float.of_Q (alert_threshold cfg)) avg_error_ratio then
         t ← datetime_now clock;
         let alert := {| Alert.device_id := device_id;
                         Alert.timestamp := t;
                         Alert.message := alert_message device_id;
                         Alert.severity := "CRITICAL" |} in
         append_alert device_id alert ;;
         put_alert alert ;;
         window_clear device_id
       else mret tt
     else mret tt) ;;
    t ← datetime_now clock;
    st ← get_device_status device_id;
    put_analysis {| Result.device_id := device_id;
                    Result.timestamp := t;
                    Result.error_ratio := error_ratio;
                    Result.warn_ratio := warn_ratio;
                    Result.last_error := last_error st;
                    Result.alert_count := length (alerts st) |}
  end.

Definition analyze_logs (cfg : Config) (clock : nat -> string) : M () :=
  for_each (device_ids cfg) (analyze_device cfg clock).

(** *** LogAnalyzer.process_logs *)

(** One turn of the [while True] loop; [time.sleep(0.1)] changes nothing. *)
Definition process_logs_iter : M () :=
  try_except
    (log ← get_nowait;
     let device_id := Log.device_id log in
     cache ← get_logs_cache device_id;
     modify (fun s => set_logs_cache
       (<[device_id := Deque.append log cache]> (logs_cache s)) s))
    (mret tt).

(** [n] turns of the loop *)
Fixpoint process_logs (n : nat) : M () :=
  match n with
  | 0 => mret tt
  | S n' => process_logs_iter ;; process_logs n'
  end.

(** *** Runs of the whole system

    What happens to the analyzer state is a sequence of three kinds of
    steps: a generator puts a log on [log_queue], the processing thread makes
    one turn of its loop, or the analysis thread wakes up and calls
    [analyze_logs]. *)

Inductive event := Put (log : Log.t) | Process | Analyze.

Definition step (cfg : Config) (clock : nat -> string) (ev : event) : M () :=
  match ev with
  | Put log => modify (fun s => set_log_queue (log_queue s ++ [log]) s)
  | Process => process_logs_iter
  | Analyze => analyze_logs cfg clock
  end.

Fixpoint run (cfg : Config) (clock : nat -> string) (evs : list event) : M () :=
  match evs with
  | [] => mret tt
  | ev :: evs' => step cfg clock ev ;; run cfg clock evs'
  end.


(** *** What one turn of the analysis loop does to a well-formed state *)

(** The three dicts hold an entry for each configured device, and the deques
    have the capacities of the configuration. *)
Record wf (cfg : Config) (s : State) : Prop := {
  wf_cache : forall d, d ∈ device_ids cfg ->
    exists c, logs_cache s !! d = Some c /\ Deque.bounded c /\
              Deque.maxlen c = Z.to_nat (analysis_window cfg);
  wf_status : forall d, d ∈ device_ids cfg ->
    exists st, device_status s !! d = Some st;
  wf_window : forall d, d ∈ device_ids cfg ->
    exists w, alert_windows s !! d = Some w /\ Deque.bounded w /\
              Z.of_nat (Deque.maxlen w) = alert_window cfg
}.

Definition ratio (lv : Level) (logs : list Log.t) : Float.t :=
  Float.quot (Z.of_nat (count (has_level lv) logs)) (Z.of_nat (length logs)).

(** the alert window once this cycle's sample is in *)
Definition window_in (logs : list Log.t) (w : Deque.t Float.t)
    : Deque.t Float.t :=
  Deque.append (ratio ERROR logs) w.

(** the test made on the alert window once this cycle's sample is in *)
Definition fires (cfg : Config) (logs : list Log.t) (w : Deque.t Float.t)
    : bool :=
  (Z.of_nat (Deque.len (window_in logs w)) =? alert_window cfg)%Z &&
  Float.ltb (Float.of_Q (alert_threshold cfg))
    (Float.div (Float.sum (Deque.items (window_in logs w)))
               (Float.of_Z (alert_window cfg))).

Definition the_alert (clock : nat -> string) (d : string) (s : State) : Alert.t :=
  {| Alert.device_id := d;
     Alert.timestamp := clock (clock_reads s);
     Alert.message := alert_message d;
     Alert.severity := "CRITICAL" |}.

Definition new_alerts (cfg : Config) (clock : nat -> string) (d : string)
    (logs : list Log.t) (w : Deque.t Float.t) (s : State) : list Alert.t :=
  if fires cfg logs w then [the_alert clock d s] else [].

Definition status_out (cfg : Config) (clock : nat -> string) (d : string)
    (logs : list Log.t) (st : DeviceStatus) (w : Deque.t Float.t) (s : State)
    : DeviceStatus :=
  {| last_error := match last (List.filter (has_level ERROR) logs) with
                   | Some log => Some log
                   | None => last_error st
                   end;
     alerts := alerts st ++ new_alerts cfg clock d logs w s |}.

Definition window_out (cfg : Config) (logs : list Log.t)
    (w : Deque.t Float.t) : Deque.t Float.t :=
  if fires cfg logs w then Deque.clear (window_in logs w) else window_in logs w.

Definition result_out (cfg : Config) (clock : nat -> string) (d : string)
    (logs : list Log.t) (st : DeviceStatus) (w : Deque.t Float.t) (s : State)
    : Result.t :=
  let st' := status_out cfg clock d logs st w s in
  {| Result.device_id := d;
     Result.timestamp :=
       clock (clock_reads s + length (new_alerts cfg clock d logs w s));
     Result.error_ratio := ratio ERROR logs;
     Result.warn_ratio := ratio WARN logs;
     Result.last_error := last_error st';
     Result.alert_count := length (alerts st') |}.

Definition after_cycle (cfg : Config) (clock : nat -> string) (d : string)
    (logs : list Log.t) (st : DeviceStatus) (w : Deque.t Float.t) (s : State)
    : State :=
  {| logs_cache := logs_cache s;
     device_status := <[d := status_out cfg clock d logs st w s]> (device_status s);
     alert_windows := <[d := window_out cfg logs w]> (alert_windows s);
     log_queue := log_queue s;
     analysis_queue := analysis_queue s ++ [result_out cfg clock d logs st w s];
     alert_queue := alert_queue s ++ new_alerts cfg clock d logs w s;
     clock_reads := S (clock_reads s + length (new_alerts cfg clock d logs w s)) |}.

(** what a turn of the processing loop does with the log it has taken *)
Definition process_one (log : Log.t) (s : State) : State :=
  match logs_cache s !! Log.device_id log with
  | Some c => set_logs_cache
                (<[Log.device_id log := Deque.append log c]> (logs_cache s)) s
  | None => s
  end.

(** the mean of the samples held by an alert window, as the source
    computes it: the sum of the samples divided by their number *)
Definition mean (xs : list Float.t) : Float.t :=
  Float.div (Float.sum xs) (Float.of_Z (Z.of_nat (length xs))).

(** the alerts on a queue that are about device [d] *)
Definition alerts_for (d : string) (q : list Alert.t) : list Alert.t :=
  List.filter (fun a => String.eqb (Alert.device_id a) d) q.

(** the number of samples in the alert window of [d] *)
Definition window_len (d : string) (s : State) : nat :=
  match alert_windows s !! d with
  | Some w => Deque.len w
  | None => 0
  end.

(** the number of analysis cycles in a run *)
Fixpoint cycles (evs : list event) : nat :=
  match evs with
  | [] => 0
  | Analyze :: evs' => S (cycles evs')
  | _ :: evs' => cycles evs'
  end.

(** a decision procedure for [wf] *)
Definition wfb (cfg : Config) (s : State) : bool :=
  forallb (fun d =>
    match logs_cache s !! d, device_status s !! d, alert_windows s !! d with
    | Some c, Some _, Some w =>
        (Deque.len c <=? Deque.maxlen c) &&
        (Deque.maxlen c =? Z.to_nat (analysis_window cfg)) &&
        (Deque.len w <=? Deque.maxlen w) &&
        (Z.of_nat (Deque.maxlen w) =? alert_window cfg)%Z
    | _, _, _ => false
    end) (device_ids cfg).

(** device [d] has not been seen with an ERROR log: none in its history, none
    waiting for it, only zero samples in its alert window, no alert raised *)
Record quiet (d : string) (s : State) : Prop := {
  quiet_cache : forall c, logs_cache s !! d = Some c ->
    Forall (fun l => Log.log_level l <> ERROR) (Deque.items c);
  quiet_queue :
    Forall (fun l => Log.device_id l = d -> Log.log_level l <> ERROR) (log_queue s);
  quiet_window : forall w, alert_windows s !! d = Some w ->
    Forall (fun x => x = Float.zero) (Deque.items w);
  quiet_status : forall st, device_status s !! d = Some st -> alerts st = [];
  quiet_alerts : alerts_for d (alert_queue s) = []
}.

(** the events of a run in which no ERROR log of [d] is produced *)
Definition no_error_for (d : string) (ev : event) : Prop :=
  match ev with
  | Put log => Log.device_id log = d -> Log.log_level log <> ERROR
  | _ => True
  end.

(** Values and states with the wall-clock readings blanked out. *)
Definition erase_alert (a : Alert.t) : Alert.t :=
  {| Alert.device_id := Alert.device_id a; Alert.timestamp := "";
     Alert.message := Alert.message a; Alert.severity := Alert.severity a |}.

Definition erase_result (r : Result.t) : Result.t :=
  {| Result.device_id := Result.device_id r; Result.timestamp := "";
     Result.error_ratio := Result.error_ratio r;
     Result.warn_ratio := Result.warn_ratio r;
     Result.last_error := Result.last_error r;
     Result.alert_count := Result.alert_count r |}.

Definition erase_status (st : DeviceStatus) : DeviceStatus :=
  {| last_error := last_error st; alerts := map erase_alert (alerts st) |}.

(** two states that differ at most in the wall-clock readings they hold *)
Record sim (s1 s2 : State) : Prop := {
  sim_cache : logs_cache s1 = logs_cache s2;
  sim_status : erase_status <$> device_status s1 = erase_status <$> device_status s2;
  sim_windows : alert_windows s1 = alert_windows s2;
  sim_log_queue : log_queue s1 = log_queue s2;
  sim_analysis : map erase_result (analysis_queue s1)
                 = map erase_result (analysis_queue s2);
  sim_alerts : map erase_alert (alert_queue s1) = map erase_alert (alert_queue s2);
  sim_clock : clock_reads s1 = clock_reads s2
}.

(** two statements that take states equal up to clock readings to such
    states, with the same outcome and results related by [R] *)
Definition simM {A : Type} (R : A -> A -> Prop) (m1 m2 : M A) : Prop :=
  forall s1 s2, sim s1 s2 ->
    match m1 s1, m2 s2 with
    | (inl a1, t1), (inl a2, t2) => R a1 a2 /\ sim t1 t2
    | (inr e1, t1), (inr e2, t2) => e1 = e2 /\ sim t1 t2
    | _, _ => False
    end.

(** a configuration as the specification wants it *)
Definition valid (cfg : Config) : Prop :=
  (0 < analysis_window cfg)%Z /\ (0 < analysis_interval cfg)%Q /\
  (0 < alert_window cfg)%Z /\
  (0 < alert_threshold cfg)%Q /\ (alert_threshold cfg < 1)%Q.

(** every history in the cache is a bounded deque of capacity [n] *)
Definition cache_ok (n : nat) (s : State) : Prop :=
  forall d c, logs_cache s !! d = Some c ->
    Deque.bounded c /\ Deque.maxlen c = n.

(** a statement that leaves [logs_cache] alone, however it ends *)
Definition keeps_cache {A : Type} (m : M A) : Prop :=
  forall s, logs_cache (snd (m s)) = logs_cache s.

End LogSystem.

(** ** Sample data *)

Module Sample.
Import LogSystem.

Definition clock (k : nat) : string :=
  if Nat.even k then "2024-05-01 10:00:00"%string else "2024-05-01 10:00:05"%string.

Definition log (d : string) (lv : Level) : Log.t :=
  {| Log.device_id := d; Log.timestamp := "2024-05-01 09:59:58";
     Log.log_level := lv; Log.message := "msg" |}.

(** the shipped configuration, device1 with one ERROR log in its history and
    nine samples of ratio 1 in its alert window *)
Definition hot : State :=
  {| logs_cache := list_to_map
       [("device1"%string, Deque.mk 20 [log "device1" ERROR]);
        ("device2"%string, Deque.mk 20 []);
        ("device3"%string, Deque.mk 20 [])];
     device_status := list_to_map
       [("device1"%string, {| last_error := None; alerts := [] |});
        ("device2"%string, {| last_error := None; alerts := [] |});
        ("device3"%string, {| last_error := None; alerts := [] |})];
     alert_windows := list_to_map
       [("device1"%string, Deque.mk 10 (repeat Float.one 9));
        ("device2"%string, Deque.mk 10 []);
        ("device3"%string, Deque.mk 10 [])];
     log_queue := []; analysis_queue := []; alert_queue := [];
     clock_reads := 0 |}.

(** the state right after [LogAnalyzer()] under the shipped configuration *)
Definition fresh : State :=
  {| logs_cache := list_to_map
       [("device1"%string, Deque.mk 20 []);
        ("device2"%string, Deque.mk 20 []);
        ("device3"%string, Deque.mk 20 [])];
     device_status := list_to_map
       [("device1"%string, {| last_error := None; alerts := [] |});
        ("device2"%string, {| last_error := None; alerts := [] |});
        ("device3"%string, {| last_error := None; alerts := [] |})];
     alert_windows := list_to_map
       [("device1"%string, Deque.mk 10 []);
        ("device2"%string, Deque.mk 10 []);
        ("device3"%string, Deque.mk 10 [])];
     log_queue := []; analysis_queue := []; alert_queue := [];
     clock_reads := 0 |}.

(** the readings of a replay on the next day *)
Definition clock_later (k : nat) : string :=
  if Nat.even k then "2024-05-02 10:00:00"%string else "2024-05-02 10:00:05"%string.

(** a configuration in which every value is one that the specification
    wants rejected *)
Definition unchecked : Config :=
  {| device_ids := ["device1"%string]; analysis_window := 0;
     analysis_interval := 0; alert_threshold := 2; alert_window := 0 |}.

(** the shipped configuration with a history size of [sys.maxsize + 1] *)
Definition oversized : Config :=
  {| device_ids := ["device1"; "device2"; "device3"]%string;
     analysis_window := 2 ^ 63; analysis_interval := 5;
     alert_threshold := 1 # 2; alert_window := 10 |}.

(** a history of six logs: one ERROR, four WARN, one INFO *)
Definition mixed : list Log.t :=
  log "device1" ERROR :: repeat (log "device1" WARN) 4 ++ [log "device1" INFO].

(** A run of the shipped configuration: device1 sends four ERROR and five
    INFO logs and is analysed nine times, then sends twenty ERROR logs, which
    fill its history. *)
Definition warm_up : list event :=
  map Put (repeat (log "device1" ERROR) 4 ++ repeat (log "device1" INFO) 5)
  ++ repeat Process 9 ++ repeat Analyze 9
  ++ map Put (repeat (log "device1" ERROR) 20)
  ++ repeat Process 20.

End Sample.

(** ** log_analyzer.py *)

Module LogAnalyzerPy.

Definition N : Z := 100.
Definition T : Z := 5.
Definition S : Z := 10.

(** the dict put on [analysis_queue] *)
Record AResult := {
  r_device_id : string;
  r_error_ratio : Float.t;
  r_warn_ratio : Float.t;
  r_last_error : option Log.t;
  r_timestamp : string
}.

(** the dict put on [alert_queue] *)
Record AAlert := {
  a_device_id : string;
  a_message : string;
  a_timestamp : string
}.

(** The queues, the local dict [device_logs] in insertion order, and the
    number of times the wall clock has been read. *)
Record State := {
  log_queue : list Log.t;
  device_logs : list (string * Deque.t Log.t);
  analysis_queue : list AResult;
  alert_queue : list AAlert;
  clock_reads : nat
}.

(** [device_logs.get(key)] on the association list *)
Fixpoint dict_get (key : string) (dl : list (string * Deque.t Log.t))
    : option (Deque.t Log.t) :=
  match dl with
  | [] => None
  | (k, v) :: dl' => if String.eqb k key then Some v else dict_get key dl'
  end.

(** the value under [key] is changed in place; the key keeps its position *)
Fixpoint dict_alter (f : Deque.t Log.t -> Deque.t Log.t) (key : string)
    (dl : list (string * Deque.t Log.t)) : list (string * Deque.t Log.t) :=
  match dl with
  | [] => []
  | (k, v) :: dl' =>
      if String.eqb k key then (k, f v) :: dl'
      else (k, v) :: dict_alter f key dl'
  end.

(** Lines 15 to 21: at most one log is taken from the queue. *)
Definition ingest (s : State) : State :=
  match log_queue s with
  | [] => s
  | log :: rest =>
      let device_id := Log.device_id log in
      let dl :=
        match dict_get device_id (device_logs s) with
        | Some _ => device_logs s
        | None => device_logs s ++ [(device_id, Deque.mk (Z.to_nat N) [])]
        end in
      {| log_queue := rest;
         device_logs := dict_alter (Deque.append log) device_id dl;
         analysis_queue := analysis_queue s;
         alert_queue := alert_queue s;
         clock_reads := clock_reads s |}
  end.

(** [next((log for log in reversed(logs) if log["log_level"] == "ERROR"), None)] *)
Definition newest_error (logs : list Log.t) : option Log.t :=
  List.find (has_level ERROR) (rev logs).

(** The body of [for device_id, logs in device_logs.items()].  The divisor
    of each [/] is the length of a list that is not empty and the dividend
    counts some of its entries, so that the quotient is an ordinary double
    between 0.0 and 1.0. *)
Definition analyze_device (clock : nat -> string) (device_id : string)
    (logs : list Log.t) (s : State) : State :=
  match logs with
  | [] => s
  | _ :: _ =>
    let error_count := count (has_level ERROR) logs in
    let warn_count := count (has_level WARN) logs in
    let total := length logs in
    let error_ratio := Float.quot (Z.of_nat error_count) (Z.of_nat total) in
    let warn_ratio := Float.quot (Z.of_nat warn_count) (Z.of_nat total) in
    let last_error := newest_error logs in
    let result := {| r_device_id := device_id;
                     r_error_ratio := error_ratio;
                     r_warn_ratio := warn_ratio;
                     r_last_error := last_error;
                     r_timestamp := clock (clock_reads s) |} in
    let recent_logs := Deque.lastn (Z.to_nat (S * 10)) logs in
    let alert :=
      (0 <? length recent_logs) &&
      Float.ltb (Float.of_Q (1 # 2))
        (Float.quot (Z.of_nat (count (has_level ERROR) recent_logs))
                    (Z.of_nat (length recent_logs))) in
    {| log_queue := log_queue s;
       device_logs := device_logs s;
       analysis_queue := analysis_queue s ++ [result];
       alert_queue :=
         alert_queue s ++
         (if alert then
            [{| a_device_id := device_id;
                a_message := "ERROR比例超过50%!";
                a_timestamp := clock (Datatypes.S (clock_reads s)) |}]
          else []);
       clock_reads := clock_reads s + (if alert then 2 else 1) |}
  end.

(** One turn of the [while True] loop: the ingestion, [time.sleep(T)], and
    the analysis of every device. *)
Definition iteration (clock : nat -> string) (s : State) : State :=
  let s1 := ingest s in
  fold_left (fun acc kv => analyze_device clock (fst kv) (Deque.items (snd kv)) acc)
            (device_logs s1) s1.

Fixpoint iterations (n : nat) (clock : nat -> string) (s : State) : State :=
  match n with
  | 0 => s
  | Datatypes.S n' => iterations n' clock (iteration clock s)
  end.

(** the state when [log_analyzer] is entered with [queue] waiting *)
Definition start (queue : list Log.t) : State :=
  {| log_queue := queue; device_logs := []; analysis_queue := [];
     alert_queue := []; clock_reads := 0 |}.

(** every history in [device_logs] is a bounded deque of capacity [N] *)
Definition logs_ok (dl : list (string * Deque.t Log.t)) : Prop :=
  Forall (fun kv => Deque.bounded (snd kv) /\
                    Deque.maxlen (snd kv) = Z.to_nat N) dl.

End LogAnalyzerPy.

(** ** log_system.py: further notions about the analyzer *)

Module LogSystemMore.
Import LogSystem.

(** the test [if not logs: continue] on the history of [d] *)
Definition has_data (s : State) (d : string) : bool :=
  match logs_cache s !! d with
  | Some c => match Deque.items c with [] => false | _ :: _ => true end
  | None => false
  end.

(** the ratios that a cycle computes from the history of [d] *)
Definition ratios_of (s : State) (d : string) : Float.t * Float.t :=
  match logs_cache s !! d with
  | Some c => (ratio ERROR (Deque.items c), ratio WARN (Deque.items c))
  | None => (Float.zero, Float.zero)
  end.

(** a statement that leaves the projection [f] of the state alone, however
    it ends *)
Definition keeps {A X : Type} (f : State -> X) (m : M A) : Prop :=
  forall s, f (snd (m s)) = f s.

(** every alert on the queue is about a configured device, is CRITICAL and
    carries the message of its device, and the alerts kept for a device are
    the alerts of that device on the queue, oldest first *)
Record alerts_ok (cfg : Config) (s : State) : Prop := {
  alerts_shape : Forall (fun a =>
      Alert.device_id a ∈ device_ids cfg /\
      Alert.severity a = "CRITICAL"%string /\
      Alert.message a = alert_message (Alert.device_id a)) (alert_queue s);
  alerts_kept : forall d st, device_status s !! d = Some st ->
      alerts st = alerts_for d (alert_queue s)
}.

End LogSystemMore.

(** ** log_system.py: MonitoringDashboard *)

Module Dashboard.
Import LogSystem.

(** [self.analysis_data[device_id]] *)
Record Series := {
  timestamps : list string;
  error_ratios : list Float.t;
  warn_ratios : list Float.t
}.

(** The data of a [MonitoringDashboard]; the figure and its axes are not
    modelled. *)
Record Dash := {
  analysis_data : gmap string Series;
  alerts : list Alert.t
}.

(** the data part of [MonitoringDashboard.__init__] *)
Definition init (cfg : Config) : Dash :=
  {| analysis_data :=
       fold_left (fun m k => <[k := {| timestamps := []; error_ratios := [];
                                       warn_ratios := [] |}]> m)
                 (device_ids cfg) ∅;
     alerts := [] |}.

(** Lines 182 to 197, the first [try] of a turn of [process_queues]: an
    empty queue and a device without data both end in [except: pass]. *)
Definition take_result (s : State) (d : Dash) : State * Dash :=
  match analysis_queue s with
  | [] => (s, d)
  | result :: rest =>
      let s' := set_analysis_queue rest s in
      let device_id := Result.device_id result in
      match analysis_data d !! device_id with
      | None => (s', d)
      | Some ser =>
          let ts := timestamps ser ++ [Result.timestamp result] in
          let er := error_ratios ser ++ [Result.error_ratio result] in
          let wr := warn_ratios ser ++ [Result.warn_ratio result] in
          let ser' :=
            if 20 <? length ts
            then {| timestamps := tail ts; error_ratios := tail er;
                    warn_ratios := tail wr |}
            else {| timestamps := ts; error_ratios := er; warn_ratios := wr |} in
          (s', {| analysis_data := <[device_id := ser']> (analysis_data d);
                  alerts := alerts d |})
      end
  end.

(** Lines 200 to 206, the second [try] *)
Definition take_alert (s : State) (d : Dash) : State * Dash :=
  match alert_queue s with
  | [] => (s, d)
  | alert :: rest =>
      let al := alerts d ++ [alert] in
      (set_alert_queue rest s,
       {| analysis_data := analysis_data d;
          alerts := if 5 <? length al then tail al else al |})
  end.

(** one turn of the [while True] loop of [process_queues] *)
Definition process_queues_iter (sd : State * Dash) : State * Dash :=
  let (s1, d1) := take_result (fst sd) (snd sd) in take_alert s1 d1.

(** [n] turns in a row, nothing else running in between *)
Fixpoint process_queues (n : nat) (sd : State * Dash) : State * Dash :=
  match n with
  | 0 => sd
  | S n' => process_queues n' (process_queues_iter sd)
  end.

(** the line feed of ["\n"] *)
Definition nl : string := String (Ascii.ascii_of_nat 10) EmptyString.

(** Lines 241 to 244 of [update_plots] *)
Definition alert_text (device_id : string) (alerts : list Alert.t) : string :=
  fold_left (fun text alert =>
    if String.eqb (Alert.device_id alert) device_id
    then text +:+ Alert.timestamp alert +:+ ": " +:+ Alert.message alert +:+ nl
    else text) alerts ("Recent Alerts:" +:+ nl)%string.

(** the text drawn on the lower axis of the device, lines 246 to 248 *)
Definition shown_text (device_id : string) (alerts : list Alert.t) : string :=
  let text := alert_text device_id alerts in
  if String.eqb text ("Recent Alerts:" +:+ nl) then "No recent alerts"%string
  else text.

(** the series of a device are of one length, at most 20, and at most 5
    alerts are kept *)
Record dash_ok (d : Dash) : Prop := {
  series_ok : forall k ser, analysis_data d !! k = Some ser ->
    length (error_ratios ser) = length (timestamps ser) /\
    length (warn_ratios ser) = length (timestamps ser) /\
    length (timestamps ser) <= 20;
  alerts_bound : length (alerts d) <= 5
}.

(** the dashboard after a sequence of turns, the queues holding what the
    analyzer has left there at each turn *)
Definition after_turns (cfg : Config) (states : list State) : Dash :=
  fold_left (fun d s => snd (process_queues_iter (s, d))) states (init cfg).

(** the results on a queue that are about device [k] *)
Definition results_for (k : string) (q : list Result.t) : list Result.t :=
  List.filter (fun r => String.eqb (Result.device_id r) k) q.

(** what [n] turns make of the dashboard *)
Definition shows (n : nat) (s : State) (d d' : Dash) : Prop :=
  alerts d' = Deque.lastn 5 (alerts d ++ take n (alert_queue s)) /\
  forall k,
    match analysis_data d !! k with
    | None => analysis_data d' !! k = None
    | Some ser =>
        exists ser', analysis_data d' !! k = Some ser' /\
          let rs := results_for k (take n (analysis_queue s)) in
          timestamps ser' = Deque.lastn 20 (timestamps ser ++ map Result.timestamp rs) /\
          error_ratios ser' = Deque.lastn 20 (error_ratios ser ++ map Result.error_ratio rs) /\
          warn_ratios ser' = Deque.lastn 20 (warn_ratios ser ++ map Result.warn_ratio rs)
    end.

End Dashboard.

(** ** log_analyzer.py: a further notion *)

Module LogAnalyzerMore.

(** every history in [device_logs] holds a log, and no device id is listed
    twice *)
Definition logs_seen (dl : list (string * Deque.t Log.t)) : Prop :=
  Forall (fun kv => Deque.items (snd kv) <> []) dl /\ NoDup (map fst dl).

End LogAnalyzerMore.

(** ** visualization.py *)

Module Visualizer.

(** [self.device_data[device_id]] *)
Record VData := {
  timestamps : list string;
  error_ratios : list Float.t;
  warn_ratios : list Float.t;
  last_error : option Log.t;
  alerts : list LogAnalyzerPy.AAlert
}.

(** the value that the [defaultdict] makes for a key it does not hold *)
Definition fresh : VData :=
  {| timestamps := []; error_ratios := []; warn_ratios := [];
     last_error := None; alerts := [] |}.

(** [device_data.get(key)], which does not create the entry *)
Fixpoint dd_get (key : string) (dd : list (string * VData)) : option VData :=
  match dd with
  | [] => None
  | (k, v) :: dd' => if String.eqb k key then Some v else dd_get key dd'
  end.

(** An update of [device_data[key]]: the entry is changed in place, and a
    key that is not held is first added, after the others, with the value of
    the factory. *)
Fixpoint dd_alter (f : VData -> VData) (key : string)
    (dd : list (string * VData)) : list (string * VData) :=
  match dd with
  | [] => [(key, f fresh)]
  | (k, v) :: dd' =>
      if String.eqb k key then (k, f v) :: dd'
      else (k, v) :: dd_alter f key dd'
  end.

(** Lines 29 to 34, the body of the first [while] of [update_plot] *)
Definition absorb_result (data : LogAnalyzerPy.AResult) (v : VData) : VData :=
  {| timestamps := timestamps v ++ [LogAnalyzerPy.r_timestamp data];
     error_ratios := error_ratios v ++ [LogAnalyzerPy.r_error_ratio data];
     warn_ratios := warn_ratios v ++ [LogAnalyzerPy.r_warn_ratio data];
     last_error := LogAnalyzerPy.r_last_error data;
     alerts := alerts v |}.

(** Lines 38 to 39, the body of the second [while] *)
Definition absorb_alert (alert : LogAnalyzerPy.AAlert) (v : VData) : VData :=
  {| timestamps := timestamps v; error_ratios := error_ratios v;
     warn_ratios := warn_ratios v; last_error := last_error v;
     alerts := alerts v ++ [alert] |}.

(** The part of [update_plot] that reads the queues: both are emptied, the
    results first. *)
Definition update_plot (s : LogAnalyzerPy.State) (dd : list (string * VData))
    : LogAnalyzerPy.State * list (string * VData) :=
  let dd1 := fold_left (fun acc data =>
               dd_alter (absorb_result data) (LogAnalyzerPy.r_device_id data) acc)
               (LogAnalyzerPy.analysis_queue s) dd in
  let dd2 := fold_left (fun acc alert =>
               dd_alter (absorb_alert alert) (LogAnalyzerPy.a_device_id alert) acc)
               (LogAnalyzerPy.alert_queue s) dd1 in
  ({| LogAnalyzerPy.log_queue := LogAnalyzerPy.log_queue s;
      LogAnalyzerPy.device_logs := LogAnalyzerPy.device_logs s;
      LogAnalyzerPy.analysis_queue := [];
      LogAnalyzerPy.alert_queue := [];
      LogAnalyzerPy.clock_reads := LogAnalyzerPy.clock_reads s |}, dd2).

(** [xs[-recent_points:]] with [recent_points = min(20, len(timestamps))],
    under the guard [len(timestamps) > 0] *)
Definition recent {A : Type} (v : VData) (xs : list A) : list A :=
  Deque.lastn (Nat.min 20 (length (timestamps v))) xs.

(** the three lines drawn for a device, when any *)
Definition plotted (v : VData)
    : option (list string * list Float.t * list Float.t) :=
  match timestamps v with
  | [] => None
  | _ :: _ => Some (recent v (timestamps v), recent v (error_ratios v),
                    recent v (warn_ratios v))
  end.

(** the results and the alerts on a queue that are about device [k] *)
Definition results_for (k : string) (q : list LogAnalyzerPy.AResult)
    : list LogAnalyzerPy.AResult :=
  List.filter (fun r => String.eqb (LogAnalyzerPy.r_device_id r) k) q.

Definition alerts_for (k : string) (q : list LogAnalyzerPy.AAlert)
    : list LogAnalyzerPy.AAlert :=
  List.filter (fun a => String.eqb (LogAnalyzerPy.a_device_id a) k) q.

(** the three series of every device are of one length *)
Definition aligned (dd : list (string * VData)) : Prop :=
  Forall (fun kv =>
    length (error_ratios (snd kv)) = length (timestamps (snd kv)) /\
    length (warn_ratios (snd kv)) = length (timestamps (snd kv))) dd.

End Visualizer.

(** ** The log generators of log_system.py and log_producer.py *)

Module Generator.

(** [CONFIG['log_levels']] and the list [levels] of log_producer.py *)
Definition log_levels : list Level := [INFO; WARN; ERROR].

(** [CONFIG['sample_messages']] *)
Definition sample_messages (lv : Level) : list string :=
  match lv with
  | INFO => ["系统状态正常"; "操作已完成"; "服务启动成功"]
  | WARN => ["内存使用率过高"; "磁盘空间不足"; "网络延迟增加"]
  | ERROR => ["服务崩溃"; "连接超时"; "硬件故障"]
  end%string.

(** the dict [messages] of log_producer.py *)
Definition producer_messages (lv : Level) : list string :=
  match lv with
  | INFO => ["系统状态正常"; "用户登录成功"]
  | WARN => ["内存使用率过高"; "磁盘空间不足"]
  | ERROR => ["系统崩溃"; "数据库连接失败"]
  end%string.

(** [random.choice(seq)], the number drawn being [r]: the element at a
    position below [len(seq)], and [IndexError] ([None]) on an empty
    sequence.  [random.choices(population, weights, k=1)[0]] is modelled the
    same way: the weights bear on how often a position is drawn, which the
    embedding does not express. *)
Definition random_choice {A : Type} (r : nat) (seq : list A) : option A :=
  match seq with
  | [] => None
  | _ :: _ => seq !! (r mod length seq)
  end.

(** [generate_log] of both files, over the table of messages, the clock
    reading and the two numbers drawn *)
Definition generate_log (messages : Level -> list string)
    (device_id now : string) (r1 r2 : nat) : option Log.t :=
  log_level ← random_choice r1 log_levels;
  message ← random_choice r2 (messages log_level);
  Some {| Log.device_id := device_id; Log.timestamp := now;
          Log.log_level := log_level; Log.message := message |}.

End Generator.

(** ** More sample data *)

Module MoreSamples.
Import LogSystem.

(** the shipped configuration with an alert window of 0 *)
Definition no_window : Config :=
  {| device_ids := ["device1"; "device2"; "device3"]%string;
     analysis_window := 20; analysis_interval := 5;
     alert_threshold := 1 # 2; alert_window := 0 |}.

(** an analyzer built from [no_window] whose device2 has one log *)
Definition no_window_state : State :=
  {| logs_cache := list_to_map
       [("device1"%string, Deque.mk 20 []);
        ("device2"%string, Deque.mk 20 [Sample.log "device2" INFO]);
        ("device3"%string, Deque.mk 20 [])];
     device_status := list_to_map
       [("device1"%string, {| last_error := None; alerts := [] |});
        ("device2"%string, {| last_error := None; alerts := [] |});
        ("device3"%string, {| last_error := None; alerts := [] |})];
     alert_windows := list_to_map
       [("device1"%string, Deque.mk 0 []);
        ("device2"%string, Deque.mk 0 []);
        ("device3"%string, Deque.mk 0 [])];
     log_queue := []; analysis_queue := []; alert_queue := [];
     clock_reads := 0 |}.

(** the shipped configuration, device1 with one INFO log in its history and
    a full alert window of samples of ratio 0, and two logs waiting *)
Definition calm : State :=
  {| logs_cache := list_to_map
       [("device1"%string, Deque.mk 20 [Sample.log "device1" INFO]);
        ("device2"%string, Deque.mk 20 []);
        ("device3"%string, Deque.mk 20 [])];
     device_status := list_to_map
       [("device1"%string, {| last_error := None; alerts := [] |});
        ("device2"%string, {| last_error := None; alerts := [] |});
        ("device3"%string, {| last_error := None; alerts := [] |})];
     alert_windows := list_to_map
       [("device1"%string, Deque.mk 10 (repeat Float.zero 10));
        ("device2"%string, Deque.mk 10 []);
        ("device3"%string, Deque.mk 10 [])];
     log_queue := [Sample.log "device1" WARN; Sample.log "device2" ERROR];
     analysis_queue := []; alert_queue := [];
     clock_reads := 0 |}.

(** a state of [log_analyzer] that has seen device1 and has a log of it
    waiting *)
Definition seen : LogAnalyzerPy.State :=
  {| LogAnalyzerPy.log_queue := [Sample.log "device1" WARN];
     LogAnalyzerPy.device_logs :=
       [("device1"%string, Deque.mk 100 [Sample.log "device1" ERROR])];
     LogAnalyzerPy.analysis_queue := [];
     LogAnalyzerPy.alert_queue := [];
     LogAnalyzerPy.clock_reads := 0 |}.

(** a state of [log_analyzer] with one result waiting for the visualizer,
    and what the visualizer then holds for device1 *)
Definition published : LogAnalyzerPy.State :=
  {| LogAnalyzerPy.log_queue := [];
     LogAnalyzerPy.device_logs := [];
     LogAnalyzerPy.analysis_queue :=
       [{| LogAnalyzerPy.r_device_id := "device1";
           LogAnalyzerPy.r_error_ratio := Float.one;
           LogAnalyzerPy.r_warn_ratio := Float.zero;
           LogAnalyzerPy.r_last_error := None;
           LogAnalyzerPy.r_timestamp := "2024-05-01 10:00:00" |}];
     LogAnalyzerPy.alert_queue := [];
     LogAnalyzerPy.clock_reads := 1 |}.

Definition held : Visualizer.VData :=
  {| Visualizer.timestamps := ["2024-05-01 10:00:00"%string];
     Visualizer.error_ratios := [Float.one];
     Visualizer.warn_ratios := [Float.zero];
     Visualizer.last_error := None;
     Visualizer.alerts := [] |}.

End MoreSamples.

(** * Properties *)

(** ** Bounded deques *)

Section deque_facts.
Context {A : Type}.
Implicit Types (d : Deque.t A) (x : A) (xs l : list A).
Import Deque.

Lemma maxlen_append x d : maxlen (append x d) = maxlen d.
Proof. reflexivity. Qed.

Lemma maxlen_extend xs d : maxlen (extend xs d) = maxlen d.
Proof.
  revert d. induction xs as [|x xs IH]; intros d; [reflexivity|].
  unfold extend in *. cbn. now rewrite IH.
Qed.

Lemma bounded_new n d : new n = Some d -> bounded d /\ items d = [].
Proof.
  unfold new. destruct (n <? 0)%Z; [discriminate|].
  destruct (ssize_max <? n)%Z; [discriminate|].
  intros [= <-]. unfold bounded, len. cbn. split; [lia|reflexivity].
Qed.

Lemma bounded_append x d : bounded d -> bounded (append x d).
Proof.
  unfold bounded, len, append. cbn [items maxlen]. intros Hb.
  destruct (Nat.ltb_spec (maxlen d) (length (items d ++ [x]))) as [Hlt|Hle];
    [|exact Hle].
  rewrite length_app in Hlt. cbn [length] in Hlt.
  destruct (items d) as [|y l]; cbn [app tail length] in *; [lia|].
  rewrite length_app. cbn [length]. lia.
Qed.

Lemma bounded_clear d : bounded (clear d).
Proof. unfold bounded, len, clear. cbn. lia. Qed.

Lemma bounded_extend xs d : bounded d -> bounded (extend xs d).
Proof.
  revert d. induction xs as [|x xs IH]; intros d Hb; [exact Hb|].
  unfold extend in *. cbn. apply IH. now apply bounded_append.
Qed.

(** On a bounded deque, [append] keeps the last [maxlen] items of the old
    items followed by the new one. *)
Lemma items_append x d :
  bounded d -> items (append x d) = lastn (maxlen d) (items d ++ [x]).
Proof.
  unfold bounded, len, append, lastn. cbn [items maxlen]. intros Hb.
  rewrite length_app. cbn [length].
  destruct (Nat.ltb_spec (maxlen d) (length (items d) + 1)) as [Hlt|Hle].
  - replace (length (items d) + 1 - maxlen d) with 1 by lia.
    now destruct (items d ++ [x]).
  - replace (length (items d) + 1 - maxlen d) with 0 by lia.
    reflexivity.
Qed.

Lemma lastn_app_lastn n l x :
  lastn n (lastn n l ++ [x]) = lastn n (l ++ [x]).
Proof.
  unfold lastn. rewrite !length_app, length_drop. cbn [length].
  destruct (Nat.le_gt_cases (length l) n) as [Hle|Hgt].
  - replace (length l - n) with 0 by lia. cbn [drop].
    now replace (length l - 0) with (length l) by lia.
  - replace (length l - (length l - n) + 1 - n) with 1 by lia.
    replace (length l + 1 - n) with (S (length l - n)) by lia.
    destruct n as [|n].
    + rewrite Nat.sub_0_r. rewrite drop_all. cbn.
      rewrite drop_ge; [reflexivity|]. rewrite length_app. cbn. lia.
    + rewrite (drop_app_le l [x] (S (length l - S n))) by lia.
      rewrite drop_app_le by (rewrite length_drop; lia).
      rewrite drop_drop. f_equal. f_equal. lia.
Qed.

Lemma lastn_lastn n l : lastn n (lastn n l) = lastn n l.
Proof.
  unfold lastn. rewrite length_drop.
  replace (length l - (length l - n) - n) with 0 by lia. reflexivity.
Qed.

Lemma lastn_app_lastn_l n l xs :
  lastn n (lastn n l ++ xs) = lastn n (l ++ xs).
Proof.
  revert l. induction xs as [|y ys IH] using rev_ind; intros l.
  - rewrite !app_nil_r. apply lastn_lastn.
  - rewrite !app_assoc. rewrite <- (lastn_app_lastn _ (l ++ ys)).
    rewrite <- IH. now rewrite lastn_app_lastn.
Qed.

(** A bounded deque that receives [xs] holds the last [maxlen] items of
    what it held followed by [xs], in the order of arrival. *)
Lemma items_extend xs d :
  bounded d -> items (extend xs d) = lastn (maxlen d) (items d ++ xs).
Proof.
  revert d. induction xs as [|x xs IH]; intros d Hb.
  - cbn. rewrite app_nil_r. unfold lastn, bounded, len in *.
    now replace (length (items d) - maxlen d) with 0 by lia.
  - change (extend (x :: xs) d) with (extend xs (append x d)).
    rewrite IH by now apply bounded_append.
    rewrite maxlen_append, items_append by assumption.
    rewrite lastn_app_lastn_l, <- app_assoc. reflexivity.
Qed.

Lemma length_lastn n l : length (lastn n l) = Nat.min n (length l).
Proof. unfold lastn. rewrite length_drop. lia. Qed.

End deque_facts.

(** ** Doubles *)

Section float_facts.
Local Open Scope Z_scope.

Lemma digits2_pos_bounds p :
  2 ^ (Zpos (digits2_pos p) - 1) <= Zpos p < 2 ^ Zpos (digits2_pos p).
Proof.
  induction p as [p IH|p IH|]; cbn [digits2_pos].
  - rewrite Pos2Z.inj_succ.
    replace (Z.succ (Zpos (digits2_pos p)) - 1) with (Z.succ (Zpos (digits2_pos p) - 1)) by lia.
    rewrite !Z.pow_succ_r by lia. lia.
  - rewrite Pos2Z.inj_succ.
    replace (Z.succ (Zpos (digits2_pos p)) - 1) with (Z.succ (Zpos (digits2_pos p) - 1)) by lia.
    rewrite !Z.pow_succ_r by lia. lia.
  - cbn. lia.
Qed.

Lemma Zdigits2_le m a : 0 <= a -> 0 <= m < 2 ^ a -> Zdigits2 m <= a.
Proof.
  intros Ha [Hm Hlt]. destruct m as [|p|p]; cbn [Zdigits2]; [lia| |lia].
  destruct (digits2_pos_bounds p) as [Hlo _].
  destruct (Z.le_gt_cases (Zpos (digits2_pos p)) a) as [H|H]; [exact H|].
  exfalso. assert (2 ^ a <= 2 ^ (Zpos (digits2_pos p) - 1))
    by (apply Z.pow_le_mono_r; lia). lia.
Qed.

Lemma shr_1_m mrs : 0 <= shr_m mrs -> shr_m (shr_1 mrs) = shr_m mrs / 2.
Proof.
  destruct mrs as [m r s]. cbn [shr_m]. intros Hm. unfold shr_1.
  destruct m as [|[p|p|]|p]; cbn [shr_m];
    [ reflexivity
    | apply Z.div_unique with (r := 1); lia
    | apply Z.div_unique with (r := 0); lia
    | reflexivity
    | lia ].
Qed.

Lemma iter_shr_1_m p : forall mrs,
  0 <= shr_m mrs -> shr_m (SpecFloat.iter_pos shr_1 p mrs) = shr_m mrs / 2 ^ Zpos p.
Proof.
  induction p as [p IH|p IH|]; intros mrs Hm; cbn [SpecFloat.iter_pos].
  - assert (H1 : 0 <= shr_m (shr_1 mrs)).
    { rewrite shr_1_m by exact Hm. apply Z.div_pos; lia. }
    assert (H2 : 0 <= shr_m (SpecFloat.iter_pos shr_1 p (shr_1 mrs))).
    { rewrite IH by exact H1. apply Z.div_pos; [exact H1|]. apply Z.pow_pos_nonneg; lia. }
    rewrite IH by exact H2. rewrite IH by exact H1. rewrite shr_1_m by exact Hm.
    rewrite !Z.div_div by (try apply Z.pow_pos_nonneg; lia).
    f_equal.
    replace (Zpos p~1) with (1 + Zpos p + Zpos p) by lia.
    rewrite !Z.pow_add_r by lia. lia.
  - assert (H2 : 0 <= shr_m (SpecFloat.iter_pos shr_1 p mrs)).
    { rewrite IH by exact Hm. apply Z.div_pos; [exact Hm|]. apply Z.pow_pos_nonneg; lia. }
    rewrite IH by exact H2. rewrite IH by exact Hm.
    rewrite !Z.div_div by (try apply Z.pow_pos_nonneg; lia).
    f_equal.
    replace (Zpos p~0) with (Zpos p + Zpos p) by lia.
    rewrite !Z.pow_add_r by lia. lia.
  - rewrite shr_1_m by exact Hm. reflexivity.
Qed.

(** a shift to the right divides the mantissa and raises the exponent *)
Lemma shr_spec mrs e n mrs' e' :
  0 <= shr_m mrs -> shr mrs e n = (mrs', e') ->
  (n <= 0 /\ shr_m mrs' = shr_m mrs /\ e' = e) \/
  (0 < n /\ shr_m mrs' = shr_m mrs / 2 ^ n /\ e' = e + n).
Proof.
  intros Hm. unfold shr. destruct n as [|p|p]; intros [= <- <-].
  - left. lia.
  - right. split; [lia|]. split; [|reflexivity]. now apply iter_shr_1_m.
  - left. lia.
Qed.

Lemma shr_m_of_loc m l : shr_m (shr_record_of_loc m l) = m.
Proof. destruct l as [|[]]; reflexivity. Qed.

Lemma round_nearest_even_bounds m l :
  m <= round_nearest_even m l <= m + 1.
Proof.
  unfold round_nearest_even. destruct l as [|[]]; try lia.
  destruct (Z.even m); lia.
Qed.

Lemma fexp_eq e : fexp Float.prec Float.emax e = Z.max (e - 53) (-1074).
Proof. reflexivity. Qed.

Lemma shr_fexp_below m e l mrs' e' :
  0 <= m -> e <= -53 -> m <= 2 ^ (- e) ->
  shr_fexp Float.prec Float.emax m e l = (mrs', e') ->
  0 <= shr_m mrs' <= 2 ^ (- e') /\ e' <= -52 /\
  (m < 2 ^ (- e) -> shr_m mrs' < 2 ^ (- e') /\ e' <= -53).
Proof.
  intros Hm He Hle. unfold shr_fexp. rewrite fexp_eq. intros Hs.
  apply shr_spec in Hs; [|rewrite shr_m_of_loc; exact Hm].
  rewrite shr_m_of_loc in Hs.
  destruct Hs as [(Hn & -> & ->)|(Hn & -> & ->)].
  - split; [lia|]. split; [lia|]. intros Hlt. lia.
  - set (d := Zdigits2 m) in *.
    assert (Hd : d <= - e + 1).
    { apply Zdigits2_le; [lia|]. split; [exact Hm|].
      replace (- e + 1) with (Z.succ (- e)) by lia.
      rewrite Z.pow_succ_r by lia.
      assert (0 < 2 ^ (- e)) by (apply Z.pow_pos_nonneg; lia). lia. }
    set (t := Z.max (d + e - 53) (-1074) - e) in *.
    assert (Ht : 0 < t <= - e - 52) by lia.
    assert (Hpt : 0 < 2 ^ t) by (apply Z.pow_pos_nonneg; lia).
    assert (Hsplit : 2 ^ (- e) = 2 ^ t * 2 ^ (- (e + t))).
    { rewrite <- Z.pow_add_r by lia. f_equal. lia. }
    split; [split|split].
    + apply Z.div_pos; lia.
    + apply Z.div_le_upper_bound; [exact Hpt|]. lia.
    + lia.
    + intros Hlt. split.
      * apply Z.div_lt_upper_bound; [exact Hpt|]. lia.
      * assert (Hd' : d <= - e).
        { apply Zdigits2_le; [lia|]. lia. }
        lia.
Qed.

(** rounding a number below 1 gives a double that is at most 1 *)
Lemma pow52 : 2 ^ 52 = 4503599627370496.
Proof. reflexivity. Qed.

Lemma binary_round_aux_below_one m e l :
  0 <= m < 2 ^ (- e) -> e <= -53 ->
  binary_round_aux Float.prec Float.emax false m e l = Float.zero \/
  exists m' e', binary_round_aux Float.prec Float.emax false m e l
                = S754_finite false m' e' /\
    (e' < -52 \/ (e' = -52 /\ Zpos m' <= 2 ^ 52)).
Proof.
  intros [Hm Hlt] He. unfold binary_round_aux.
  destruct (shr_fexp Float.prec Float.emax m e l) as [mrs1 e1] eqn:E1.
  apply shr_fexp_below in E1; [|lia..].
  destruct E1 as ([Hm1 _] & _ & H1). destruct (H1 Hlt) as [Hlt1 He1]. clear H1.
  pose proof (round_nearest_even_bounds (shr_m mrs1) (loc_of_shr_record mrs1)) as Hr.
  set (m2 := round_nearest_even (shr_m mrs1) (loc_of_shr_record mrs1)) in *.
  destruct (shr_fexp Float.prec Float.emax m2 e1 loc_Exact) as [mrs3 e3] eqn:E3.
  apply shr_fexp_below in E3; [|lia..].
  destruct E3 as ([Hm3 Hle3] & He3 & _).
  destruct (shr_m mrs3) as [|p|p] eqn:Ep; [now left| |lia].
  right. exists p, e3.
  assert (Hb : (e3 <=? Float.emax - Float.prec) = true).
  { apply Z.leb_le. change (Float.emax - Float.prec) with 971. lia. }
  rewrite Hb.
  split; [reflexivity|].
  destruct (Z.eq_dec e3 (-52)) as [->|Hne]; [right|left; lia].
  split; [reflexivity|]. exact Hle3.
Qed.

Lemma digits2_pos_mono a b :
  (a <= b)%positive -> Zpos (digits2_pos a) <= Zpos (digits2_pos b).
Proof.
  intros Hab.
  destruct (digits2_pos_bounds a) as [Ha _].
  destruct (digits2_pos_bounds b) as [_ Hb].
  assert (H : 2 ^ (Zpos (digits2_pos a) - 1) < 2 ^ Zpos (digits2_pos b)) by lia.
  apply Z.pow_lt_mono_r_iff in H; lia.
Qed.

(** what the division of two positive integers hands to the rounding *)
Lemma div_core_below a b q e l :
  (a < b)%positive ->
  SFdiv_core_binary Float.prec Float.emax (Zpos a) 0 (Zpos b) 0 = (q, e, l) ->
  0 <= q < 2 ^ (- e) /\ e <= -53.
Proof.
  intros Hab. unfold SFdiv_core_binary. rewrite fexp_eq. cbn [Zdigits2].
  pose proof (digits2_pos_mono a b ltac:(lia)) as Hd.
  set (d1 := Zpos (digits2_pos a)) in *. set (d2 := Zpos (digits2_pos b)) in *.
  replace (0 - 0) with 0 by reflexivity.
  set (e' := Z.min (Z.max (d1 + 0 - (d2 + 0) - 53) (-1074)) 0).
  assert (He' : -1074 <= e' <= -53) by lia.
  destruct (0 - e') as [|s|s] eqn:Es; [lia| |lia].
  rewrite Z.shiftl_mul_pow2 by lia.
  destruct (Z.div_eucl (Zpos a * 2 ^ Zpos s) (Zpos b)) as [q0 r0] eqn:Ed.
  intros [= <- <- <-].
  assert (Hq : q0 = Zpos a * 2 ^ Zpos s / Zpos b).
  { unfold Z.div. now rewrite Ed. }
  assert (Hp : 0 < 2 ^ Zpos s) by (apply Z.pow_pos_nonneg; lia).
  replace (- e') with (Zpos s) by lia.
  split; [|lia]. subst q0. split.
  - apply Z.div_pos; lia.
  - apply Z.div_lt_upper_bound; [lia|]. nia.
Qed.

Lemma quot_zero b : 0 < b -> Float.quot 0 b = Float.zero.
Proof. destruct b; [lia|reflexivity|lia]. Qed.

Lemma quot_same b : 0 < b -> Float.quot b b = Float.one.
Proof.
  destruct b as [|p|p]; [lia| |lia]. intros _.
  unfold Float.quot, Float.div, Float.exact, SFdiv, SFdiv_core_binary.
  rewrite fexp_eq. cbn [Zdigits2].
  replace (Zpos (digits2_pos p) + 0 - (Zpos (digits2_pos p) + 0) - 53) with (-53) by lia.
  change (Z.min (Z.max (-53) (-1074)) (0 - 0)) with (-53).
  change (0 - 0 - -53) with 53.
  rewrite Z.shiftl_mul_pow2 by lia.
  assert (Hd : Z.div_eucl (Zpos p * 2 ^ 53) (Zpos p) = (2 ^ 53, 0)).
  { pose proof (Z.div_eucl_eq (Zpos p * 2 ^ 53) (Zpos p) ltac:(lia)) as H.
    pose proof (Z.mod_pos_bound (Zpos p * 2 ^ 53) (Zpos p) ltac:(lia)) as Hb.
    unfold Z.modulo in Hb.
    destruct (Z.div_eucl (Zpos p * 2 ^ 53) (Zpos p)) as [q r].
    assert (r = 0).
    { assert (Hr : r = Zpos p * (2 ^ 53 - q)) by lia.
      assert (2 ^ 53 - q = 0) by nia. subst r. lia. }
    subst r. f_equal. nia. }
  rewrite Hd.
  assert (Hl : new_location (Zpos p) 0 = loc_Exact).
  { unfold new_location, new_location_even, new_location_odd.
    destruct (Z.even (Zpos p)); reflexivity. }
  rewrite Hl. vm_compute. reflexivity.
Qed.

Lemma quot_below_one a b : 0 <= a <= b -> 0 < b -> Float.below_one (Float.quot a b).
Proof.
  intros [Ha Hab] Hb. unfold Float.below_one.
  destruct (Z.eq_dec a 0) as [->|Ha0]; [left; now apply quot_zero|].
  destruct (Z.eq_dec a b) as [->|Hne].
  { right. rewrite quot_same by exact Hb. eexists _, _. split; [reflexivity|].
    right. split; [reflexivity|]. rewrite pow52. lia. }
  destruct a as [|pa|pa]; [lia| |lia]. destruct b as [|pb|pb]; [lia| |lia].
  unfold Float.quot, Float.div, Float.exact, SFdiv.
  destruct (SFdiv_core_binary Float.prec Float.emax (Zpos pa) 0 (Zpos pb) 0)
    as [[q e] l] eqn:E.
  apply div_core_below in E; [|lia]. destruct E as [Hq He].
  cbn [xorb]. now apply binary_round_aux_below_one.
Qed.

Lemma leb_finite m e c :
  e < -52 \/ (e = -52 /\ Zpos m <= Zpos c) ->
  SFleb (S754_finite false m e) (S754_finite false c (-52)) = true.
Proof.
  intros H. unfold SFleb, SFcompare. destruct H as [H|[-> H]].
  - rewrite (proj2 (Z.compare_lt_iff e (-52)) H). reflexivity.
  - rewrite Z.compare_refl. fold (Pos.compare m c).
    unfold Z.le in H. cbn [Z.compare] in H.
    destruct (Pos.compare m c); [reflexivity|reflexivity|congruence].
Qed.

Lemma below_one_leb x :
  Float.below_one x -> Float.leb Float.zero x = true /\ Float.leb x Float.one = true.
Proof.
  intros [->|(m & e & -> & H)]; [split; reflexivity|].
  split; [reflexivity|]. apply leb_finite. rewrite pow52 in H. exact H.
Qed.

Lemma below_one_finite x : Float.below_one x -> Float.is_inf x = false.
Proof. intros [->|(m & e & -> & _)]; reflexivity. Qed.

Lemma below_one_in_unit x : Float.below_one x -> Float.in_unit x.
Proof. apply below_one_leb. Qed.

(** rounding never makes a number that is not negative into a negative one *)
Lemma binary_round_aux_sign m e l :
  match binary_round_aux Float.prec Float.emax false m e l with
  | S754_zero s | S754_infinity s | S754_finite s _ _ => s = false
  | S754_nan => True
  end.
Proof.
  unfold binary_round_aux.
  destruct (shr_fexp Float.prec Float.emax m e l) as [mrs1 e1].
  destruct (shr_fexp _ _ _ e1 loc_Exact) as [mrs2 e2].
  destruct (shr_m mrs2); [reflexivity| |exact I].
  destruct (e2 <=? Float.emax - Float.prec); reflexivity.
Qed.

(** a threshold that is not negative is not below 0.0, and nothing is below
    a NaN *)
Lemma of_Q_not_below_zero q x :
  (0 <= q)%Q -> x = S754_nan \/ (exists s, x = S754_zero s) ->
  Float.ltb (Float.of_Q q) x = false.
Proof.
  intros Hq Hx. unfold Float.of_Q, Float.quot, Float.div, Float.exact.
  assert (Hn : 0 <= Qnum q).
  { unfold Qle in Hq. cbn in Hq. lia. }
  destruct (Qnum q) as [|p|p]; [| |lia].
  - destruct Hx as [->|[s ->]]; reflexivity.
  - cbn [SFdiv].
    destruct (SFdiv_core_binary Float.prec Float.emax (Zpos p) 0 (Zpos (Qden q)) 0)
      as [[mz ez] lz].
    cbn [xorb]. pose proof (binary_round_aux_sign mz ez lz) as Hs.
    destruct (binary_round_aux Float.prec Float.emax false mz ez lz)
      as [s0|s0| |s0 m0 e0]; try subst s0;
      destruct Hx as [->|[s ->]]; reflexivity.
Qed.

Lemma div_zero y :
  Float.div Float.zero y = S754_nan \/
  exists s, Float.div Float.zero y = S754_zero s.
Proof. destruct y as [s|s| |s m e]; cbn; eauto. Qed.

Lemma sum_zeros xs :
  Forall (fun x => x = Float.zero) xs -> Float.sum xs = Float.zero.
Proof.
  unfold Float.sum. induction 1 as [|x xs -> _ IH]; [reflexivity|exact IH].
Qed.

(** On the numbers of the examples the operations of [Float] give what the
    doubles of the machine give: 4 / 9, 1 / 6 + 4 / 6 + 1 / 6, 1 / 2 and
    float(10). *)
Lemma doubles_of_the_machine :
  FloatOps.Prim2SF (Float.machine_quot 4 9) = Float.quot 4 9 /\
  FloatOps.Prim2SF
    (PrimFloat.add
       (PrimFloat.add (Float.machine_quot 1 6) (Float.machine_quot 4 6))
       (Float.machine_quot 1 6))
  = Float.add (Float.add (Float.quot 1 6) (Float.quot 4 6)) (Float.quot 1 6) /\
  FloatOps.Prim2SF (Float.machine_quot 1 2) = Float.of_Q (1 # 2) /\
  FloatOps.Prim2SF (PrimFloat.of_uint63 (Uint63.of_Z 10)) = Float.of_Z 10.
Proof. vm_compute. repeat split; reflexivity. Qed.

End float_facts.

(** ** log_system.py *)

Import LogSystem.

Lemma count_le_length {A : Type} (p : A -> bool) (l : list A) :
  count p l <= length l.
Proof. induction l as [|x l IH]; cbn; [lia|]. destruct (p x); lia. Qed.

Lemma quot_nat_below_one (a b : nat) :
  a <= b -> b <> 0 -> Float.below_one (Float.quot (Z.of_nat a) (Z.of_nat b)).
Proof. intros Hab Hb. apply quot_below_one; lia. Qed.

(** The division of a count by the length of its list neither divides by
    zero nor overflows. *)
Lemma truediv_ok (a b : nat) s :
  a <= b -> b <> 0 ->
  truediv (Z.of_nat a) (Z.of_nat b) s
  = (inl (Float.quot (Z.of_nat a) (Z.of_nat b)), s).
Proof.
  intros Hab Hb. unfold truediv.
  destruct (Z.eqb_spec (Z.of_nat b) 0) as [E|_]; [lia|].
  cbv zeta. rewrite (below_one_finite _ (quot_nat_below_one a b Hab Hb)).
  reflexivity.
Qed.

Lemma float_truediv_ok x n s :
  (n <> 0)%Z -> float_truediv x n s = (inl (Float.div x (Float.of_Z n)), s).
Proof.
  intros Hn. unfold float_truediv.
  destruct (Z.eqb_spec n 0) as [E|_]; [contradiction|reflexivity].
Qed.

Lemma analyze_device_empty cfg clock d c s :
  logs_cache s !! d = Some c -> Deque.items c = [] ->
  analyze_device cfg clock d s = (inl tt, s).
Proof.
  intros Hc Hl. unfold analyze_device, mbind, M_bind, get_logs_cache.
  rewrite Hc, Hl. reflexivity.
Qed.

(** equations for running one statement after another *)

Lemma bind_ok {A B : Type} (m : M A) (k : A -> M B) s a s' :
  m s = (inl a, s') -> (m ≫= k) s = k a s'.
Proof. intros H. unfold mbind, M_bind. now rewrite H. Qed.

Lemma bind_assoc {A B C : Type} (m : M A) (f : A -> M B) (g : B -> M C) s :
  ((m ≫= f) ≫= g) s = (m ≫= (fun x => f x ≫= g)) s.
Proof. unfold mbind, M_bind. destruct (m s) as [[a|e] s']; reflexivity. Qed.

Lemma get_logs_cache_ok k d s :
  logs_cache s !! k = Some d -> get_logs_cache k s = (inl d, s).
Proof. intros H. unfold get_logs_cache. now rewrite H. Qed.

Lemma get_device_status_ok k d s :
  device_status s !! k = Some d -> get_device_status k s = (inl d, s).
Proof. intros H. unfold get_device_status. now rewrite H. Qed.

Lemma get_alert_window_ok k d s :
  alert_windows s !! k = Some d -> get_alert_window k s = (inl d, s).
Proof. intros H. unfold get_alert_window. now rewrite H. Qed.

Lemma set_last_error_ok k log st s :
  device_status s !! k = Some st ->
  set_last_error k log s
  = (inl tt, set_device_status
       (<[k := {| last_error := Some log; alerts := alerts st |}]>
          (device_status s)) s).
Proof.
  intros H. unfold set_last_error.
  erewrite bind_ok by (apply get_device_status_ok; exact H). reflexivity.
Qed.

Lemma append_alert_ok k a st s :
  device_status s !! k = Some st ->
  append_alert k a s
  = (inl tt, set_device_status
       (<[k := {| last_error := last_error st; alerts := alerts st ++ [a] |}]>
          (device_status s)) s).
Proof.
  intros H. unfold append_alert.
  erewrite bind_ok by (apply get_device_status_ok; exact H). reflexivity.
Qed.

Lemma window_append_ok k x w s :
  alert_windows s !! k = Some w ->
  window_append k x s
  = (inl tt, set_alert_windows (<[k := Deque.append x w]> (alert_windows s)) s).
Proof.
  intros H. unfold window_append.
  erewrite bind_ok by (apply get_alert_window_ok; exact H). reflexivity.
Qed.

Lemma window_clear_ok k w s :
  alert_windows s !! k = Some w ->
  window_clear k s
  = (inl tt, set_alert_windows (<[k := Deque.clear w]> (alert_windows s)) s).
Proof.
  intros H. unfold window_clear.
  erewrite bind_ok by (apply get_alert_window_ok; exact H). reflexivity.
Qed.

Ltac proj :=
  cbn [logs_cache device_status alert_windows log_queue analysis_queue
       alert_queue clock_reads set_logs_cache set_device_status
       set_alert_windows set_log_queue set_analysis_queue set_alert_queue
       set_clock_reads last_error alerts].

Ltac mstep lem :=
  rewrite ?bind_assoc;
  erewrite bind_ok by (apply lem; proj; rewrite ?lookup_insert_eq; eauto);
  proj.

Ltac mstep_div H :=
  rewrite ?bind_assoc;
  erewrite bind_ok by (apply truediv_ok; [apply count_le_length|exact H]).

Ltac mstep_fdiv H :=
  rewrite ?bind_assoc;
  erewrite bind_ok by (apply float_truediv_ok; exact H).

Ltac mstep_refl :=
  rewrite ?bind_assoc; erewrite bind_ok by reflexivity; proj.

Lemma analyze_device_spec cfg clock d c st w s :
  logs_cache s !! d = Some c -> device_status s !! d = Some st ->
  alert_windows s !! d = Some w ->
  Deque.items c <> [] -> (alert_window cfg <> 0)%Z ->
  analyze_device cfg clock d s
  = (inl tt, after_cycle cfg clock d (Deque.items c) st w s).
Proof.
  intros Hc Hst Hw Hne HS.
  unfold analyze_device. mstep get_logs_cache_ok. cbv zeta.
  destruct (Deque.items c) as [|l0 ls] eqn:El; [congruence|]. clear Hne.
  rewrite <- El. set (logs := Deque.items c).
  assert (Hlen : length logs <> 0) by (subst logs; rewrite El; discriminate).
  do 2 mstep_div Hlen.
  fold (ratio ERROR logs). fold (ratio WARN logs).
  unfold after_cycle, result_out, status_out, new_alerts, window_out, fires.
  fold (window_in logs w).
  destruct st as [le als]. destruct s as [lc ds aw lq aq alq cr].
  proj. cbn [logs_cache device_status alert_windows] in Hc, Hst, Hw.
  assert (Hid : <[d := {| last_error := le; alerts := als |}]> ds = ds)
    by (apply insert_id, Hst).
  destruct (last (List.filter (has_level ERROR) logs)) as [e|];
    [mstep set_last_error_ok | mstep_refl];
    (mstep window_append_ok; fold (window_in logs w);
     mstep get_alert_window_ok;
     destruct (Z.of_nat (Deque.len (window_in logs w)) =? alert_window cfg)%Z;
     cbn [andb];
     [ mstep get_alert_window_ok; mstep_fdiv HS;
       destruct (Float.ltb (Float.of_Q (alert_threshold cfg)) _);
       [ mstep_refl; mstep append_alert_ok; mstep_refl; mstep window_clear_ok
       | mstep_refl ]
     | mstep_refl ];
     mstep_refl; mstep get_device_status_ok;
     unfold put_analysis, modify, the_alert; proj;
     rewrite ?insert_insert_eq, ?app_nil_r, ?Hid; cbn [length];
     rewrite ?Nat.add_0_r, ?Nat.add_1_r; reflexivity).
Qed.

(** *** Construction *)

Lemma dict_comp_some {V : Type} (v : V) ks acc :
  dict_comp (fun _ => Some v) ks acc
  = Some (fold_left (fun m k => <[k := v]> m) ks acc).
Proof.
  revert acc. induction ks as [|k ks IH]; intros acc; [reflexivity|].
  cbn. apply IH.
Qed.

Lemma dict_comp_none {V : Type} ks (acc : gmap string V) :
  ks <> [] -> dict_comp (fun _ => None) ks acc = None.
Proof. destruct ks; [congruence|reflexivity]. Qed.

Lemma lookup_fold_insert {V : Type} (v : V) ks (acc : gmap string V) k :
  fold_left (fun m k => <[k := v]> m) ks acc !! k
  = if decide (k ∈ ks) then Some v else acc !! k.
Proof.
  revert acc. induction ks as [|k' ks IH]; intros acc.
  - cbn. destruct (decide (k ∈ [])) as [H|H]; [|reflexivity].
    now apply elem_of_nil in H.
  - cbn. rewrite IH.
    destruct (decide (k ∈ ks)) as [H|H].
    + rewrite decide_True by (now right). reflexivity.
    + destruct (decide (k = k')) as [->|Hne].
      * rewrite decide_True by (now left). apply lookup_insert_eq.
      * rewrite decide_False.
        -- now apply lookup_insert_ne.
        -- intros [->|H']%elem_of_cons; [congruence|contradiction].
Qed.

Lemma init_succeeds cfg :
  is_Some (init cfg) <->
  device_ids cfg = [] \/
  (0 <= analysis_window cfg <= Deque.ssize_max /\
   0 <= alert_window cfg <= Deque.ssize_max)%Z.
Proof.
  unfold init, Deque.new.
  destruct (device_ids cfg) as [|k ks] eqn:E.
  - cbn. split; [now left|eauto].
  - rewrite <- E. assert (Hne : device_ids cfg <> []) by (rewrite E; discriminate).
    destruct (Z.ltb_spec (analysis_window cfg) 0) as [HN|HN].
    { rewrite dict_comp_none by exact Hne. cbn. split.
      - intros [? [=]].
      - intros [?|[? ?]]; [congruence|lia]. }
    destruct (Z.ltb_spec Deque.ssize_max (analysis_window cfg)) as [HN'|HN'].
    { rewrite dict_comp_none by exact Hne. cbn. split.
      - intros [? [=]].
      - intros [?|[? ?]]; [congruence|lia]. }
    rewrite !dict_comp_some. cbn.
    destruct (Z.ltb_spec (alert_window cfg) 0) as [HS|HS].
    { rewrite dict_comp_none by exact Hne. cbn. split.
      - intros [? [=]].
      - intros [?|[? ?]]; [congruence|lia]. }
    destruct (Z.ltb_spec Deque.ssize_max (alert_window cfg)) as [HS'|HS'].
    { rewrite dict_comp_none by exact Hne. cbn. split.
      - intros [? [=]].
      - intros [?|[? ?]]; [congruence|lia]. }
    rewrite !dict_comp_some. cbn. split; [right; lia|eauto].
Qed.

Lemma init_wf cfg s : init cfg = Some s -> wf cfg s.
Proof.
  intros Hi. unfold init, Deque.new in Hi.
  destruct (device_ids cfg) as [|k0 ks0] eqn:E.
  { split; intros d Hd; rewrite E in Hd; now apply elem_of_nil in Hd. }
  rewrite <- E in *.
  assert (Hne : device_ids cfg <> []) by (rewrite E; discriminate).
  destruct (Z.ltb_spec (analysis_window cfg) 0) as [HN|HN].
  { rewrite dict_comp_none in Hi by exact Hne. discriminate. }
  destruct (Z.ltb_spec Deque.ssize_max (analysis_window cfg)) as [HN'|HN'].
  { rewrite dict_comp_none in Hi by exact Hne. discriminate. }
  destruct (Z.ltb_spec (alert_window cfg) 0) as [HS|HS].
  { rewrite !dict_comp_some, dict_comp_none in Hi by exact Hne. discriminate. }
  destruct (Z.ltb_spec Deque.ssize_max (alert_window cfg)) as [HS'|HS'].
  { rewrite !dict_comp_some, dict_comp_none in Hi by exact Hne. discriminate. }
  rewrite !dict_comp_some in Hi. cbn in Hi. injection Hi as <-.
  split; intros d Hd; cbn; rewrite lookup_fold_insert, decide_True by exact Hd.
  - eexists. split; [reflexivity|]. split; [|reflexivity].
    unfold Deque.bounded, Deque.len. cbn. lia.
  - eauto.
  - eexists. split; [reflexivity|]. split.
    + unfold Deque.bounded, Deque.len. cbn. lia.
    + cbn. lia.
Qed.

(** *** The processing loop *)

Lemma process_logs_iter_empty s :
  log_queue s = [] -> process_logs_iter s = (inl tt, s).
Proof.
  intros Hq. unfold process_logs_iter, try_except, mbind, M_bind, get_nowait.
  rewrite Hq. reflexivity.
Qed.

Lemma process_logs_iter_cons log rest s :
  log_queue s = log :: rest ->
  process_logs_iter s = (inl tt, process_one log (set_log_queue rest s)).
Proof.
  intros Hq.
  unfold process_logs_iter, try_except, mbind, M_bind, get_nowait, process_one,
    get_logs_cache, modify.
  rewrite Hq. cbn [logs_cache set_log_queue].
  destruct (logs_cache s !! Log.device_id log); reflexivity.
Qed.

Lemma process_logs_iter_total s : exists s', process_logs_iter s = (inl tt, s').
Proof.
  destruct (log_queue s) as [|log rest] eqn:Hq.
  - rewrite process_logs_iter_empty by exact Hq. eauto.
  - erewrite process_logs_iter_cons by exact Hq. eauto.
Qed.

Lemma wf_set_log_queue cfg q s : wf cfg s -> wf cfg (set_log_queue q s).
Proof. intros [H1 H2 H3]. split; assumption. Qed.

Lemma wf_process_one cfg log s : wf cfg s -> wf cfg (process_one log s).
Proof.
  intros Hwf. unfold process_one.
  destruct (logs_cache s !! Log.device_id log) as [c|] eqn:Hc; [|exact Hwf].
  destruct Hwf as [H1 H2 H3]. split; [|exact H2|exact H3].
  intros d Hd. cbn [logs_cache set_logs_cache].
  destruct (decide (Log.device_id log = d)) as [<-|Hne].
  - rewrite lookup_insert_eq. destruct (H1 _ Hd) as (c' & Hc' & Hb & Hm).
    rewrite Hc in Hc'. injection Hc' as <-.
    eexists. split; [reflexivity|]. split; [now apply bounded_append|exact Hm].
  - rewrite lookup_insert_ne by exact Hne. apply H1, Hd.
Qed.

Lemma wf_process_logs_iter cfg s s' :
  wf cfg s -> process_logs_iter s = (inl tt, s') -> wf cfg s'.
Proof.
  intros Hwf. destruct (log_queue s) as [|log rest] eqn:Hq.
  - rewrite process_logs_iter_empty by exact Hq. now intros [= <-].
  - erewrite process_logs_iter_cons by exact Hq. intros [= <-].
    now apply wf_process_one, wf_set_log_queue.
Qed.

(** *** The analysis loop *)

Lemma wf_after_cycle cfg clock d logs st w s :
  wf cfg s -> alert_windows s !! d = Some w ->
  Deque.bounded w -> Z.of_nat (Deque.maxlen w) = alert_window cfg ->
  wf cfg (after_cycle cfg clock d logs st w s).
Proof.
  intros [H1 H2 H3] Hw Hb Hm. split; intros d' Hd'; cbn [logs_cache device_status alert_windows after_cycle].
  - apply H1, Hd'.
  - destruct (decide (d = d')) as [<-|Hne].
    + rewrite lookup_insert_eq. eauto.
    + rewrite lookup_insert_ne by exact Hne. apply H2, Hd'.
  - destruct (decide (d = d')) as [<-|Hne].
    + rewrite lookup_insert_eq. eexists. split; [reflexivity|].
      unfold window_out, window_in. destruct (fires cfg logs w).
      * split; [apply bounded_clear|exact Hm].
      * split; [now apply bounded_append|exact Hm].
    + rewrite lookup_insert_ne by exact Hne. apply H3, Hd'.
Qed.

(** On a well-formed state the body of the analysis loop either skips the
    device or completes the cycle; it never raises. *)
Lemma analyze_device_cases cfg clock d s :
  wf cfg s -> d ∈ device_ids cfg -> (alert_window cfg <> 0)%Z ->
  exists c st w,
    logs_cache s !! d = Some c /\ device_status s !! d = Some st /\
    alert_windows s !! d = Some w /\ Deque.bounded w /\
    Z.of_nat (Deque.maxlen w) = alert_window cfg /\
    ((Deque.items c = [] /\ analyze_device cfg clock d s = (inl tt, s)) \/
     (Deque.items c <> [] /\
      analyze_device cfg clock d s
      = (inl tt, after_cycle cfg clock d (Deque.items c) st w s))).
Proof.
  intros Hwf Hd HS.
  destruct (wf_cache _ _ Hwf d Hd) as (c & Hc & _ & _).
  destruct (wf_status _ _ Hwf d Hd) as (st & Hst).
  destruct (wf_window _ _ Hwf d Hd) as (w & Hw & Hb & Hm).
  exists c, st, w. repeat (split; [assumption|]).
  destruct (Deque.items c) as [|l0 ls] eqn:El.
  - left. split; [reflexivity|]. now apply (analyze_device_empty _ _ _ c).
  - right. split; [discriminate|]. rewrite <- El.
    apply analyze_device_spec; try assumption. rewrite El. discriminate.
Qed.

Lemma wf_analyze_device cfg clock d s :
  wf cfg s -> d ∈ device_ids cfg -> (alert_window cfg <> 0)%Z ->
  exists s', analyze_device cfg clock d s = (inl tt, s') /\ wf cfg s'.
Proof.
  intros Hwf Hd HS.
  destruct (analyze_device_cases cfg clock d s Hwf Hd HS)
    as (c & st & w & Hc & Hst & Hw & Hb & Hm & [[_ ->]|[_ ->]]).
  - eauto.
  - eexists. split; [reflexivity|]. now apply wf_after_cycle.
Qed.

(** an invariant of the loop body is an invariant of the loop *)
Lemma for_each_inv (I : State -> Prop) (body : string -> M ()) ks s :
  I s ->
  (forall k s, k ∈ ks -> I s -> exists s', body k s = (inl tt, s') /\ I s') ->
  exists s', for_each ks body s = (inl tt, s') /\ I s'.
Proof.
  revert s. induction ks as [|k ks IH]; intros s Hs Hbody.
  - exists s. split; [reflexivity|exact Hs].
  - destruct (Hbody k s) as (s1 & E1 & Hs1); [now left|exact Hs|].
    destruct (IH s1 Hs1) as (s2 & E2 & Hs2).
    { intros k' s' Hk'. apply Hbody. now right. }
    exists s2. split; [|exact Hs2].
    cbn [for_each]. erewrite bind_ok by exact E1. exact E2.
Qed.

Lemma wf_analyze_logs cfg clock s :
  wf cfg s -> (alert_window cfg <> 0)%Z ->
  exists s', analyze_logs cfg clock s = (inl tt, s') /\ wf cfg s'.
Proof.
  intros Hwf HS. unfold analyze_logs.
  apply (for_each_inv (wf cfg)); [exact Hwf|].
  intros k s0 Hk Hs0. now apply wf_analyze_device.
Qed.

(** *** Runs *)

Lemma run_inv (I : State -> Prop) (P : event -> Prop) cfg clock evs s :
  I s -> Forall P evs ->
  (forall ev s, P ev -> I s -> exists s', step cfg clock ev s = (inl tt, s') /\ I s') ->
  exists s', run cfg clock evs s = (inl tt, s') /\ I s'.
Proof.
  intros Hs Hevs Hstep. revert s Hs.
  induction Hevs as [|ev evs Hev _ IH]; intros s Hs.
  - exists s. split; [reflexivity|exact Hs].
  - destruct (Hstep ev s Hev Hs) as (s1 & E1 & Hs1).
    destruct (IH s1 Hs1) as (s2 & E2 & Hs2).
    exists s2. split; [|exact Hs2].
    cbn [run]. erewrite bind_ok by exact E1. exact E2.
Qed.

Lemma wf_step cfg clock ev s :
  wf cfg s -> (alert_window cfg <> 0)%Z ->
  exists s', step cfg clock ev s = (inl tt, s') /\ wf cfg s'.
Proof.
  intros Hwf HS. destruct ev as [log| |]; cbn [step].
  - eexists. split; [reflexivity|]. now apply wf_set_log_queue.
  - destruct (process_logs_iter_total s) as (s' & E). exists s'.
    split; [exact E|]. now apply (wf_process_logs_iter cfg s).
  - now apply wf_analyze_logs.
Qed.

Lemma wf_run cfg clock evs s :
  wf cfg s -> (alert_window cfg <> 0)%Z ->
  exists s', run cfg clock evs s = (inl tt, s') /\ wf cfg s'.
Proof.
  intros Hwf HS.
  apply (run_inv (wf cfg) (fun _ => True)); [exact Hwf| |].
  - apply Forall_forall. trivial.
  - intros ev s0 _ Hs0. now apply wf_step.
Qed.

(** *** The alert rule *)

(** The test of the source is the test of the specification: the window is
    full and its mean is above the threshold. *)
Lemma fires_iff cfg logs w :
  fires cfg logs w = true <->
  Z.of_nat (Deque.len (window_in logs w)) = alert_window cfg /\
  Float.ltb (Float.of_Q (alert_threshold cfg))
            (mean (Deque.items (window_in logs w))) = true.
Proof.
  unfold fires, mean. rewrite andb_true_iff, Z.eqb_eq.
  split; intros [H1 H2]; (split; [exact H1|]); unfold Deque.len in H1.
  - now rewrite H1.
  - now rewrite H1 in H2.
Qed.

Lemma alerts_for_app d q1 q2 :
  alerts_for d (q1 ++ q2) = alerts_for d q1 ++ alerts_for d q2.
Proof. unfold alerts_for. apply List.filter_app. Qed.

Lemma alerts_for_new_other cfg clock d d' logs w s :
  d' <> d -> alerts_for d (new_alerts cfg clock d' logs w s) = [].
Proof.
  intros Hne. unfold new_alerts. destruct (fires cfg logs w); [|reflexivity].
  cbn. destruct (String.eqb_spec d' d); [contradiction|reflexivity].
Qed.

Lemma len_window_in logs (w : Deque.t Float.t) :
  Deque.len (window_in logs w) <= Deque.len w + 1.
Proof.
  unfold window_in, Deque.append, Deque.len. cbn [Deque.items].
  destruct (_ <? _); [|rewrite length_app; cbn; lia].
  destruct (Deque.items w) as [|x l]; cbn; [lia|].
  rewrite length_app. cbn. lia.
Qed.

Lemma len_window_out cfg logs (w : Deque.t Float.t) :
  Deque.len (window_out cfg logs w) <= Deque.len w + 1.
Proof.
  unfold window_out. destruct (fires cfg logs w).
  - unfold Deque.clear, Deque.len. cbn. lia.
  - apply len_window_in.
Qed.

Lemma fires_needs_full cfg logs (w : Deque.t Float.t) :
  (Z.of_nat (Deque.len w) + 1 < alert_window cfg)%Z -> fires cfg logs w = false.
Proof.
  intros Hlt. unfold fires. apply andb_false_iff. left. apply Z.eqb_neq.
  pose proof (len_window_in logs w). lia.
Qed.

(** A cycle of another device leaves the window and the alerts of [d] as
    they are. *)
Lemma after_cycle_other cfg clock d d' logs st w s :
  d' <> d ->
  window_len d (after_cycle cfg clock d' logs st w s) = window_len d s /\
  alerts_for d (alert_queue (after_cycle cfg clock d' logs st w s))
  = alerts_for d (alert_queue s).
Proof.
  intros Hne. unfold window_len. cbn [after_cycle alert_windows alert_queue].
  rewrite lookup_insert_ne by exact Hne. split; [reflexivity|].
  rewrite alerts_for_app, alerts_for_new_other by exact Hne. apply app_nil_r.
Qed.

(** A cycle of [d] adds at most one sample, and raises no alert while the
    window cannot become full. *)
Lemma after_cycle_same cfg clock d logs st w s :
  alert_windows s !! d = Some w ->
  window_len d (after_cycle cfg clock d logs st w s) <= window_len d s + 1 /\
  ((Z.of_nat (window_len d s) + 1 < alert_window cfg)%Z ->
   alert_queue (after_cycle cfg clock d logs st w s) = alert_queue s).
Proof.
  intros Hw. unfold window_len. cbn [after_cycle alert_windows alert_queue].
  rewrite lookup_insert_eq, Hw. split; [apply len_window_out|].
  intros Hlt. unfold new_alerts. rewrite fires_needs_full by exact Hlt.
  apply app_nil_r.
Qed.

Lemma analyze_loop_other cfg clock d ks s :
  wf cfg s -> (alert_window cfg <> 0)%Z ->
  (forall k, k ∈ ks -> k ∈ device_ids cfg) -> d ∉ ks ->
  exists s', for_each ks (analyze_device cfg clock) s = (inl tt, s') /\
    wf cfg s' /\ window_len d s' = window_len d s /\
    alerts_for d (alert_queue s') = alerts_for d (alert_queue s).
Proof.
  intros Hwf HS Hks Hd.
  apply (for_each_inv (fun s' => wf cfg s' /\ window_len d s' = window_len d s /\
    alerts_for d (alert_queue s') = alerts_for d (alert_queue s))); [auto|].
  intros k s0 Hk (Hwf0 & Hl0 & Ha0).
  assert (k <> d) as Hne by (intros ->; contradiction).
  destruct (analyze_device_cases cfg clock k s0 Hwf0 (Hks k Hk) HS)
    as (c & st & w & Hc & Hst & Hw & Hb & Hm & [[_ ->]|[_ ->]]).
  - eauto.
  - eexists. split; [reflexivity|]. split; [now apply wf_after_cycle|].
    destruct (after_cycle_other cfg clock d k (Deque.items c) st w s0 Hne)
      as [-> ->]. auto.
Qed.

Lemma analyze_loop_quiet cfg clock d ks s :
  wf cfg s -> (alert_window cfg <> 0)%Z ->
  (forall k, k ∈ ks -> k ∈ device_ids cfg) -> NoDup ks ->
  (Z.of_nat (window_len d s) + 1 < alert_window cfg)%Z ->
  exists s', for_each ks (analyze_device cfg clock) s = (inl tt, s') /\
    wf cfg s' /\ window_len d s' <= window_len d s + 1 /\
    alerts_for d (alert_queue s') = alerts_for d (alert_queue s).
Proof.
  intros Hwf HS Hks Hnd Hlt. revert s Hwf Hlt.
  induction Hnd as [|k ks Hk Hnd IH]; intros s Hwf Hlt.
  - exists s. split; [reflexivity|]. split; [exact Hwf|]. split; [lia|reflexivity].
  - assert (Hks' : forall k', k' ∈ ks -> k' ∈ device_ids cfg)
      by (intros k' Hk'; apply Hks; now right).
    destruct (analyze_device_cases cfg clock k s Hwf (Hks k ltac:(now left)) HS)
      as (c & st & w & Hc & Hst & Hw & Hb & Hm & [[_ E]|[_ E]]).
    + destruct (IH Hks' s Hwf Hlt) as (s' & E' & Hrest).
      exists s'. split; [|exact Hrest].
      cbn [for_each]. erewrite bind_ok by exact E. exact E'.
    + set (s1 := after_cycle cfg clock k (Deque.items c) st w s) in *.
      assert (Hwf1 : wf cfg s1) by (now apply wf_after_cycle).
      destruct (decide (k = d)) as [->|Hne].
      * destruct (after_cycle_same cfg clock d (Deque.items c) st w s Hw)
          as [Hlen Hq]. specialize (Hq Hlt). fold s1 in Hlen, Hq.
        destruct (analyze_loop_other cfg clock d ks s1 Hwf1 HS Hks' Hk)
          as (s' & E' & Hwf' & Hl' & Ha').
        exists s'. split; [cbn [for_each]; erewrite bind_ok by exact E; exact E'|].
        split; [exact Hwf'|]. split; [lia|]. now rewrite Ha', Hq.
      * destruct (after_cycle_other cfg clock d k (Deque.items c) st w s Hne)
          as [Hlen Hq]. fold s1 in Hlen, Hq.
        destruct (IH Hks' s1 Hwf1) as (s' & E' & Hwf' & Hl' & Ha'); [lia|].
        exists s'. split; [cbn [for_each]; erewrite bind_ok by exact E; exact E'|].
        split; [exact Hwf'|]. split; [lia|]. now rewrite Ha', Hq.
Qed.

(** While fewer cycles have run than the window still needs samples, no
    alert of [d] is added. *)
Lemma run_quiet cfg clock d evs s :
  wf cfg s -> (alert_window cfg <> 0)%Z -> NoDup (device_ids cfg) ->
  (Z.of_nat (window_len d s + cycles evs) < alert_window cfg)%Z ->
  exists s', run cfg clock evs s = (inl tt, s') /\
    alerts_for d (alert_queue s') = alerts_for d (alert_queue s).
Proof.
  intros Hwf HS Hnd. revert s Hwf.
  induction evs as [|ev evs IH]; intros s Hwf Hlt.
  - exists s. split; reflexivity.
  - destruct ev as [log| |]; cbn [cycles] in Hlt.
    + destruct (IH (set_log_queue (log_queue s ++ [log]) s)) as (s' & E' & Ha').
      { now apply wf_set_log_queue. }
      { exact Hlt. }
      exists s'. split; [|exact Ha'].
      cbn [run step]. erewrite bind_ok by reflexivity. exact E'.
    + destruct (process_logs_iter_total s) as (s1 & E1).
      assert (Hwf1 : wf cfg s1) by (now apply (wf_process_logs_iter cfg s)).
      assert (Hsame : alert_windows s1 = alert_windows s /\ alert_queue s1 = alert_queue s).
      { destruct (log_queue s) as [|log rest] eqn:Hq.
        - rewrite process_logs_iter_empty in E1 by exact Hq.
          injection E1 as <-. auto.
        - erewrite process_logs_iter_cons in E1 by exact Hq.
          injection E1 as <-. unfold process_one. cbn.
          destruct (logs_cache s !! Log.device_id log); auto. }
      destruct Hsame as [Hw1 Hq1].
      destruct (IH s1 Hwf1) as (s' & E' & Ha').
      { unfold window_len in *. now rewrite Hw1. }
      exists s'. split; [|now rewrite Ha', Hq1].
      cbn [run step]. erewrite bind_ok by exact E1. exact E'.
    + destruct (analyze_loop_quiet cfg clock d (device_ids cfg) s Hwf HS)
        as (s1 & E1 & Hwf1 & Hl1 & Ha1); [auto|exact Hnd|lia|].
      destruct (IH s1 Hwf1) as (s' & E' & Ha'); [lia|].
      exists s'. split; [|now rewrite Ha', Ha1].
      cbn [run step]. unfold analyze_logs. erewrite bind_ok by exact E1. exact E'.
Qed.

Lemma wfb_wf cfg s : wfb cfg s = true -> wf cfg s.
Proof.
  unfold wfb. rewrite forallb_forall. intros H.
  assert (H' : forall d, d ∈ device_ids cfg ->
    exists c st w, logs_cache s !! d = Some c /\ device_status s !! d = Some st /\
      alert_windows s !! d = Some w /\ Deque.bounded c /\
      Deque.maxlen c = Z.to_nat (analysis_window cfg) /\ Deque.bounded w /\
      Z.of_nat (Deque.maxlen w) = alert_window cfg).
  { intros d Hd. apply list_elem_of_In in Hd. specialize (H d Hd).
    destruct (logs_cache s !! d) as [c|]; [|discriminate].
    destruct (device_status s !! d) as [st|]; [|discriminate].
    destruct (alert_windows s !! d) as [w|]; [|discriminate].
    rewrite !andb_true_iff in H. destruct H as [[[H1 H2] H3] H4].
    apply Nat.leb_le in H1, H3. apply Nat.eqb_eq in H2. apply Z.eqb_eq in H4.
    exists c, st, w. unfold Deque.bounded. auto 10. }
  split; intros d Hd; destruct (H' d Hd) as (c & st & w & ? & ? & ? & ? & ? & ? & ?);
    eauto.
Qed.

(** ** The claims about log_system.py *)

(** C1 (as amended).  In the analysis cycle of a device with data, an alert
    is put on the alert queue if and only if the alert window, once this
    cycle's error ratio is appended, holds exactly [alert_window] samples and
    their mean as the source computes it, the doubles added one by one and
    the sum divided by [alert_window], is strictly above [alert_threshold].
    When that is so exactly one alert is
    emitted, it is added to the alerts of the device and the window is left
    empty, and then no run with fewer than [alert_window] analysis cycles adds
    an alert of this device; otherwise nothing is emitted, the alerts of the
    device are unchanged and the window keeps the appended sample. *)
Theorem alert_iff_full_window_above_threshold cfg clock d c st w s :
  wf cfg s -> NoDup (device_ids cfg) -> (0 < alert_window cfg)%Z ->
  d ∈ device_ids cfg ->
  logs_cache s !! d = Some c -> device_status s !! d = Some st ->
  alert_windows s !! d = Some w -> Deque.items c <> [] ->
  let w1 := Deque.append (ratio ERROR (Deque.items c)) w in
  let breach := Z.of_nat (Deque.len w1) = alert_window cfg /\
                Float.ltb (Float.of_Q (alert_threshold cfg))
                          (mean (Deque.items w1)) = true in
  exists s', analyze_device cfg clock d s = (inl tt, s') /\
    ((exists a, alert_queue s' = alert_queue s ++ [a]) <-> breach) /\
    (breach ->
       exists a st' w',
         alert_queue s' = alert_queue s ++ [a] /\
         Alert.device_id a = d /\ Alert.severity a = "CRITICAL"%string /\
         device_status s' !! d = Some st' /\ alerts st' = alerts st ++ [a] /\
         alert_windows s' !! d = Some w' /\ Deque.items w' = [] /\
         forall evs, (Z.of_nat (cycles evs) < alert_window cfg)%Z ->
           exists s'', run cfg clock evs s' = (inl tt, s'') /\
             alerts_for d (alert_queue s'') = alerts_for d (alert_queue s')) /\
    (~ breach ->
       exists st',
         alert_queue s' = alert_queue s /\
         device_status s' !! d = Some st' /\ alerts st' = alerts st /\
         alert_windows s' !! d = Some w1).
Proof.
  intros Hwf Hnd HS Hd Hc Hst Hw Hne w1 breach.
  assert (HS0 : (alert_window cfg <> 0)%Z) by lia.
  destruct (wf_window _ _ Hwf d Hd) as (w0 & Hw0 & Hb & Hm).
  rewrite Hw in Hw0. injection Hw0 as <-.
  exists (after_cycle cfg clock d (Deque.items c) st w s).
  split; [now apply analyze_device_spec|].
  assert (Hwf' : wf cfg (after_cycle cfg clock d (Deque.items c) st w s))
    by (now apply wf_after_cycle).
  pose proof (fires_iff cfg (Deque.items c) w) as Hf.
  fold w1 in Hf. fold breach in Hf.
  cbn [after_cycle alert_queue device_status alert_windows].
  rewrite !lookup_insert_eq.
  unfold status_out, window_out, new_alerts. fold w1.
  destruct (fires cfg (Deque.items c) w) eqn:Ef.
  - assert (Hbr : breach) by (now apply Hf).
    split; [split; [intros _; exact Hbr|eauto]|].
    split; [|intros Hn; contradiction].
    intros _. eexists _, _, _.
    repeat (split; [reflexivity|]).
    intros evs Hevs.
    destruct (run_quiet cfg clock d evs _ Hwf' HS0 Hnd) as (s'' & E & Ha).
    { unfold window_len. cbn [after_cycle alert_windows].
      rewrite lookup_insert_eq. unfold window_out. rewrite Ef.
      unfold Deque.len, Deque.clear. cbn [Deque.items length]. lia. }
    exists s''. split; [exact E|]. rewrite Ha.
    cbn [after_cycle alert_queue]. unfold new_alerts. now rewrite Ef.
  - assert (Hbr : ~ breach) by (intros Hbr; apply Hf in Hbr; discriminate).
    split.
    { split; [|intros Hbr'; contradiction].
      intros [a Ha]. rewrite app_nil_r in Ha.
      apply (f_equal (@length _)) in Ha. rewrite length_app in Ha. cbn in Ha. lia. }
    split; [intros Hbr'; contradiction|].
    intros _. eexists. rewrite !app_nil_r. repeat (split; [reflexivity|]).
    reflexivity.
Qed.

Lemma alert_iff_full_window_above_threshold_witness :
  exists s', analyze_device CONFIG Sample.clock "device1" Sample.hot = (inl tt, s') /\
             exists a, alert_queue s' = [a].
Proof.
  destruct (alert_iff_full_window_above_threshold CONFIG Sample.clock "device1"
              (Deque.mk 20 [Sample.log "device1" ERROR])
              {| last_error := None; alerts := [] |}
              (Deque.mk 10 (repeat Float.one 9)) Sample.hot)
    as (s' & E & Hiff & Hyes & _).
  - apply wfb_wf. vm_compute. reflexivity.
  - apply (bool_decide_unpack _). vm_compute. exact I.
  - vm_compute. reflexivity.
  - apply (bool_decide_unpack _). vm_compute. exact I.
  - vm_compute. reflexivity.
  - vm_compute. reflexivity.
  - vm_compute. reflexivity.
  - discriminate.
  - exists s'. split; [exact E|].
    apply Hiff. split; vm_compute; reflexivity.
Defined.

(** C1 as stated fails: the mean that decides is the computed one.  After
    the run [Sample.warm_up] of a fresh analyzer the history of device1 holds
    ERROR logs only and its alert window holds nine samples, each the double
    nearest to 4/9.  The next cycle appends the sample 1.0 and raises an
    alert: the doubles add up to 5.000000000000001.  Yet the mean of the ten
    samples is below the threshold 1/2, and the mean of the ten shares they
    stand for, nine times 4/9 and once 1, is the threshold itself. *)
Lemma alert_without_mean_above_threshold :
  init CONFIG = Some Sample.fresh /\
  exists s1 c w s2 a,
    run CONFIG Sample.clock Sample.warm_up Sample.fresh = (inl tt, s1) /\
    alert_queue s1 = [] /\
    logs_cache s1 !! "device1"%string = Some c /\
    ratio ERROR (Deque.items c) = Float.one /\
    alert_windows s1 !! "device1"%string = Some w /\
    Deque.items w = repeat (Float.quot 4 9) 9 /\
    analyze_logs CONFIG Sample.clock s1 = (inl tt, s2) /\
    alert_queue s2 = [a] /\ Alert.device_id a = "device1"%string /\
    let samples := Deque.items w ++ [Float.one] in
    Float.sum samples = S754_finite false 5629499534213121 (-50) /\
    (fold_right Qplus 0 (map Float.to_Q samples) / 10 < alert_threshold CONFIG)%Q /\
    ((9 * (4 # 9) + 1) / 10 == alert_threshold CONFIG)%Q.
Proof.
  split; [vm_compute; reflexivity|].
  eexists _, _, _, _, _. split; [vm_compute; reflexivity|].
  split; [reflexivity|]. split; [vm_compute; reflexivity|].
  split; [vm_compute; reflexivity|]. split; [vm_compute; reflexivity|].
  split; [reflexivity|]. split; [vm_compute; reflexivity|].
  split; [reflexivity|]. split; [reflexivity|].
  split; [vm_compute; reflexivity|]. split; vm_compute; reflexivity.
Qed.

(** *** Ratios *)

Lemma count_levels (logs : list Log.t) :
  count (has_level ERROR) logs + count (has_level WARN) logs
  + count (has_level INFO) logs = length logs.
Proof.
  induction logs as [|x l IH]; [reflexivity|].
  cbn [count length]. unfold has_level at 1 3 5.
  destruct (Log.log_level x); cbn; lia.
Qed.

Lemma count_all {A : Type} (p : A -> bool) (l : list A) :
  Forall (fun x => p x = true) l -> count p l = length l.
Proof. induction 1 as [|x l Hx _ IH]; cbn; [reflexivity|]. rewrite Hx, IH. lia. Qed.

Lemma count_none {A : Type} (p : A -> bool) (l : list A) :
  Forall (fun x => p x = false) l -> count p l = 0.
Proof. induction 1 as [|x l Hx _ IH]; cbn; [reflexivity|]. now rewrite Hx, IH. Qed.

Lemma ratio_below_one lv (logs : list Log.t) :
  logs <> [] -> Float.below_one (ratio lv logs).
Proof.
  intros Hne. unfold ratio. apply quot_nat_below_one.
  - apply count_le_length.
  - destruct logs; [congruence|discriminate].
Qed.

Lemma ratio_all_error (logs : list Log.t) :
  logs <> [] -> Forall (fun l => Log.log_level l = ERROR) logs ->
  ratio ERROR logs = Float.one.
Proof.
  intros Hne Hall. unfold ratio. rewrite count_all.
  - apply quot_same. destruct logs; [congruence|cbn; lia].
  - eapply Forall_impl; [exact Hall|]. intros l Hl. unfold has_level.
    now rewrite Hl.
Qed.

Lemma ratio_no_error (logs : list Log.t) :
  logs <> [] -> Forall (fun l => Log.log_level l <> ERROR) logs ->
  ratio ERROR logs = Float.zero.
Proof.
  intros Hne Hall. unfold ratio. rewrite count_none.
  - apply quot_zero. destruct logs; [congruence|cbn; lia].
  - eapply Forall_impl; [exact Hall|]. intros l Hl. unfold has_level.
    cbv beta in Hl. destruct (Log.log_level l); [reflexivity|reflexivity|congruence].
Qed.

(** C8 (as amended).  For a non-empty history snapshot the cycle completes,
    its divisions neither dividing by zero nor overflowing, and the published
    [error_ratio] and [warn_ratio] are the doubles nearest to the shares of
    the ERROR and of the WARN entries.  Each lies between 0.0 and 1.0.  The
    counts of the three levels add up to the number of entries, so that the
    shares themselves add up to 1; nothing of the kind is said of the doubles.
    When every entry is an ERROR the error ratio is 1.0, and when none is it
    is 0.0. *)
Theorem published_ratios cfg clock d c st w s :
  logs_cache s !! d = Some c -> device_status s !! d = Some st ->
  alert_windows s !! d = Some w ->
  Deque.items c <> [] -> (alert_window cfg <> 0)%Z ->
  let logs := Deque.items c in
  exists s' r,
    analyze_device cfg clock d s = (inl tt, s') /\
    analysis_queue s' = analysis_queue s ++ [r] /\
    Result.error_ratio r
    = Float.quot (Z.of_nat (count (has_level ERROR) logs)) (Z.of_nat (length logs)) /\
    Result.warn_ratio r
    = Float.quot (Z.of_nat (count (has_level WARN) logs)) (Z.of_nat (length logs)) /\
    Float.in_unit (Result.error_ratio r) /\
    Float.in_unit (Result.warn_ratio r) /\
    count (has_level ERROR) logs + count (has_level WARN) logs
    + count (has_level INFO) logs = length logs /\
    (Forall (fun l => Log.log_level l = ERROR) logs ->
     Result.error_ratio r = Float.one) /\
    (Forall (fun l => Log.log_level l <> ERROR) logs ->
     Result.error_ratio r = Float.zero).
Proof.
  intros Hc Hst Hw Hne HS logs.
  eexists _, _. split; [eapply analyze_device_spec; eassumption|].
  cbn [after_cycle analysis_queue]. split; [reflexivity|].
  cbn [result_out Result.error_ratio Result.warn_ratio]. fold logs.
  split; [reflexivity|]. split; [reflexivity|].
  split; [now apply below_one_in_unit, ratio_below_one|].
  split; [now apply below_one_in_unit, ratio_below_one|].
  split; [apply count_levels|].
  split; [now apply ratio_all_error|now apply ratio_no_error].
Qed.

Lemma published_ratios_witness :
  exists s' r,
    analyze_device CONFIG Sample.clock "device1" Sample.hot = (inl tt, s') /\
    analysis_queue s' = [r] /\ Result.error_ratio r = Float.one.
Proof.
  destruct (published_ratios CONFIG Sample.clock "device1"
              (Deque.mk 20 [Sample.log "device1" ERROR])
              {| last_error := None; alerts := [] |}
              (Deque.mk 10 (repeat Float.one 9)) Sample.hot)
    as (s' & r & E & Hq & _ & _ & _ & _ & _ & Hall & _).
  - vm_compute. reflexivity.
  - vm_compute. reflexivity.
  - vm_compute. reflexivity.
  - discriminate.
  - discriminate.
  - exists s', r. split; [exact E|]. split; [exact Hq|].
    apply Hall. repeat constructor.
Defined.

(** C8 as stated fails: a fresh analyzer that has taken one ERROR, four WARN
    and one INFO log of device1 publishes the doubles nearest to 1/6 and to
    4/6, and these, added to the double nearest to the INFO share 1/6, give
    0.9999999999999999, which is below 1.0. *)
Lemma ratios_sum_below_one :
  init CONFIG = Some Sample.fresh /\
  exists s r,
    run CONFIG Sample.clock
      (map Put Sample.mixed ++ repeat Process 6 ++ [Analyze]) Sample.fresh
    = (inl tt, s) /\
    analysis_queue s = [r] /\
    let info_ratio :=
      Float.quot (Z.of_nat (count (has_level INFO) Sample.mixed))
                 (Z.of_nat (length Sample.mixed)) in
    let total := Float.add (Float.add (Result.error_ratio r) (Result.warn_ratio r))
                           info_ratio in
    total = S754_finite false 9007199254740991 (-53) /\
    Float.ltb total Float.one = true.
Proof.
  split; [vm_compute; reflexivity|].
  eexists _, _. split; [vm_compute; reflexivity|].
  split; [reflexivity|]. vm_compute. split; reflexivity.
Qed.

(** *** The alert count of the published result *)

(** C7 (as amended).  In the cycle of a device with data the error ratio is
    pushed into the alert window and the alert rule is evaluated before the
    result is published: the published [alert_count] is the number of alerts
    of the device once this cycle's alert, if any, has been added. *)
Theorem alert_count_includes_this_cycle cfg clock d c st w s :
  logs_cache s !! d = Some c -> device_status s !! d = Some st ->
  alert_windows s !! d = Some w ->
  Deque.items c <> [] -> (alert_window cfg <> 0)%Z ->
  exists s' r st' emitted,
    analyze_device cfg clock d s = (inl tt, s') /\
    analysis_queue s' = analysis_queue s ++ [r] /\
    alert_queue s' = alert_queue s ++ emitted /\
    device_status s' !! d = Some st' /\
    alerts st' = alerts st ++ emitted /\
    Result.alert_count r = length (alerts st) + length emitted /\
    Result.alert_count r = length (alerts st').
Proof.
  intros Hc Hst Hw Hne HS.
  eexists _, _, _, _. split; [eapply analyze_device_spec; eassumption|].
  cbn [after_cycle analysis_queue alert_queue device_status].
  rewrite lookup_insert_eq.
  repeat (split; [reflexivity|]).
  cbn [result_out Result.alert_count status_out alerts].
  rewrite length_app. split; reflexivity.
Qed.

Lemma alert_count_includes_this_cycle_witness :
  exists s' r,
    analyze_device CONFIG Sample.clock "device1" Sample.hot = (inl tt, s') /\
    analysis_queue s' = [r] /\
    Result.alert_count r = length (alert_queue s').
Proof.
  destruct (alert_count_includes_this_cycle CONFIG Sample.clock "device1"
              (Deque.mk 20 [Sample.log "device1" ERROR])
              {| last_error := None; alerts := [] |}
              (Deque.mk 10 (repeat Float.one 9)) Sample.hot)
    as (s' & r & st' & emitted & E & Hq & Ha & _ & _ & Hn & _).
  - vm_compute. reflexivity.
  - vm_compute. reflexivity.
  - vm_compute. reflexivity.
  - discriminate.
  - discriminate.
  - exists s', r. split; [exact E|]. split; [exact Hq|].
    rewrite Hn, Ha. reflexivity.
Defined.

(** C7 as stated fails: in the cycle of device1 from [Sample.hot] an alert
    is raised, no alert had been raised before, and the published
    [alert_count] is 1. *)
Lemma alert_count_not_before_alert :
  exists s' r a,
    analyze_device CONFIG Sample.clock "device1" Sample.hot = (inl tt, s') /\
    device_status Sample.hot !! "device1"%string
      = Some {| last_error := None; alerts := [] |} /\
    alert_queue Sample.hot = [] /\ alert_queue s' = [a] /\
    analysis_queue s' = [r] /\ Result.alert_count r = 1.
Proof.
  eexists _, _, _. vm_compute. repeat split; reflexivity.
Qed.

(** *** The last error *)

(** [error_logs[-1]] of log_system.py is the entry that the scan from the
    newest entry of log_analyzer.py finds first. *)
Lemma last_filter_find_rev {A : Type} (p : A -> bool) (l : list A) :
  last (List.filter p l) = List.find p (rev l).
Proof.
  induction l as [|x l IH] using rev_ind; [reflexivity|].
  rewrite List.filter_app, rev_app_distr. cbn [List.filter rev app List.find].
  destruct (p x).
  - now rewrite last_snoc.
  - now rewrite app_nil_r.
Qed.

(** what the scan from the newest entry returns *)
Lemma newest_error_some (logs : list Log.t) e :
  LogAnalyzerPy.newest_error logs = Some e <->
  exists older newer, logs = older ++ e :: newer /\
    Log.log_level e = ERROR /\
    Forall (fun l => Log.log_level l <> ERROR) newer.
Proof.
  unfold LogAnalyzerPy.newest_error.
  induction logs as [|x l IH] using rev_ind.
  - cbn. split; [discriminate|]. intros (o & n & E & _). now destruct o.
  - rewrite rev_app_distr. cbn [rev app List.find]. unfold has_level at 1.
    destruct (Log.log_level x) eqn:Ex; cbn [Level_eqb].
    3:{ split.
        - intros [= <-]. exists l, []. auto.
        - intros (o & n & E & He & Hn).
          destruct n as [|y n _] using rev_ind.
          + apply app_inj_tail in E. destruct E as [_ ->]. reflexivity.
          + rewrite app_comm_cons, app_assoc in E. apply app_inj_tail in E.
            destruct E as [_ ->]. apply Forall_app in Hn. destruct Hn as [_ Hn].
            inversion Hn; congruence. }
    all: rewrite IH; split.
    all: try (intros (o & n & -> & He & Hn); exists o, (n ++ [x]);
              rewrite <- app_assoc; split; [reflexivity|]; split; [exact He|];
              apply Forall_app; split; [exact Hn|]; constructor; [congruence|constructor]).
    all: intros (o & n & E & He & Hn);
         destruct n as [|y n _] using rev_ind;
         [ apply app_inj_tail in E; destruct E as [_ ->]; congruence
         | rewrite app_comm_cons, app_assoc in E; apply app_inj_tail in E;
           destruct E as [-> ->]; exists o, n; split; [reflexivity|];
           split; [exact He|]; apply Forall_app in Hn; tauto ].
Qed.

Lemma newest_error_none (logs : list Log.t) :
  LogAnalyzerPy.newest_error logs = None <->
  Forall (fun l => Log.log_level l <> ERROR) logs.
Proof.
  unfold LogAnalyzerPy.newest_error. split.
  - intros H. apply Forall_forall. intros l Hl HE.
    assert (Hf : has_level ERROR l = false).
    { apply (List.find_none _ _ H l).
      apply in_rev. rewrite rev_involutive. now apply list_elem_of_In. }
    unfold has_level in Hf. rewrite HE in Hf. discriminate.
  - intros H. destruct (List.find _ _) as [e|] eqn:E; [|reflexivity].
    apply List.find_some in E. destruct E as [Hin He].
    apply in_rev, list_elem_of_In in Hin.
    rewrite Forall_forall in H. specialize (H e Hin).
    unfold has_level in He. destruct (Log.log_level e); try discriminate.
    congruence.
Qed.

(** C4 (as amended).  In [LogAnalyzer.analyze_logs] the published
    [last_error] is the newest ERROR entry of the history snapshot and, when
    the snapshot has none, the value stored by earlier cycles; the stored
    value is updated to what is published.  In [log_analyzer] of
    log_analyzer.py, which stores nothing between cycles, the published
    [last_error] is the newest ERROR entry of the snapshot and [None] when
    the snapshot has none. *)
Theorem last_error_newest_or_kept cfg clock d c st w s clock2 d2 s2 :
  logs_cache s !! d = Some c -> device_status s !! d = Some st ->
  alert_windows s !! d = Some w ->
  Deque.items c <> [] -> (alert_window cfg <> 0)%Z ->
  let logs := Deque.items c in
  (exists s' r st',
     analyze_device cfg clock d s = (inl tt, s') /\
     analysis_queue s' = analysis_queue s ++ [r] /\
     device_status s' !! d = Some st' /\
     last_error st' = Result.last_error r /\
     Result.last_error r =
       match LogAnalyzerPy.newest_error logs with
       | Some e => Some e
       | None => last_error st
       end) /\
  (exists r2,
     LogAnalyzerPy.analysis_queue (LogAnalyzerPy.analyze_device clock2 d2 logs s2)
     = LogAnalyzerPy.analysis_queue s2 ++ [r2] /\
     LogAnalyzerPy.r_last_error r2 = LogAnalyzerPy.newest_error logs).
Proof.
  intros Hc Hst Hw Hne HS logs. split.
  - eexists _, _, _. split; [eapply analyze_device_spec; eassumption|].
    cbn [after_cycle analysis_queue device_status].
    rewrite lookup_insert_eq. repeat (split; [reflexivity|]).
    cbn [result_out Result.last_error status_out last_error].
    fold logs. unfold LogAnalyzerPy.newest_error.
    now rewrite last_filter_find_rev.
  - unfold LogAnalyzerPy.analyze_device. fold logs.
    destruct logs as [|l0 ls] eqn:El; [contradiction|].
    eexists. cbn [LogAnalyzerPy.analysis_queue]. split; reflexivity.
Qed.

Lemma last_error_newest_or_kept_witness :
  exists s' r,
    analyze_device CONFIG Sample.clock "device1" Sample.hot = (inl tt, s') /\
    analysis_queue s' = [r] /\
    Result.last_error r = Some (Sample.log "device1" ERROR).
Proof.
  destruct (last_error_newest_or_kept CONFIG Sample.clock "device1"
              (Deque.mk 20 [Sample.log "device1" ERROR])
              {| last_error := None; alerts := [] |}
              (Deque.mk 10 (repeat Float.one 9)) Sample.hot
              Sample.clock "device1" (LogAnalyzerPy.start []))
    as [(s' & r & st' & E & Hq & _ & _ & Hr) _].
  - vm_compute. reflexivity.
  - vm_compute. reflexivity.
  - vm_compute. reflexivity.
  - discriminate.
  - discriminate.
  - exists s', r. split; [exact E|]. split; [exact Hq|]. exact Hr.
Defined.

(** C4 as stated fails on log_analyzer.py: with one ERROR log followed by a
    hundred INFO logs of the same device waiting in the queue, the first
    hundred cycles publish the ERROR log as [last_error]; the next cycle,
    whose snapshot holds no ERROR entry any more, publishes [None]. *)
Lemma last_error_reset_in_log_analyzer :
  let queue := Sample.log "device1" ERROR :: repeat (Sample.log "device1" INFO) 100 in
  map LogAnalyzerPy.r_last_error
      (LogAnalyzerPy.analysis_queue
         (LogAnalyzerPy.iterations 101 Sample.clock (LogAnalyzerPy.start queue)))
  = repeat (Some (Sample.log "device1" ERROR)) 100 ++ [None].
Proof. vm_compute. reflexivity. Qed.

(** *** A device without ERROR logs *)

Lemma Forall_items_append {A : Type} (P : A -> Prop) x (d : Deque.t A) :
  Forall P (Deque.items d) -> P x -> Forall P (Deque.items (Deque.append x d)).
Proof.
  intros Hd Hx. unfold Deque.append. cbn [Deque.items].
  assert (H : Forall P (Deque.items d ++ [x])).
  { apply Forall_app. split; [exact Hd|]. constructor; [exact Hx|constructor]. }
  destruct (_ <? _); [|exact H].
  destruct (Deque.items d ++ [x]); [constructor|]. now inversion H.
Qed.

Lemma fires_zero cfg logs (w : Deque.t Float.t) :
  (0 <= alert_threshold cfg)%Q ->
  Forall (fun x => x = Float.zero) (Deque.items (window_in logs w)) ->
  fires cfg logs w = false.
Proof.
  intros Ht Hz. unfold fires. apply andb_false_iff. right.
  rewrite (sum_zeros _ Hz). apply of_Q_not_below_zero; [exact Ht|].
  apply div_zero.
Qed.

Lemma quiet_after_cycle cfg clock d k c st w s :
  (0 <= alert_threshold cfg)%Q ->
  logs_cache s !! k = Some c -> device_status s !! k = Some st ->
  alert_windows s !! k = Some w -> Deque.items c <> [] ->
  quiet d s -> quiet d (after_cycle cfg clock k (Deque.items c) st w s).
Proof.
  intros Ht Hc Hst Hw Hne [Q1 Q2 Q3 Q4 Q5].
  destruct (decide (k = d)) as [->|Hne'].
  - assert (Hz : Forall (fun x => x = Float.zero)
                   (Deque.items (window_in (Deque.items c) w))).
    { apply Forall_items_append; [now apply Q3|].
      apply ratio_no_error; [exact Hne|now apply Q1]. }
    assert (Hf : fires cfg (Deque.items c) w = false) by (now apply fires_zero).
    split; cbn [after_cycle logs_cache log_queue alert_windows device_status
                alert_queue]; rewrite ?lookup_insert_eq.
    + exact Q1.
    + exact Q2.
    + intros w' [= <-]. unfold window_out. now rewrite Hf.
    + intros st' [= <-]. unfold status_out, new_alerts. cbn [alerts].
      rewrite Hf, app_nil_r. now apply Q4.
    + unfold new_alerts. now rewrite Hf, app_nil_r.
  - split; cbn [after_cycle logs_cache log_queue alert_windows device_status
                alert_queue]; rewrite ?lookup_insert_ne by exact Hne'.
    + exact Q1.
    + exact Q2.
    + exact Q3.
    + exact Q4.
    + rewrite alerts_for_app, alerts_for_new_other by exact Hne'.
      now rewrite app_nil_r.
Qed.

Lemma quiet_process_one d log s :
  (Log.device_id log = d -> Log.log_level log <> ERROR) ->
  quiet d s -> quiet d (process_one log s).
Proof.
  intros Hlog [Q1 Q2 Q3 Q4 Q5]. unfold process_one.
  destruct (logs_cache s !! Log.device_id log) as [c|] eqn:Hc;
    [|split; assumption].
  split; cbn [set_logs_cache logs_cache log_queue alert_windows device_status
              alert_queue]; try assumption.
  intros c'. destruct (decide (Log.device_id log = d)) as [Hd|Hd].
  - rewrite Hd, lookup_insert_eq. intros [= <-].
    apply Forall_items_append; [apply Q1; now rewrite <- Hd|now apply Hlog].
  - rewrite lookup_insert_ne by exact Hd. apply Q1.
Qed.

Lemma quiet_step cfg clock d ev s :
  (alert_window cfg <> 0)%Z -> (0 <= alert_threshold cfg)%Q ->
  no_error_for d ev -> wf cfg s /\ quiet d s ->
  exists s', step cfg clock ev s = (inl tt, s') /\ (wf cfg s' /\ quiet d s').
Proof.
  intros HS Ht Hev [Hwf Hq]. destruct ev as [log| |]; cbn [step].
  - eexists. split; [reflexivity|]. split; [now apply wf_set_log_queue|].
    destruct Hq as [Q1 Q2 Q3 Q4 Q5]. split; cbn; try assumption.
    apply Forall_app. split; [exact Q2|]. constructor; [exact Hev|constructor].
  - destruct (log_queue s) as [|log rest] eqn:E.
    + rewrite process_logs_iter_empty by exact E. eauto.
    + erewrite process_logs_iter_cons by exact E.
      eexists. split; [reflexivity|].
      split; [now apply wf_process_one, wf_set_log_queue|].
      destruct Hq as [Q1 Q2 Q3 Q4 Q5]. rewrite E in Q2. inversion Q2; subst.
      apply quiet_process_one; [assumption|]. split; cbn; assumption.
  - unfold analyze_logs.
    apply (for_each_inv (fun s' => wf cfg s' /\ quiet d s')); [auto|].
    intros k s0 Hk [Hwf0 Hq0].
    destruct (analyze_device_cases cfg clock k s0 Hwf0 Hk HS)
      as (c & st & w & Hc & Hst & Hw & Hb & Hm & [[_ ->]|[Hne ->]]).
    + eauto.
    + eexists. split; [reflexivity|].
      split; [now apply wf_after_cycle|now apply quiet_after_cycle].
Qed.

(** the state that [LogAnalyzer()] builds, when it builds one *)
Lemma init_some cfg s :
  init cfg = Some s ->
  s = {| logs_cache :=
           fold_left (fun m k => <[k := Deque.mk (Z.to_nat (analysis_window cfg)) []]> m)
                     (device_ids cfg) ∅;
         device_status :=
           fold_left (fun m k => <[k := {| last_error := None; alerts := [] |}]> m)
                     (device_ids cfg) ∅;
         alert_windows :=
           fold_left (fun m k => <[k := Deque.mk (Z.to_nat (alert_window cfg)) []]> m)
                     (device_ids cfg) ∅;
         log_queue := []; analysis_queue := []; alert_queue := [];
         clock_reads := 0 |}.
Proof.
  intros Hi. unfold init, Deque.new in Hi.
  destruct (device_ids cfg) as [|k0 ks0] eqn:E.
  { cbn in Hi. now injection Hi as <-. }
  rewrite <- E in *.
  assert (Hne : device_ids cfg <> []) by (rewrite E; discriminate).
  destruct (Z.ltb_spec (analysis_window cfg) 0) as [HN|HN].
  { rewrite dict_comp_none in Hi by exact Hne. discriminate. }
  destruct (Z.ltb_spec Deque.ssize_max (analysis_window cfg)) as [HN'|HN'].
  { rewrite dict_comp_none in Hi by exact Hne. discriminate. }
  destruct (Z.ltb_spec (alert_window cfg) 0) as [HS|HS].
  { rewrite !dict_comp_some, dict_comp_none in Hi by exact Hne. discriminate. }
  destruct (Z.ltb_spec Deque.ssize_max (alert_window cfg)) as [HS'|HS'].
  { rewrite !dict_comp_some, dict_comp_none in Hi by exact Hne. discriminate. }
  rewrite !dict_comp_some in Hi. cbn in Hi. now injection Hi as <-.
Qed.

Lemma quiet_init cfg d s : init cfg = Some s -> quiet d s.
Proof.
  intros Hi. apply init_some in Hi. subst s.
  split; cbn [logs_cache log_queue alert_windows device_status alert_queue].
  - intros c Hc. rewrite lookup_fold_insert in Hc. destruct (decide _).
    + injection Hc as <-. constructor.
    + now rewrite lookup_empty in Hc.
  - constructor.
  - intros w Hw. rewrite lookup_fold_insert in Hw. destruct (decide _).
    + injection Hw as <-. constructor.
    + now rewrite lookup_empty in Hw.
  - intros st Hst. rewrite lookup_fold_insert in Hst. destruct (decide _).
    + now injection Hst as <-.
    + now rewrite lookup_empty in Hst.
  - reflexivity.
Qed.

Lemma alerts_for_nil d q :
  alerts_for d q = [] <-> Forall (fun a => Alert.device_id a <> d) q.
Proof.
  unfold alerts_for. induction q as [|a q IH]; cbn.
  - split; [constructor|reflexivity].
  - destruct (String.eqb_spec (Alert.device_id a) d) as [E|E].
    + split; [discriminate|]. intros H. inversion H; subst. contradiction.
    + rewrite IH. split; [now constructor|]. intros H. now inversion H.
Qed.

(** C10.  Start the analyzer afresh with a positive alert window and a
    positive threshold, and let it run through any sequence of steps in which
    no ERROR log of device [d] is produced.  The run completes, no alert on
    the alert queue is about [d], the alert list of [d] is empty, and every
    sample in the alert window of [d] is 0.0. *)
Theorem no_error_no_alert cfg clock d s0 evs :
  init cfg = Some s0 ->
  (0 < alert_window cfg)%Z -> (0 < alert_threshold cfg)%Q ->
  Forall (no_error_for d) evs ->
  exists s, run cfg clock evs s0 = (inl tt, s) /\
    Forall (fun a => Alert.device_id a <> d) (alert_queue s) /\
    (forall st, device_status s !! d = Some st -> alerts st = []) /\
    (forall w, alert_windows s !! d = Some w ->
       Forall (fun x => x = Float.zero) (Deque.items w)).
Proof.
  intros Hi HS Ht Hevs.
  destruct (run_inv (fun s => wf cfg s /\ quiet d s) (no_error_for d)
              cfg clock evs s0) as (s & E & Hwf & Hq).
  - split; [now apply init_wf|now apply (quiet_init cfg)].
  - exact Hevs.
  - intros ev s1 Hev Hs1. apply quiet_step; try assumption; [lia|].
    now apply Qlt_le_weak.
  - exists s. split; [exact E|]. destruct Hq as [Q1 Q2 Q3 Q4 Q5].
    split; [now apply alerts_for_nil|]. split; assumption.
Qed.

Lemma no_error_no_alert_witness :
  exists s,
    run CONFIG Sample.clock
      [Put (Sample.log "device1" WARN); Process; Analyze;
       Put (Sample.log "device2" ERROR); Process; Analyze] Sample.fresh
    = (inl tt, s) /\
    Forall (fun a => Alert.device_id a <> "device1"%string) (alert_queue s).
Proof.
  destruct (no_error_no_alert CONFIG Sample.clock "device1" Sample.fresh
      [Put (Sample.log "device1" WARN); Process; Analyze;
       Put (Sample.log "device2" ERROR); Process; Analyze])
    as (s & E & Hq & _).
  - vm_compute. reflexivity.
  - vm_compute. reflexivity.
  - vm_compute. reflexivity.
  - repeat constructor; cbn; intros; discriminate.
  - exists s. split; [exact E|exact Hq].
Defined.

(** *** Replaying a run *)

Lemma sim_refl s : sim s s.
Proof. split; reflexivity. Qed.

Lemma simM_ret {A : Type} (R : A -> A -> Prop) a1 a2 :
  R a1 a2 -> simM R (mret a1) (mret a2).
Proof. intros H s1 s2 Hs. cbn. auto. Qed.

Lemma simM_raise {A : Type} (R : A -> A -> Prop) e :
  simM R (raise e) (raise e).
Proof. intros s1 s2 Hs. cbn. auto. Qed.

Lemma simM_bind {A B : Type} (R : A -> A -> Prop) (R' : B -> B -> Prop)
    (m1 m2 : M A) (k1 k2 : A -> M B) :
  simM R m1 m2 -> (forall a1 a2, R a1 a2 -> simM R' (k1 a1) (k2 a2)) ->
  simM R' (m1 ≫= k1) (m2 ≫= k2).
Proof.
  intros Hm Hk s1 s2 Hs. specialize (Hm s1 s2 Hs).
  unfold mbind, M_bind.
  destruct (m1 s1) as [[a1|e1] t1], (m2 s2) as [[a2|e2] t2]; try contradiction.
  - destruct Hm as [Ha Ht]. apply (Hk a1 a2 Ha t1 t2 Ht).
  - exact Hm.
Qed.

Lemma simM_modify (f1 f2 : State -> State) :
  (forall s1 s2, sim s1 s2 -> sim (f1 s1) (f2 s2)) ->
  simM eq (modify f1) (modify f2).
Proof. intros H s1 s2 Hs. cbn. auto. Qed.

Lemma simM_try_except (b1 b2 h1 h2 : M ()) :
  simM eq b1 b2 -> simM eq h1 h2 -> simM eq (try_except b1 h1) (try_except b2 h2).
Proof.
  intros Hb Hh s1 s2 Hs. specialize (Hb s1 s2 Hs). unfold try_except.
  destruct (b1 s1) as [[[]|e1] t1], (b2 s2) as [[[]|e2] t2]; try contradiction.
  - exact Hb.
  - destruct Hb as [_ Ht]. apply (Hh t1 t2 Ht).
Qed.

Lemma simM_for_each ks (b1 b2 : string -> M ()) :
  (forall k, simM eq (b1 k) (b2 k)) -> simM eq (for_each ks b1) (for_each ks b2).
Proof.
  intros Hb. induction ks as [|k ks IH]; cbn [for_each].
  - apply (simM_ret eq); reflexivity.
  - eapply simM_bind; [apply Hb|]. intros _ _ _. exact IH.
Qed.

Lemma simM_truediv a b : simM eq (truediv a b) (truediv a b).
Proof.
  unfold truediv. destruct (b =? 0)%Z; [apply simM_raise|]. cbv zeta.
  destruct (Float.is_inf _); [apply simM_raise|apply (simM_ret eq); reflexivity].
Qed.

Lemma simM_float_truediv x n : simM eq (float_truediv x n) (float_truediv x n).
Proof.
  unfold float_truediv.
  destruct (n =? 0)%Z; [apply simM_raise|apply (simM_ret eq); reflexivity].
Qed.

Lemma simM_now clock1 clock2 :
  simM (fun _ _ => True) (datetime_now clock1) (datetime_now clock2).
Proof.
  intros s1 s2 Hs. unfold datetime_now. split; [exact I|].
  destruct Hs as [H1 H2 H3 H4 H5 H6 H7]. split; cbn; congruence.
Qed.

Lemma simM_get_logs_cache k : simM eq (get_logs_cache k) (get_logs_cache k).
Proof.
  intros s1 s2 Hs. unfold get_logs_cache. rewrite (sim_cache _ _ Hs).
  destruct (logs_cache s2 !! k); auto.
Qed.

Lemma simM_get_alert_window k : simM eq (get_alert_window k) (get_alert_window k).
Proof.
  intros s1 s2 Hs. unfold get_alert_window. rewrite (sim_windows _ _ Hs).
  destruct (alert_windows s2 !! k); auto.
Qed.

Lemma simM_get_device_status k :
  simM (fun a b => erase_status a = erase_status b)
       (get_device_status k) (get_device_status k).
Proof.
  intros s1 s2 Hs. unfold get_device_status.
  pose proof (f_equal (fun m => m !! k) (sim_status _ _ Hs)) as H.
  cbn in H. rewrite !lookup_fmap in H.
  destruct (device_status s1 !! k) as [st1|], (device_status s2 !! k) as [st2|];
    cbn [fmap option_fmap option_map] in H; try discriminate.
  - split; [congruence|exact Hs].
  - auto.
Qed.

Lemma simM_get_nowait : simM eq get_nowait get_nowait.
Proof.
  intros s1 s2 Hs. unfold get_nowait. rewrite (sim_log_queue _ _ Hs).
  destruct (log_queue s2); [auto|]. split; [reflexivity|].
  destruct Hs as [H1 H2 H3 H4 H5 H6 H7]. split; cbn; congruence.
Qed.

Lemma sim_set_device_status k st1 st2 s1 s2 :
  erase_status st1 = erase_status st2 -> sim s1 s2 ->
  sim (set_device_status (<[k := st1]> (device_status s1)) s1)
      (set_device_status (<[k := st2]> (device_status s2)) s2).
Proof.
  intros Hst [H1 H2 H3 H4 H5 H6 H7]. split; cbn; try assumption.
  rewrite !fmap_insert. now rewrite Hst, H2.
Qed.

Lemma sim_set_alert_windows m s1 s2 :
  sim s1 s2 -> sim (set_alert_windows m s1) (set_alert_windows m s2).
Proof. intros [H1 H2 H3 H4 H5 H6 H7]. split; cbn; congruence. Qed.

Lemma sim_set_logs_cache m s1 s2 :
  sim s1 s2 -> sim (set_logs_cache m s1) (set_logs_cache m s2).
Proof. intros [H1 H2 H3 H4 H5 H6 H7]. split; cbn; congruence. Qed.

Lemma simM_set_last_error k log :
  simM eq (set_last_error k log) (set_last_error k log).
Proof.
  unfold set_last_error. eapply simM_bind; [apply simM_get_device_status|].
  intros st1 st2 Hst. apply simM_modify. intros s1 s2 Hs.
  apply sim_set_device_status; [|exact Hs].
  unfold erase_status in *. cbn. congruence.
Qed.

Lemma simM_append_alert k a1 a2 :
  erase_alert a1 = erase_alert a2 ->
  simM eq (append_alert k a1) (append_alert k a2).
Proof.
  intros Ha. unfold append_alert.
  eapply simM_bind; [apply simM_get_device_status|].
  intros st1 st2 Hst. apply simM_modify. intros s1 s2 Hs.
  apply sim_set_device_status; [|exact Hs].
  unfold erase_status in *. cbn. rewrite !map_app. cbn. congruence.
Qed.

Lemma simM_put_alert a1 a2 :
  erase_alert a1 = erase_alert a2 -> simM eq (put_alert a1) (put_alert a2).
Proof.
  intros Ha. apply simM_modify. intros s1 s2 [H1 H2 H3 H4 H5 H6 H7].
  split; cbn; try assumption. rewrite !map_app. cbn. congruence.
Qed.

Lemma simM_put_analysis r1 r2 :
  erase_result r1 = erase_result r2 -> simM eq (put_analysis r1) (put_analysis r2).
Proof.
  intros Hr. apply simM_modify. intros s1 s2 [H1 H2 H3 H4 H5 H6 H7].
  split; cbn; try assumption. rewrite !map_app. cbn. congruence.
Qed.

Lemma simM_window_append k x : simM eq (window_append k x) (window_append k x).
Proof.
  unfold window_append. eapply simM_bind; [apply simM_get_alert_window|].
  intros w ? <-. apply simM_modify. intros s1 s2 Hs.
  rewrite (sim_windows _ _ Hs). now apply sim_set_alert_windows.
Qed.

Lemma simM_window_clear k : simM eq (window_clear k) (window_clear k).
Proof.
  unfold window_clear. eapply simM_bind; [apply simM_get_alert_window|].
  intros w ? <-. apply simM_modify. intros s1 s2 Hs.
  rewrite (sim_windows _ _ Hs). now apply sim_set_alert_windows.
Qed.

Lemma simM_analyze_device cfg clock1 clock2 d :
  simM eq (analyze_device cfg clock1 d) (analyze_device cfg clock2 d).
Proof.
  unfold analyze_device.
  eapply simM_bind; [apply simM_get_logs_cache|]. intros c ? <-. cbv zeta.
  destruct (Deque.items c) as [|l0 ls]; [apply (simM_ret eq); reflexivity|].
  eapply simM_bind; [apply simM_truediv|]. intros er ? <-.
  eapply simM_bind; [apply simM_truediv|]. intros wr ? <-.
  eapply simM_bind.
  { destruct (last _); [apply simM_set_last_error|apply (simM_ret eq); reflexivity]. }
  intros _ _ _.
  eapply simM_bind; [apply simM_window_append|]. intros _ _ _.
  eapply simM_bind; [apply simM_get_alert_window|]. intros w ? <-.
  eapply simM_bind.
  { destruct (_ =? _)%Z; [|apply (simM_ret eq); reflexivity].
    eapply simM_bind; [apply simM_get_alert_window|]. intros w' ? <-.
    eapply simM_bind; [apply simM_float_truediv|]. intros avg ? <-.
    destruct (Float.ltb _ _); [|apply (simM_ret eq); reflexivity].
    eapply simM_bind; [apply simM_now|]. intros t1 t2 _.
    eapply simM_bind; [apply simM_append_alert; reflexivity|]. intros _ _ _.
    eapply simM_bind; [apply simM_put_alert; reflexivity|]. intros _ _ _.
    apply simM_window_clear. }
  intros _ _ _.
  eapply simM_bind; [apply simM_now|]. intros t1 t2 _.
  eapply simM_bind; [apply simM_get_device_status|]. intros st1 st2 Hst.
  apply simM_put_analysis. unfold erase_result. cbn.
  unfold erase_status in Hst. injection Hst as Hle Hal.
  rewrite Hle. f_equal. rewrite <- (length_map erase_alert (alerts st1)), Hal.
  apply length_map.
Qed.

Lemma simM_process_logs_iter : simM eq process_logs_iter process_logs_iter.
Proof.
  unfold process_logs_iter. apply simM_try_except; [|apply (simM_ret eq); reflexivity].
  eapply simM_bind; [apply simM_get_nowait|]. intros log ? <-.
  eapply simM_bind; [apply simM_get_logs_cache|]. intros c ? <-.
  apply simM_modify. intros s1 s2 Hs.
  rewrite (sim_cache _ _ Hs). now apply sim_set_logs_cache.
Qed.

Lemma simM_step cfg clock1 clock2 ev :
  simM eq (step cfg clock1 ev) (step cfg clock2 ev).
Proof.
  destruct ev as [log| |]; cbn [step].
  - apply simM_modify. intros s1 s2 [H1 H2 H3 H4 H5 H6 H7].
    split; cbn; congruence.
  - apply simM_process_logs_iter.
  - apply simM_for_each. intros k. apply simM_analyze_device.
Qed.

Lemma simM_run cfg clock1 clock2 evs :
  simM eq (run cfg clock1 evs) (run cfg clock2 evs).
Proof.
  induction evs as [|ev evs IH]; cbn [run].
  - apply (simM_ret eq); reflexivity.
  - eapply simM_bind; [apply simM_step|]. intros _ _ _. exact IH.
Qed.

Lemma bind_ext {A B : Type} (m1 m2 : M A) (k1 k2 : A -> M B) s :
  m1 s = m2 s -> (forall a s', k1 a s' = k2 a s') ->
  (m1 ≫= k1) s = (m2 ≫= k2) s.
Proof.
  intros Hm Hk. unfold mbind, M_bind. rewrite Hm.
  destruct (m2 s) as [[a|e] s']; [apply Hk|reflexivity].
Qed.

Lemma datetime_now_ext clock1 clock2 s :
  (forall k, clock1 k = clock2 k) -> datetime_now clock1 s = datetime_now clock2 s.
Proof. intros H. unfold datetime_now. now rewrite H. Qed.

Lemma analyze_device_ext cfg clock1 clock2 d s :
  (forall k, clock1 k = clock2 k) ->
  analyze_device cfg clock1 d s = analyze_device cfg clock2 d s.
Proof.
  intros H. unfold analyze_device.
  apply bind_ext; [reflexivity|]. intros c s1. cbv zeta.
  destruct (Deque.items c) as [|l0 ls]; [reflexivity|].
  apply bind_ext; [reflexivity|]. intros er s2.
  apply bind_ext; [reflexivity|]. intros wr s3.
  apply bind_ext; [reflexivity|]. intros _ s4.
  apply bind_ext; [reflexivity|]. intros _ s5.
  apply bind_ext; [reflexivity|]. intros w s6.
  apply bind_ext.
  - destruct (_ =? _)%Z; [|reflexivity].
    apply bind_ext; [reflexivity|]. intros w' s7.
    apply bind_ext; [reflexivity|]. intros avg s8.
    destruct (Float.ltb _ _); [|reflexivity].
    apply bind_ext; [now apply datetime_now_ext|reflexivity].
  - intros _ s7. apply bind_ext; [now apply datetime_now_ext|reflexivity].
Qed.

Lemma run_clock_ext cfg clock1 clock2 evs s :
  (forall k, clock1 k = clock2 k) -> run cfg clock1 evs s = run cfg clock2 evs s.
Proof.
  intros H. revert s. induction evs as [|ev evs IH]; intros s; [reflexivity|].
  cbn [run]. apply bind_ext; [|intros _ s'; apply IH].
  destruct ev as [log| |]; cbn [step]; try reflexivity.
  unfold analyze_logs. generalize (device_ids cfg). intros ks. revert s.
  induction ks as [|k ks IHk]; intros s; [reflexivity|].
  cbn [for_each]. apply bind_ext; [now apply analyze_device_ext|].
  intros _ s'. apply IHk.
Qed.

(** C9 (as amended).  Two runs of a freshly built analyzer over the same
    sequence of steps (the same logs put on the queue, the same turns of the
    processing loop and the same analysis cycles) end in the same way and put
    on the output queues results and alerts that agree in every field except
    [timestamp]; when the clock readings of the two runs agree as well, the
    two output sequences are identical. *)
Theorem replay_same_up_to_clock cfg clock1 clock2 evs s1 s2 :
  init cfg = Some s1 -> init cfg = Some s2 ->
  let o1 := run cfg clock1 evs s1 in
  let o2 := run cfg clock2 evs s2 in
  fst o1 = fst o2 /\
  map erase_result (analysis_queue (snd o1))
  = map erase_result (analysis_queue (snd o2)) /\
  map erase_alert (alert_queue (snd o1)) = map erase_alert (alert_queue (snd o2)) /\
  ((forall k, clock1 k = clock2 k) ->
   analysis_queue (snd o1) = analysis_queue (snd o2) /\
   alert_queue (snd o1) = alert_queue (snd o2)).
Proof.
  intros H1 H2 o1 o2. assert (s2 = s1) as -> by congruence.
  pose proof (simM_run cfg clock1 clock2 evs s1 s1 (sim_refl s1)) as Hsim.
  fold o1 o2 in Hsim.
  assert (Hext : (forall k, clock1 k = clock2 k) -> o1 = o2).
  { intros H. subst o1 o2. now apply run_clock_ext. }
  destruct o1 as [[[]|e1] t1], o2 as [[[]|e2] t2]; try contradiction;
    destruct Hsim as [He Ht]; cbn [fst snd].
  - split; [reflexivity|]. split; [apply Ht|]. split; [apply Ht|].
    intros H. injection (Hext H) as ->. auto.
  - split; [now rewrite He|]. split; [apply Ht|]. split; [apply Ht|].
    intros H. injection (Hext H) as _ ->. auto.
Qed.

Lemma replay_same_up_to_clock_witness :
  let evs := [Put (Sample.log "device1" ERROR); Process; Analyze] in
  map erase_result
    (analysis_queue (snd (run CONFIG Sample.clock evs Sample.fresh)))
  = map erase_result
    (analysis_queue (snd (run CONFIG Sample.clock_later evs Sample.fresh))).
Proof.
  intros evs.
  destruct (replay_same_up_to_clock CONFIG Sample.clock Sample.clock_later evs
              Sample.fresh Sample.fresh) as (_ & H & _).
  - vm_compute. reflexivity.
  - vm_compute. reflexivity.
  - exact H.
Defined.

(** C9 as stated fails: the same steps replayed from a fresh analyzer while
    the wall clock shows another day give a result that is not the same in
    every field. *)
Lemma replay_timestamps_differ :
  let evs := [Put (Sample.log "device1" ERROR); Process; Analyze] in
  init CONFIG = Some Sample.fresh /\
  analysis_queue (snd (run CONFIG Sample.clock evs Sample.fresh))
  <> analysis_queue (snd (run CONFIG Sample.clock_later evs Sample.fresh)).
Proof.
  split; [vm_compute; reflexivity|]. vm_compute. discriminate.
Qed.

(** *** The histories *)

Lemma keeps_cache_ret {A : Type} (a : A) : keeps_cache (mret a).
Proof. intros s. reflexivity. Qed.

Lemma keeps_cache_raise {A : Type} e : keeps_cache (@raise A e).
Proof. intros s. reflexivity. Qed.

Lemma keeps_cache_bind {A B : Type} (m : M A) (k : A -> M B) :
  keeps_cache m -> (forall a, keeps_cache (k a)) -> keeps_cache (m ≫= k).
Proof.
  intros Hm Hk s. unfold mbind, M_bind. specialize (Hm s).
  destruct (m s) as [[a|e] s1]; cbn [snd] in *.
  - now rewrite Hk.
  - exact Hm.
Qed.

Lemma keeps_cache_modify (f : State -> State) :
  (forall s, logs_cache (f s) = logs_cache s) -> keeps_cache (modify f).
Proof. intros H s. apply H. Qed.

Lemma keeps_cache_truediv a b : keeps_cache (truediv a b).
Proof.
  unfold truediv. destruct (b =? 0)%Z; [apply keeps_cache_raise|]. cbv zeta.
  destruct (Float.is_inf _); [apply keeps_cache_raise|apply keeps_cache_ret].
Qed.

Lemma keeps_cache_float_truediv x n : keeps_cache (float_truediv x n).
Proof.
  unfold float_truediv.
  destruct (n =? 0)%Z; [apply keeps_cache_raise|apply keeps_cache_ret].
Qed.

Lemma keeps_cache_now clock : keeps_cache (datetime_now clock).
Proof. intros s. reflexivity. Qed.

Lemma keeps_cache_get_logs_cache k : keeps_cache (get_logs_cache k).
Proof. intros s. unfold get_logs_cache. now destruct (_ !! _). Qed.

Lemma keeps_cache_get_device_status k : keeps_cache (get_device_status k).
Proof. intros s. unfold get_device_status. now destruct (_ !! _). Qed.

Lemma keeps_cache_get_alert_window k : keeps_cache (get_alert_window k).
Proof. intros s. unfold get_alert_window. now destruct (_ !! _). Qed.

Lemma keeps_cache_for_each ks (body : string -> M ()) :
  (forall k, keeps_cache (body k)) -> keeps_cache (for_each ks body).
Proof.
  intros H. induction ks as [|k ks IH]; cbn [for_each].
  - apply keeps_cache_ret.
  - apply keeps_cache_bind; [apply H|intros _; exact IH].
Qed.

Ltac keeps_cache_tac :=
  repeat first
    [ apply keeps_cache_ret | apply keeps_cache_raise | apply keeps_cache_truediv
    | apply keeps_cache_float_truediv
    | apply keeps_cache_now | apply keeps_cache_get_logs_cache
    | apply keeps_cache_get_device_status | apply keeps_cache_get_alert_window
    | apply keeps_cache_modify; intros; reflexivity
    | apply keeps_cache_bind; [|intros]
    | match goal with
      | |- keeps_cache (match ?x with _ => _ end) => destruct x
      | |- keeps_cache (if ?x then _ else _) => destruct x
      end ].

Lemma keeps_cache_analyze_device cfg clock d :
  keeps_cache (analyze_device cfg clock d).
Proof.
  unfold analyze_device, set_last_error, window_append, window_clear,
    append_alert, put_alert, put_analysis.
  keeps_cache_tac.
Qed.

Lemma keeps_cache_analyze_logs cfg clock : keeps_cache (analyze_logs cfg clock).
Proof. apply keeps_cache_for_each. intros k. apply keeps_cache_analyze_device. Qed.

Lemma cache_ok_process_one n log s :
  cache_ok n s -> cache_ok n (process_one log s).
Proof.
  intros H. unfold process_one.
  destruct (logs_cache s !! Log.device_id log) as [c|] eqn:Hc; [|exact H].
  intros d c'. cbn [set_logs_cache logs_cache].
  destruct (decide (Log.device_id log = d)) as [<-|Hne].
  - rewrite lookup_insert_eq. intros [= <-]. destruct (H _ _ Hc) as [Hb Hm].
    split; [now apply bounded_append|exact Hm].
  - rewrite lookup_insert_ne by exact Hne. apply H.
Qed.

Lemma cache_ok_step n cfg clock ev s :
  cache_ok n s -> cache_ok n (snd (step cfg clock ev s)).
Proof.
  intros H. destruct ev as [log| |]; cbn [step].
  - exact H.
  - destruct (log_queue s) as [|log rest] eqn:E.
    + now rewrite process_logs_iter_empty.
    + erewrite process_logs_iter_cons by exact E. cbn [snd].
      now apply cache_ok_process_one.
  - unfold cache_ok. now rewrite keeps_cache_analyze_logs.
Qed.

Lemma cache_ok_run n cfg clock evs s :
  cache_ok n s -> cache_ok n (snd (run cfg clock evs s)).
Proof.
  revert s. induction evs as [|ev evs IH]; intros s H; [exact H|].
  cbn [run]. unfold mbind, M_bind.
  pose proof (cache_ok_step n cfg clock ev s H) as H1.
  destruct (step cfg clock ev s) as [[[]|e] s1]; cbn [snd] in *.
  - now apply IH.
  - exact H1.
Qed.

Lemma cache_ok_init cfg s :
  init cfg = Some s -> cache_ok (Z.to_nat (analysis_window cfg)) s.
Proof.
  intros Hi. apply init_some in Hi. subst s. intros d c. cbn [logs_cache].
  rewrite lookup_fold_insert. destruct (decide _).
  - intros [= <-]. split; [|reflexivity]. unfold Deque.bounded, Deque.len.
    cbn. lia.
  - now rewrite lookup_empty.
Qed.

(** The processing loop empties the queue: after as many turns as there
    are logs waiting, each history has received the logs of its device in
    the order of the queue.  Logs of a device without a history are taken
    from the queue and appear nowhere. *)
Lemma process_logs_drains s :
  exists s', process_logs (length (log_queue s)) s = (inl tt, s') /\
    log_queue s' = [] /\
    forall d, logs_cache s' !! d =
      Deque.extend (List.filter (fun l => String.eqb (Log.device_id l) d)
                                (log_queue s))
      <$> logs_cache s !! d.
Proof.
  remember (log_queue s) as q eqn:Hq. revert s Hq.
  induction q as [|log q IH]; intros s Hq.
  - exists s. split; [reflexivity|]. split; [now symmetry|].
    intros d. cbn. now destruct (logs_cache s !! d).
  - cbn [length process_logs].
    erewrite bind_ok by (apply process_logs_iter_cons; symmetry; exact Hq).
    destruct (IH (process_one log (set_log_queue q s))) as (s' & E & Hq' & Hc').
    { unfold process_one. cbn. now destruct (logs_cache s !! Log.device_id log). }
    exists s'. split; [exact E|]. split; [exact Hq'|].
    intros d. rewrite Hc'. unfold process_one. cbn [logs_cache set_log_queue].
    cbn [List.filter].
    destruct (String.eqb_spec (Log.device_id log) d) as [Hd|Hd].
    + rewrite Hd. destruct (logs_cache s !! d) as [c|] eqn:Hc; cbn.
      * now rewrite lookup_insert_eq.
      * now rewrite Hc.
    + destruct (logs_cache s !! Log.device_id log) as [c0|]; cbn; [|reflexivity].
      now rewrite lookup_insert_ne.
Qed.

(** ** log_analyzer.py *)

Lemma la_analyze_device_frame clock d logs s :
  LogAnalyzerPy.log_queue (LogAnalyzerPy.analyze_device clock d logs s)
  = LogAnalyzerPy.log_queue s /\
  LogAnalyzerPy.device_logs (LogAnalyzerPy.analyze_device clock d logs s)
  = LogAnalyzerPy.device_logs s.
Proof. unfold LogAnalyzerPy.analyze_device. destruct logs; split; reflexivity. Qed.

Lemma la_analysis_frame clock (dl : list (string * Deque.t Log.t)) s :
  let s' := fold_left (fun acc kv =>
              LogAnalyzerPy.analyze_device clock (fst kv) (Deque.items (snd kv)) acc)
              dl s in
  LogAnalyzerPy.log_queue s' = LogAnalyzerPy.log_queue s /\
  LogAnalyzerPy.device_logs s' = LogAnalyzerPy.device_logs s.
Proof.
  revert s. induction dl as [|kv dl IH]; intros s; [split; reflexivity|].
  cbn [fold_left]. destruct (IH (LogAnalyzerPy.analyze_device clock (fst kv)
                                   (Deque.items (snd kv)) s)) as [H1 H2].
  destruct (la_analyze_device_frame clock (fst kv) (Deque.items (snd kv)) s)
    as [H3 H4].
  cbv zeta in *. split; congruence.
Qed.

(** a turn of the loop of log_analyzer.py takes one log from the queue and
    leaves the others *)
Lemma la_iteration_queue clock s :
  LogAnalyzerPy.log_queue (LogAnalyzerPy.iteration clock s)
  = tail (LogAnalyzerPy.log_queue s).
Proof.
  unfold LogAnalyzerPy.iteration. cbv zeta.
  destruct (la_analysis_frame clock
              (LogAnalyzerPy.device_logs (LogAnalyzerPy.ingest s))
              (LogAnalyzerPy.ingest s)) as [-> _].
  unfold LogAnalyzerPy.ingest.
  destruct (LogAnalyzerPy.log_queue s) eqn:E; [exact E|reflexivity].
Qed.

Lemma la_iteration_device_logs clock s :
  LogAnalyzerPy.device_logs (LogAnalyzerPy.iteration clock s)
  = LogAnalyzerPy.device_logs (LogAnalyzerPy.ingest s).
Proof.
  unfold LogAnalyzerPy.iteration. cbv zeta.
  now destruct (la_analysis_frame clock
              (LogAnalyzerPy.device_logs (LogAnalyzerPy.ingest s))
              (LogAnalyzerPy.ingest s)) as [_ ->].
Qed.

Lemma dict_get_app_fresh key dl v :
  LogAnalyzerPy.dict_get key dl = None ->
  LogAnalyzerPy.dict_get key (dl ++ [(key, v)]) = Some v.
Proof.
  induction dl as [|[k v'] dl IH]; cbn.
  - now rewrite String.eqb_refl.
  - destruct (String.eqb k key); [discriminate|exact IH].
Qed.

Lemma dict_alter_app_fresh f key dl v :
  LogAnalyzerPy.dict_get key dl = None ->
  LogAnalyzerPy.dict_alter f key (dl ++ [(key, v)]) = dl ++ [(key, f v)].
Proof.
  induction dl as [|[k v'] dl IH]; cbn.
  - now rewrite String.eqb_refl.
  - destruct (String.eqb k key); [discriminate|]. intros H. now rewrite IH.
Qed.

Lemma logs_ok_alter log key dl :
  LogAnalyzerPy.logs_ok dl ->
  LogAnalyzerPy.logs_ok (LogAnalyzerPy.dict_alter (Deque.append log) key dl).
Proof.
  unfold LogAnalyzerPy.logs_ok.
  induction 1 as [|[k v] dl [Hb Hm] Hdl IH]; cbn; [constructor|].
  destruct (String.eqb k key).
  - constructor; [|assumption]. cbn in *. split; [now apply bounded_append|exact Hm].
  - constructor; [now split|exact IH].
Qed.

Lemma logs_ok_ingest s :
  LogAnalyzerPy.logs_ok (LogAnalyzerPy.device_logs s) ->
  LogAnalyzerPy.logs_ok (LogAnalyzerPy.device_logs (LogAnalyzerPy.ingest s)).
Proof.
  intros H. unfold LogAnalyzerPy.ingest.
  destruct (LogAnalyzerPy.log_queue s) as [|log rest]; [exact H|].
  cbn [LogAnalyzerPy.device_logs]. apply logs_ok_alter.
  destruct (LogAnalyzerPy.dict_get _ _); [exact H|].
  apply Forall_app. split; [exact H|]. constructor; [|constructor].
  cbn. unfold Deque.bounded, Deque.len. cbn. split; [lia|reflexivity].
Qed.

Lemma logs_ok_iterations n clock s :
  LogAnalyzerPy.logs_ok (LogAnalyzerPy.device_logs s) ->
  LogAnalyzerPy.logs_ok
    (LogAnalyzerPy.device_logs (LogAnalyzerPy.iterations n clock s)).
Proof.
  revert s. induction n as [|n IH]; intros s H; [exact H|].
  cbn [LogAnalyzerPy.iterations]. apply IH.
  rewrite la_iteration_device_logs. now apply logs_ok_ingest.
Qed.

Lemma logs_ok_get key dl c :
  LogAnalyzerPy.logs_ok dl -> LogAnalyzerPy.dict_get key dl = Some c ->
  Deque.bounded c /\ Deque.maxlen c = Z.to_nat LogAnalyzerPy.N.
Proof.
  unfold LogAnalyzerPy.logs_ok.
  induction 1 as [|[k v] dl Hkv _ IH]; cbn; [discriminate|].
  destruct (String.eqb k key); [|exact IH]. now intros [= <-].
Qed.

(** ** The claims about the histories, the drain step and the configuration *)

(** C2.  A history is a deque built with capacity [N] that only receives
    appends.  Whatever sequence of logs is appended, after every prefix of it
    the history holds at most [N] entries; it holds the last [N] appended logs
    in the order of their arrival; and after [N + 1] appends it holds all of
    them but the first, so the oldest log is gone.  In every state that a run
    of log_system.py reaches from a fresh analyzer, and after any number of
    turns of the loop of log_analyzer.py, every history holds at most [N]
    entries. *)
Theorem history_bounded_ordered_evicting
    (N : Z) (h0 : Deque.t Log.t) (logs : list Log.t)
    cfg clock evs s0 turns queue :
  Deque.new N = Some h0 -> init cfg = Some s0 ->
  (forall n, Deque.len (Deque.extend (take n logs) h0) <= Z.to_nat N) /\
  Deque.items (Deque.extend logs h0) = Deque.lastn (Z.to_nat N) logs /\
  (length logs = S (Z.to_nat N) ->
     Deque.items (Deque.extend logs h0) = tail logs /\
     (NoDup logs -> forall x, head logs = Some x ->
        x ∉ Deque.items (Deque.extend logs h0))) /\
  (forall d c, logs_cache (snd (run cfg clock evs s0)) !! d = Some c ->
     Deque.len c <= Z.to_nat (analysis_window cfg)) /\
  (forall d c,
     LogAnalyzerPy.dict_get d
       (LogAnalyzerPy.device_logs
          (LogAnalyzerPy.iterations turns clock (LogAnalyzerPy.start queue)))
     = Some c ->
     Deque.len c <= Z.to_nat LogAnalyzerPy.N).
Proof.
  intros Hnew Hinit.
  assert (Hh0 : Deque.bounded h0 /\ Deque.items h0 = [] /\
                Deque.maxlen h0 = Z.to_nat N).
  { unfold Deque.new in Hnew. destruct (N <? 0)%Z; [discriminate|].
    destruct (Deque.ssize_max <? N)%Z; [discriminate|].
    injection Hnew as <-. unfold Deque.bounded, Deque.len. cbn.
    split; [lia|]. split; reflexivity. }
  destruct Hh0 as (Hb & Hi & Hm).
  assert (Hitems : forall l, Deque.items (Deque.extend l h0)
                             = Deque.lastn (Z.to_nat N) l).
  { intros l. rewrite items_extend by exact Hb. now rewrite Hi, Hm. }
  split; [|split; [|split; [|split]]].
  - intros n. pose proof (bounded_extend (take n logs) h0 Hb) as H.
    unfold Deque.bounded in H. now rewrite maxlen_extend, Hm in H.
  - apply Hitems.
  - intros Hlen. rewrite Hitems. unfold Deque.lastn. rewrite Hlen.
    replace (S (Z.to_nat N) - Z.to_nat N) with 1 by lia.
    split; [now destruct logs|].
    intros Hnd x Hx. destruct logs as [|y l]; [discriminate|].
    injection Hx as ->. cbn. now apply NoDup_cons in Hnd.
  - intros d c Hc.
    destruct (cache_ok_run _ cfg clock evs s0 (cache_ok_init _ _ Hinit) d c Hc)
      as [Hbc Hmc].
    unfold Deque.bounded in Hbc. now rewrite Hmc in Hbc.
  - intros d c Hc.
    destruct (logs_ok_get d _ c
                (logs_ok_iterations turns clock (LogAnalyzerPy.start queue)
                   ltac:(constructor)) Hc) as [Hbc Hmc].
    unfold Deque.bounded in Hbc. now rewrite Hmc in Hbc.
Qed.

Lemma history_bounded_ordered_evicting_witness :
  Deque.items (Deque.extend
    [Sample.log "device1" ERROR; Sample.log "device1" WARN;
     Sample.log "device1" INFO] (Deque.mk 2 []))
  = [Sample.log "device1" WARN; Sample.log "device1" INFO].
Proof.
  destruct (history_bounded_ordered_evicting 2 (Deque.mk 2 [])
      [Sample.log "device1" ERROR; Sample.log "device1" WARN;
       Sample.log "device1" INFO]
      CONFIG Sample.clock [] Sample.fresh 0 [])
    as (_ & _ & H & _).
  - vm_compute. reflexivity.
  - vm_compute. reflexivity.
  - apply H. reflexivity.
Defined.

(** C3.  The drain step of log_analyzer.py does not empty the queue: with
    two logs waiting, one turn of the loop (ingestion, sleep, analysis) leaves
    the second log on the queue, and only the first has reached a history. *)
Lemma log_analyzer_takes_one_log_per_turn :
  let e1 := Sample.log "device1" ERROR in
  let e2 := Sample.log "device1" WARN in
  let s := LogAnalyzerPy.iteration Sample.clock (LogAnalyzerPy.start [e1; e2]) in
  LogAnalyzerPy.log_queue s = [e2] /\
  LogAnalyzerPy.device_logs s = [("device1"%string, Deque.mk 100 [e1])].
Proof. vm_compute. split; reflexivity. Qed.

(** C5 (as amended).  In log_analyzer.py a log of a device that has no
    history yet is taken from the queue, a history of capacity [N] is created
    for the device after the existing ones, and the log is its only entry.
    In log_system.py the analyzer is built with a history, a status and an
    alert window for exactly the configured devices, and a turn of the
    processing loop creates none: the three dicts keep their keys. *)
Theorem unseen_device_history cfg s0 s (la : LogAnalyzerPy.State) log rest :
  init cfg = Some s0 ->
  LogAnalyzerPy.log_queue la = log :: rest ->
  LogAnalyzerPy.dict_get (Log.device_id log) (LogAnalyzerPy.device_logs la) = None ->
  (LogAnalyzerPy.log_queue (LogAnalyzerPy.ingest la) = rest /\
   LogAnalyzerPy.device_logs (LogAnalyzerPy.ingest la)
   = LogAnalyzerPy.device_logs la
     ++ [(Log.device_id log, Deque.mk (Z.to_nat LogAnalyzerPy.N) [log])] /\
   LogAnalyzerPy.dict_get (Log.device_id log)
     (LogAnalyzerPy.device_logs (LogAnalyzerPy.ingest la))
   = Some (Deque.mk (Z.to_nat LogAnalyzerPy.N) [log])) /\
  (forall d,
     (is_Some (logs_cache s0 !! d) <-> d ∈ device_ids cfg) /\
     (is_Some (device_status s0 !! d) <-> d ∈ device_ids cfg) /\
     (is_Some (alert_windows s0 !! d) <-> d ∈ device_ids cfg)) /\
  (exists s', process_logs_iter s = (inl tt, s') /\
     dom (logs_cache s') = dom (logs_cache s) /\
     device_status s' = device_status s /\
     alert_windows s' = alert_windows s).
Proof.
  intros Hinit Hq Hget. split; [|split].
  - unfold LogAnalyzerPy.ingest. rewrite Hq, Hget.
    cbn [LogAnalyzerPy.log_queue LogAnalyzerPy.device_logs].
    rewrite dict_alter_app_fresh by exact Hget.
    split; [reflexivity|]. split; [reflexivity|].
    now apply dict_get_app_fresh.
  - intros d. apply init_some in Hinit. subst s0.
    cbn [logs_cache device_status alert_windows].
    rewrite !lookup_fold_insert.
    destruct (decide (d ∈ device_ids cfg)) as [Hd|Hd]; rewrite ?lookup_empty.
    + repeat split; intros _; eauto.
    + repeat split; intros H; try contradiction;
        destruct H as [x Hx]; discriminate.
  - destruct (log_queue s) as [|l q] eqn:E.
    + rewrite process_logs_iter_empty by exact E. eauto.
    + erewrite process_logs_iter_cons by exact E. eexists. split; [reflexivity|].
      unfold process_one. cbn [logs_cache set_log_queue].
      destruct (logs_cache s !! Log.device_id l) as [c|] eqn:Hc; cbn; [|auto].
      split; [|auto]. rewrite dom_insert_L.
      apply subseteq_union_1_L, singleton_subseteq_l, elem_of_dom. eauto.
Qed.

Lemma unseen_device_history_witness :
  LogAnalyzerPy.device_logs
    (LogAnalyzerPy.ingest (LogAnalyzerPy.start [Sample.log "device9" INFO]))
  = [("device9"%string, Deque.mk 100 [Sample.log "device9" INFO])].
Proof.
  destruct (unseen_device_history CONFIG Sample.fresh Sample.fresh
              (LogAnalyzerPy.start [Sample.log "device9" INFO])
              (Sample.log "device9" INFO) [])
    as ((_ & H & _) & _).
  - vm_compute. reflexivity.
  - reflexivity.
  - reflexivity.
  - exact H.
Defined.

(** C5 as stated fails on log_system.py: a log of the unseen device9 is
    taken from the queue by the processing loop, no history and no alert
    window is created for device9, and the histories are what they were. *)
Lemma unseen_device_gets_no_history :
  let s := set_log_queue [Sample.log "device9" ERROR] Sample.fresh in
  init CONFIG = Some Sample.fresh /\
  exists s', process_logs_iter s = (inl tt, s') /\
    log_queue s' = [] /\
    logs_cache s' !! "device9"%string = None /\
    alert_windows s' !! "device9"%string = None /\
    logs_cache s' = logs_cache Sample.fresh.
Proof.
  split; [vm_compute; reflexivity|].
  eexists. split; [vm_compute; reflexivity|].
  vm_compute. repeat split; reflexivity.
Qed.

(** C6 (as amended).  The configuration is not validated.  [LogAnalyzer()]
    fails exactly when devices are configured and one of the two deque
    capacities is negative ([ValueError]) or above [sys.maxsize]
    ([OverflowError]); the period and the threshold are not looked at.  So
    it succeeds for every configuration that the specification calls valid
    and whose two sizes are at most [sys.maxsize].  The shipped values of
    both files are of that kind. *)
Theorem startup_accepts cfg :
  (valid cfg ->
   (analysis_window cfg <= Deque.ssize_max)%Z ->
   (alert_window cfg <= Deque.ssize_max)%Z -> is_Some (init cfg)) /\
  (is_Some (init cfg) <->
   device_ids cfg = [] \/
   (0 <= analysis_window cfg <= Deque.ssize_max /\
    0 <= alert_window cfg <= Deque.ssize_max)%Z) /\
  valid CONFIG /\ is_Some (init CONFIG) /\
  (0 < LogAnalyzerPy.N <= Deque.ssize_max /\
   0 < LogAnalyzerPy.T /\ 0 < LogAnalyzerPy.S)%Z.
Proof.
  split; [|split; [|split; [|split]]].
  - intros (HN & _ & HS & _) HN' HS'. apply init_succeeds. right. lia.
  - apply init_succeeds.
  - unfold valid. cbn. repeat split; reflexivity.
  - vm_compute. eauto.
  - vm_compute. repeat split; discriminate.
Qed.

Lemma startup_accepts_witness : is_Some (init CONFIG).
Proof.
  apply (proj1 (startup_accepts CONFIG)).
  - unfold valid. cbn. repeat split; reflexivity.
  - vm_compute. discriminate.
  - vm_compute. discriminate.
Defined.

(** C6 as stated fails, both ways.  A history size of 0, a period of 0, an
    alert window of 0 and a threshold of 2 are accepted, and the analyzer
    built from them processes a log and completes an analysis cycle.  A
    history size of [sys.maxsize + 1] with the other values as shipped, which
    the specification calls valid, makes [LogAnalyzer()] fail. *)
Lemma invalid_configuration_accepted :
  ~ valid Sample.unchecked /\
  (analysis_window Sample.unchecked <= 0)%Z /\
  (analysis_interval Sample.unchecked <= 0)%Q /\
  (alert_window Sample.unchecked <= 0)%Z /\
  (1 <= alert_threshold Sample.unchecked)%Q /\
  (exists s0 s,
    init Sample.unchecked = Some s0 /\
    run Sample.unchecked Sample.clock
      [Put (Sample.log "device1" ERROR); Process; Analyze] s0 = (inl tt, s) /\
    log_queue s = []) /\
  valid Sample.oversized /\ init Sample.oversized = None.
Proof.
  split; [intros (H & _); vm_compute in H; discriminate|].
  split; [vm_compute; discriminate|].
  split; [vm_compute; discriminate|].
  split; [vm_compute; discriminate|].
  split; [vm_compute; discriminate|].
  split.
  - eexists _, _. split; [vm_compute; reflexivity|].
    split; vm_compute; reflexivity.
  - split; [|vm_compute; reflexivity].
    unfold valid. cbn. repeat split; reflexivity.
Qed.

(** ** Further properties of log_system.py *)

Import LogSystemMore.

(** *** The results of a cycle *)

Lemma has_data_after_cycle cfg clock k logs st w s d :
  has_data (after_cycle cfg clock k logs st w s) d = has_data s d.
Proof. reflexivity. Qed.

Lemma analyze_loop_results cfg clock ks s :
  wf cfg s -> (alert_window cfg <> 0)%Z ->
  (forall k, k ∈ ks -> k ∈ device_ids cfg) ->
  exists s' rs,
    for_each ks (analyze_device cfg clock) s = (inl tt, s') /\
    wf cfg s' /\ logs_cache s' = logs_cache s /\
    analysis_queue s' = analysis_queue s ++ rs /\
    map Result.device_id rs = List.filter (has_data s) ks /\
    Forall (fun r => (Result.error_ratio r, Result.warn_ratio r)
                     = ratios_of s (Result.device_id r)) rs /\
    (forall d, has_data s d = false ->
       alert_windows s' !! d = alert_windows s !! d /\
       device_status s' !! d = device_status s !! d).
Proof.
  intros Hwf HS. revert s Hwf.
  induction ks as [|k ks IH]; intros s Hwf Hks.
  - exists s, []. rewrite app_nil_r.
    split; [reflexivity|]. split; [exact Hwf|]. split; [reflexivity|].
    split; [reflexivity|]. split; [reflexivity|]. split; [constructor|auto].
  - assert (Hks' : forall k', k' ∈ ks -> k' ∈ device_ids cfg)
      by (intros k' Hk'; apply Hks; now right).
    destruct (analyze_device_cases cfg clock k s Hwf (Hks k ltac:(now left)) HS)
      as (c & st & w & Hc & Hst & Hw & Hb & Hm & [[He E]|[Hne E]]).
    + destruct (IH s Hwf Hks')
        as (s' & rs & E' & Hwf' & Hlc & Hq & Hids & Hr & Hu).
      exists s', rs. split; [cbn [for_each]; erewrite bind_ok by exact E; exact E'|].
      repeat (split; [assumption|]). split; [|split; [exact Hr|exact Hu]].
      cbn [List.filter]. unfold has_data at 1. now rewrite Hc, He.
    + set (s1 := after_cycle cfg clock k (Deque.items c) st w s) in *.
      assert (Hwf1 : wf cfg s1) by (now apply wf_after_cycle).
      destruct (IH s1 Hwf1 Hks')
        as (s' & rs & E' & Hwf' & Hlc & Hq & Hids & Hr & Hu).
      exists s', (result_out cfg clock k (Deque.items c) st w s :: rs).
      split; [cbn [for_each]; erewrite bind_ok by exact E; exact E'|].
      split; [exact Hwf'|]. split; [now rewrite Hlc|].
      split; [rewrite Hq; subst s1; cbn [after_cycle analysis_queue];
              now rewrite <- app_assoc|].
      split; [|split].
      * cbn [map List.filter]. unfold has_data at 1. rewrite Hc.
        destruct (Deque.items c) eqn:Ei; [congruence|].
        cbn [result_out Result.device_id]. f_equal. exact Hids.
      * constructor; [|exact Hr].
        cbn [result_out Result.device_id Result.error_ratio Result.warn_ratio].
        unfold ratios_of. now rewrite Hc.
      * intros d Hd. destruct (Hu d Hd) as [Hu1 Hu2]. rewrite Hu1, Hu2.
        assert (k <> d) as Hkd.
        { intros ->. unfold has_data in Hd. rewrite Hc in Hd.
          destruct (Deque.items c); [congruence|discriminate]. }
        subst s1. cbn [after_cycle alert_windows device_status].
        now rewrite !lookup_insert_ne by exact Hkd.
Qed.

(** X1.  A call of [analyze_logs] on a well-formed state puts on the
    analysis queue exactly one result for each configured device whose history
    is not empty, in the order of [CONFIG['device_ids']], with the ratios of
    that history; a device with an empty history is skipped, and its alert
    window and status are not touched. *)
Theorem one_result_per_device_with_data cfg clock s :
  wf cfg s -> (alert_window cfg <> 0)%Z ->
  exists s' rs,
    analyze_logs cfg clock s = (inl tt, s') /\
    analysis_queue s' = analysis_queue s ++ rs /\
    map Result.device_id rs = List.filter (has_data s) (device_ids cfg) /\
    Forall (fun r => (Result.error_ratio r, Result.warn_ratio r)
                     = ratios_of s (Result.device_id r)) rs /\
    (forall d, has_data s d = false ->
       alert_windows s' !! d = alert_windows s !! d /\
       device_status s' !! d = device_status s !! d).
Proof.
  intros Hwf HS.
  destruct (analyze_loop_results cfg clock (device_ids cfg) s Hwf HS)
    as (s' & rs & E & _ & _ & Hq & Hids & Hr & Hu); [auto|].
  exists s', rs. auto.
Qed.

Lemma one_result_per_device_with_data_witness :
  exists s' rs,
    analyze_logs CONFIG Sample.clock Sample.hot = (inl tt, s') /\
    analysis_queue s' = rs /\ map Result.device_id rs = ["device1"%string].
Proof.
  destruct (one_result_per_device_with_data CONFIG Sample.clock Sample.hot)
    as (s' & rs & E & Hq & Hids & _).
  - apply wfb_wf. vm_compute. reflexivity.
  - discriminate.
  - exists s', rs. split; [exact E|]. split; [exact Hq|]. exact Hids.
Defined.

(** *** What the analysis leaves alone *)

Lemma keeps_ret {A X : Type} (f : State -> X) (a : A) : keeps f (mret a).
Proof. intros s. reflexivity. Qed.

Lemma keeps_raise {A X : Type} (f : State -> X) e : keeps f (@raise A e).
Proof. intros s. reflexivity. Qed.

Lemma keeps_bind {A B X : Type} (f : State -> X) (m : M A) (k : A -> M B) :
  keeps f m -> (forall a, keeps f (k a)) -> keeps f (m ≫= k).
Proof.
  intros Hm Hk s. unfold mbind, M_bind. specialize (Hm s).
  destruct (m s) as [[a|e] s1]; cbn [snd] in *.
  - now rewrite Hk.
  - exact Hm.
Qed.

Lemma keeps_modify {X : Type} (f : State -> X) (g : State -> State) :
  (forall s, f (g s) = f s) -> keeps f (modify g).
Proof. intros H s. apply H. Qed.

Lemma keeps_truediv {X : Type} (f : State -> X) a b : keeps f (truediv a b).
Proof.
  unfold truediv. destruct (b =? 0)%Z; [apply keeps_raise|]. cbv zeta.
  destruct (Float.is_inf _); [apply keeps_raise|apply keeps_ret].
Qed.

Lemma keeps_float_truediv {X : Type} (f : State -> X) x n :
  keeps f (float_truediv x n).
Proof.
  unfold float_truediv. destruct (n =? 0)%Z; [apply keeps_raise|apply keeps_ret].
Qed.

Lemma keeps_get_logs_cache {X : Type} (f : State -> X) k :
  keeps f (get_logs_cache k).
Proof. intros s. unfold get_logs_cache. now destruct (_ !! _). Qed.

Lemma keeps_get_device_status {X : Type} (f : State -> X) k :
  keeps f (get_device_status k).
Proof. intros s. unfold get_device_status. now destruct (_ !! _). Qed.

Lemma keeps_get_alert_window {X : Type} (f : State -> X) k :
  keeps f (get_alert_window k).
Proof. intros s. unfold get_alert_window. now destruct (_ !! _). Qed.

Lemma keeps_for_each {X : Type} (f : State -> X) ks (body : string -> M ()) :
  (forall k, keeps f (body k)) -> keeps f (for_each ks body).
Proof.
  intros H. induction ks as [|k ks IH]; cbn [for_each].
  - apply keeps_ret.
  - apply keeps_bind; [apply H|intros _; exact IH].
Qed.

Ltac keeps_tac :=
  repeat first
    [ apply keeps_ret | apply keeps_raise | apply keeps_truediv
    | apply keeps_float_truediv
    | apply keeps_get_logs_cache | apply keeps_get_device_status
    | apply keeps_get_alert_window
    | apply keeps_modify; intros; reflexivity
    | (intros ?; reflexivity)
    | apply keeps_bind; [|intros]
    | match goal with
      | |- keeps _ (match ?x with _ => _ end) => destruct x
      | |- keeps _ (if ?x then _ else _) => destruct x
      end ].

Lemma keeps_log_queue_analyze_device cfg clock d :
  keeps log_queue (analyze_device cfg clock d).
Proof.
  unfold analyze_device, set_last_error, window_append, window_clear,
    append_alert, put_alert, put_analysis.
  keeps_tac.
Qed.

(** X2.  However a call of [analyze_logs] ends, with a result or with an
    exception, and whatever state it starts from, it leaves the histories and
    the log queue exactly as they were: analysis reads the histories and
    never consumes or alters a log. *)
Theorem analysis_leaves_histories_and_queue cfg clock s :
  logs_cache (snd (analyze_logs cfg clock s)) = logs_cache s /\
  log_queue (snd (analyze_logs cfg clock s)) = log_queue s.
Proof.
  split.
  - apply keeps_cache_analyze_logs.
  - apply (keeps_for_each log_queue). intros k.
    apply keeps_log_queue_analyze_device.
Qed.

(** *** An alert window of size 0 *)

Lemma bind_raise {A B : Type} (m : M A) (k : A -> M B) s e s' :
  m s = (inr e, s') -> (m ≫= k) s = (inr e, s').
Proof. intros H. unfold mbind, M_bind. now rewrite H. Qed.

Lemma float_truediv_zero x s :
  float_truediv x 0 s = (inr ZeroDivisionError, s).
Proof. reflexivity. Qed.

Lemma append_to_empty_capacity {A : Type} (x : A) (w : Deque.t A) :
  Deque.bounded w -> Deque.maxlen w = 0 -> Deque.len (Deque.append x w) = 0.
Proof.
  unfold Deque.bounded, Deque.len, Deque.append. cbn [Deque.items Deque.maxlen].
  intros Hb Hm. rewrite Hm in *.
  destruct (Deque.items w) as [|y l]; [reflexivity|cbn in Hb; lia].
Qed.

Lemma analyze_device_zero_window cfg clock d c st w s :
  alert_window cfg = 0%Z ->
  logs_cache s !! d = Some c -> device_status s !! d = Some st ->
  alert_windows s !! d = Some w ->
  Deque.bounded w -> Deque.maxlen w = 0 -> Deque.items c <> [] ->
  exists s', analyze_device cfg clock d s = (inr ZeroDivisionError, s') /\
    analysis_queue s' = analysis_queue s /\ alert_queue s' = alert_queue s.
Proof.
  intros HS Hc Hst Hw Hb Hm Hne.
  unfold analyze_device. mstep get_logs_cache_ok. cbv zeta.
  destruct (Deque.items c) as [|l0 ls] eqn:El; [congruence|]. clear Hne.
  rewrite <- El. set (logs := Deque.items c).
  assert (Hlen : length logs <> 0) by (subst logs; rewrite El; discriminate).
  do 2 mstep_div Hlen.
  destruct s as [lc ds aw lq aq alq cr].
  proj. cbn [logs_cache device_status alert_windows] in Hc, Hst, Hw.
  pose proof (append_to_empty_capacity
                (Float.quot (Z.of_nat (count (has_level ERROR) logs))
                            (Z.of_nat (length logs)))
                w Hb Hm) as Hl0.
  destruct (last (List.filter (has_level ERROR) logs)) as [e|];
    [mstep set_last_error_ok | mstep_refl];
    (mstep window_append_ok; mstep get_alert_window_ok;
     rewrite Hl0, HS; change (Z.of_nat 0 =? 0)%Z with true; cbv iota;
     rewrite ?bind_assoc; mstep get_alert_window_ok;
     rewrite ?bind_assoc;
     erewrite bind_raise by (apply float_truediv_zero);
     eexists; split; [reflexivity|]; split; reflexivity).
Qed.

Lemma analyze_loop_zero_window cfg clock ks s :
  wf cfg s -> alert_window cfg = 0%Z ->
  (forall k, k ∈ ks -> k ∈ device_ids cfg) ->
  (exists d, d ∈ ks /\ has_data s d = true) ->
  exists s', for_each ks (analyze_device cfg clock) s
             = (inr ZeroDivisionError, s') /\
    analysis_queue s' = analysis_queue s /\ alert_queue s' = alert_queue s.
Proof.
  intros Hwf HS. induction ks as [|k ks IH]; intros Hks (d & Hd & Hdata).
  - now apply elem_of_nil in Hd.
  - destruct (wf_cache _ _ Hwf k (Hks k ltac:(now left))) as (c & Hc & _ & _).
    destruct (wf_status _ _ Hwf k (Hks k ltac:(now left))) as (st & Hst).
    destruct (wf_window _ _ Hwf k (Hks k ltac:(now left))) as (w & Hw & Hb & Hm).
    cbn [for_each].
    destruct (Deque.items c) as [|l0 ls] eqn:El.
    + erewrite bind_ok by (now apply (analyze_device_empty _ _ _ c)).
      apply IH; [intros k' Hk'; apply Hks; now right|].
      exists d. split; [|exact Hdata].
      apply elem_of_cons in Hd. destruct Hd as [->|Hd]; [|exact Hd].
      unfold has_data in Hdata. rewrite Hc, El in Hdata. discriminate.
    + destruct (analyze_device_zero_window cfg clock k c st w s HS Hc Hst Hw Hb)
        as (s' & E & Hq1 & Hq2); [lia|rewrite El; discriminate|].
      exists s'. split; [now apply bind_raise|]. split; assumption.
Qed.

(** X3.  With [alert_window] configured as 0, a call of [analyze_logs] on a
    well-formed state in which some configured device has data raises
    [ZeroDivisionError] (the division of line 109), and nothing has been put
    on the analysis queue or on the alert queue when it does. *)
Theorem zero_alert_window_raises cfg clock s :
  wf cfg s -> alert_window cfg = 0%Z ->
  (exists d, d ∈ device_ids cfg /\ has_data s d = true) ->
  exists s', analyze_logs cfg clock s = (inr ZeroDivisionError, s') /\
    analysis_queue s' = analysis_queue s /\ alert_queue s' = alert_queue s.
Proof.
  intros Hwf HS Hd. now apply analyze_loop_zero_window.
Qed.

(** *** The window without a breach *)

(** X4.  When the alert window of a device is full and the mean that the
    source computes from its samples, the oldest dropped and this cycle's
    error ratio appended, is not above the threshold, the cycle raises no
    alert and the window rolls: the oldest sample is dropped and the new one
    is appended. *)
Theorem window_rolls_without_breach cfg clock d c st w s :
  wf cfg s -> d ∈ device_ids cfg -> (0 < alert_window cfg)%Z ->
  logs_cache s !! d = Some c -> device_status s !! d = Some st ->
  alert_windows s !! d = Some w -> Deque.items c <> [] ->
  Deque.len w = Deque.maxlen w ->
  let r := ratio ERROR (Deque.items c) in
  Float.ltb (Float.of_Q (alert_threshold cfg))
            (mean (tail (Deque.items w) ++ [r])) = false ->
  exists s' w',
    analyze_device cfg clock d s = (inl tt, s') /\
    alert_windows s' !! d = Some w' /\
    Deque.items w' = tail (Deque.items w) ++ [r] /\
    Deque.maxlen w' = Deque.maxlen w /\
    alert_queue s' = alert_queue s.
Proof.
  intros Hwf Hd HS Hc Hst Hw Hne Hfull r Hmean.
  destruct (wf_window _ _ Hwf d Hd) as (w0 & Hw0 & Hb & Hm).
  rewrite Hw in Hw0. injection Hw0 as <-.
  assert (Hitems : Deque.items (window_in (Deque.items c) w)
                   = tail (Deque.items w) ++ [r]).
  { unfold window_in, Deque.append. cbn [Deque.items]. fold r.
    unfold Deque.len in Hfull. rewrite length_app. cbn [length].
    destruct (Nat.ltb_spec (Deque.maxlen w) (length (Deque.items w) + 1)); [|lia].
    destruct (Deque.items w) as [|x l]; [cbn in Hfull; lia|reflexivity]. }
  assert (Hf : fires cfg (Deque.items c) w = false).
  { destruct (fires cfg (Deque.items c) w) eqn:Ef; [|reflexivity].
    apply fires_iff in Ef. destruct Ef as [_ Ef]. rewrite Hitems in Ef.
    congruence. }
  eexists _, _. split; [apply analyze_device_spec; try eassumption; lia|].
  cbn [after_cycle alert_windows alert_queue]. rewrite lookup_insert_eq.
  unfold window_out, new_alerts. rewrite Hf, app_nil_r.
  split; [reflexivity|]. split; [exact Hitems|]. split; reflexivity.
Qed.

(** *** How often a device can raise an alert *)

Lemma alerts_for_new_same cfg clock d logs w s :
  alerts_for d (new_alerts cfg clock d logs w s) = new_alerts cfg clock d logs w s.
Proof.
  unfold new_alerts. destruct (fires cfg logs w); [|reflexivity].
  cbn. now rewrite String.eqb_refl.
Qed.

Lemma potential_after_cycle cfg clock d logs st w s :
  alert_windows s !! d = Some w ->
  (alert_window cfg
   * Z.of_nat (length (alerts_for d (alert_queue (after_cycle cfg clock d logs st w s))))
   + Z.of_nat (window_len d (after_cycle cfg clock d logs st w s))
   <= alert_window cfg * Z.of_nat (length (alerts_for d (alert_queue s)))
      + Z.of_nat (window_len d s) + 1)%Z.
Proof.
  intros Hw. unfold window_len. cbn [after_cycle alert_queue alert_windows].
  rewrite lookup_insert_eq, Hw, alerts_for_app, alerts_for_new_same, length_app.
  unfold new_alerts, window_out.
  pose proof (len_window_in logs w) as Hlen.
  destruct (fires cfg logs w) eqn:Ef.
  - apply fires_iff in Ef. destruct Ef as [Ef _].
    unfold Deque.clear, Deque.len at 1. cbn [Deque.items length]. lia.
  - cbn [length]. lia.
Qed.

Lemma potential_analyze_loop cfg clock d ks s :
  wf cfg s -> (alert_window cfg <> 0)%Z ->
  (forall k, k ∈ ks -> k ∈ device_ids cfg) -> NoDup ks ->
  exists s', for_each ks (analyze_device cfg clock) s = (inl tt, s') /\
    wf cfg s' /\
    (alert_window cfg * Z.of_nat (length (alerts_for d (alert_queue s')))
     + Z.of_nat (window_len d s')
     <= alert_window cfg * Z.of_nat (length (alerts_for d (alert_queue s)))
        + Z.of_nat (window_len d s) + 1)%Z.
Proof.
  intros Hwf HS Hks Hnd. revert s Hwf.
  induction Hnd as [|k ks Hk Hnd IH]; intros s Hwf.
  - exists s. split; [reflexivity|]. split; [exact Hwf|lia].
  - assert (Hks' : forall k', k' ∈ ks -> k' ∈ device_ids cfg)
      by (intros k' Hk'; apply Hks; now right).
    destruct (analyze_device_cases cfg clock k s Hwf (Hks k ltac:(now left)) HS)
      as (c & st & w & Hc & Hst & Hw & Hb & Hm & [[_ E]|[_ E]]).
    + destruct (IH Hks' s Hwf) as (s' & E' & Hrest).
      exists s'. split; [|exact Hrest].
      cbn [for_each]. erewrite bind_ok by exact E. exact E'.
    + set (s1 := after_cycle cfg clock k (Deque.items c) st w s) in *.
      assert (Hwf1 : wf cfg s1) by (now apply wf_after_cycle).
      destruct (decide (k = d)) as [->|Hne].
      * pose proof (potential_after_cycle cfg clock d (Deque.items c) st w s Hw)
          as Hp. fold s1 in Hp.
        destruct (analyze_loop_other cfg clock d ks s1 Hwf1 HS Hks' Hk)
          as (s' & E' & Hwf' & Hl' & Ha').
        exists s'. split; [cbn [for_each]; erewrite bind_ok by exact E; exact E'|].
        split; [exact Hwf'|]. rewrite Hl', Ha'. exact Hp.
      * destruct (after_cycle_other cfg clock d k (Deque.items c) st w s Hne)
          as [Hlen Hq]. fold s1 in Hlen, Hq.
        destruct (IH Hks' s1 Hwf1) as (s' & E' & Hwf' & Hp).
        exists s'. split; [cbn [for_each]; erewrite bind_ok by exact E; exact E'|].
        split; [exact Hwf'|]. rewrite Hlen, Hq in Hp. exact Hp.
Qed.

Lemma potential_run cfg clock d evs s :
  wf cfg s -> (alert_window cfg <> 0)%Z -> NoDup (device_ids cfg) ->
  exists s', run cfg clock evs s = (inl tt, s') /\
    (alert_window cfg * Z.of_nat (length (alerts_for d (alert_queue s')))
     + Z.of_nat (window_len d s')
     <= alert_window cfg * Z.of_nat (length (alerts_for d (alert_queue s)))
        + Z.of_nat (window_len d s) + Z.of_nat (cycles evs))%Z.
Proof.
  intros Hwf HS Hnd. revert s Hwf.
  induction evs as [|ev evs IH]; intros s Hwf.
  - exists s. split; [reflexivity|]. cbn [cycles]. lia.
  - destruct ev as [log| |]; cbn [cycles].
    + destruct (IH (set_log_queue (log_queue s ++ [log]) s)) as (s' & E' & Hp).
      { now apply wf_set_log_queue. }
      exists s'. split; [|exact Hp].
      cbn [run step]. erewrite bind_ok by reflexivity. exact E'.
    + destruct (process_logs_iter_total s) as (s1 & E1).
      assert (Hwf1 : wf cfg s1) by (now apply (wf_process_logs_iter cfg s)).
      assert (Hsame : alert_windows s1 = alert_windows s /\
                      alert_queue s1 = alert_queue s).
      { destruct (log_queue s) as [|log rest] eqn:Hq.
        - rewrite process_logs_iter_empty in E1 by exact Hq.
          injection E1 as <-. auto.
        - erewrite process_logs_iter_cons in E1 by exact Hq.
          injection E1 as <-. unfold process_one. cbn.
          destruct (logs_cache s !! Log.device_id log); auto. }
      destruct Hsame as [Hw1 Hq1].
      destruct (IH s1 Hwf1) as (s' & E' & Hp).
      exists s'. split; [cbn [run step]; erewrite bind_ok by exact E1; exact E'|].
      unfold window_len in *. now rewrite Hw1, Hq1 in Hp.
    + destruct (potential_analyze_loop cfg clock d (device_ids cfg) s Hwf HS)
        as (s1 & E1 & Hwf1 & Hp1); [auto|exact Hnd|].
      destruct (IH s1 Hwf1) as (s' & E' & Hp).
      exists s'. split.
      * cbn [run step]. unfold analyze_logs. erewrite bind_ok by exact E1. exact E'.
      * lia.
Qed.

(** X5.  A run of a freshly built analyzer whose configured device ids are
    distinct raises, for each device, at most one alert per [alert_window]
    analysis cycles: the number of alerts of the device on the alert queue
    times [alert_window] never exceeds the number of cycles run. *)
Theorem alert_rate_bound cfg clock d s0 evs :
  init cfg = Some s0 -> NoDup (device_ids cfg) -> (0 < alert_window cfg)%Z ->
  exists s, run cfg clock evs s0 = (inl tt, s) /\
    (alert_window cfg * Z.of_nat (length (alerts_for d (alert_queue s)))
     <= Z.of_nat (cycles evs))%Z.
Proof.
  intros Hi Hnd HS.
  destruct (potential_run cfg clock d evs s0) as (s & E & Hp);
    [now apply init_wf|lia|exact Hnd|].
  exists s. split; [exact E|].
  pose proof (quiet_init cfg d s0 Hi) as [_ _ Q3 _ Q5].
  rewrite Q5 in Hp. cbn [length] in Hp.
  assert (window_len d s0 = 0) as Hw0.
  { unfold window_len. apply init_some in Hi. subst s0. cbn [alert_windows].
    rewrite lookup_fold_insert. destruct (decide _); [reflexivity|].
    now rewrite lookup_empty. }
  rewrite Hw0 in Hp. lia.
Qed.

(** *** The alerts that are raised *)

Lemma alerts_ok_after_cycle cfg clock k logs st w s :
  k ∈ device_ids cfg -> device_status s !! k = Some st ->
  alerts_ok cfg s -> alerts_ok cfg (after_cycle cfg clock k logs st w s).
Proof.
  intros Hk Hst [H1 H2]. split; cbn [after_cycle alert_queue device_status].
  - apply Forall_app. split; [exact H1|].
    unfold new_alerts. destruct (fires cfg logs w); constructor; [|constructor].
    cbn. auto.
  - intros d st'. rewrite alerts_for_app.
    destruct (decide (k = d)) as [<-|Hne].
    + rewrite lookup_insert_eq. intros [= <-]. cbn [status_out alerts].
      rewrite alerts_for_new_same. f_equal. now apply H2.
    + rewrite lookup_insert_ne by exact Hne. intros Hd.
      rewrite alerts_for_new_other by exact Hne. rewrite app_nil_r. now apply H2.
Qed.

Lemma alerts_ok_step cfg clock ev s :
  (alert_window cfg <> 0)%Z -> wf cfg s /\ alerts_ok cfg s ->
  exists s', step cfg clock ev s = (inl tt, s') /\ (wf cfg s' /\ alerts_ok cfg s').
Proof.
  intros HS [Hwf Hok]. destruct ev as [log| |]; cbn [step].
  - eexists. split; [reflexivity|]. split; [now apply wf_set_log_queue|].
    destruct Hok as [H1 H2]. split; assumption.
  - destruct (log_queue s) as [|log rest] eqn:E.
    + rewrite process_logs_iter_empty by exact E. eauto.
    + erewrite process_logs_iter_cons by exact E.
      eexists. split; [reflexivity|].
      split; [now apply wf_process_one, wf_set_log_queue|].
      destruct Hok as [H1 H2]. unfold process_one. cbn [logs_cache set_log_queue].
      destruct (logs_cache s !! Log.device_id log); split; assumption.
  - unfold analyze_logs.
    apply (for_each_inv (fun s' => wf cfg s' /\ alerts_ok cfg s')); [auto|].
    intros k s0 Hk [Hwf0 Hok0].
    destruct (analyze_device_cases cfg clock k s0 Hwf0 Hk HS)
      as (c & st & w & Hc & Hst & Hw & Hb & Hm & [[_ ->]|[Hne ->]]).
    + eauto.
    + eexists. split; [reflexivity|].
      split; [now apply wf_after_cycle|now apply alerts_ok_after_cycle].
Qed.

(** X6.  In every state that a run of a freshly built analyzer reaches,
    each alert on the alert queue is about a configured device, has severity
    CRITICAL and carries the message built from its device id, and the alerts
    kept in [device_status] for a device are exactly the alerts of that device
    on the queue, in the order they were raised. *)
Theorem alerts_are_recorded cfg clock s0 evs :
  init cfg = Some s0 -> (0 < alert_window cfg)%Z ->
  exists s, run cfg clock evs s0 = (inl tt, s) /\
    Forall (fun a =>
      Alert.device_id a ∈ device_ids cfg /\
      Alert.severity a = "CRITICAL"%string /\
      Alert.message a = alert_message (Alert.device_id a)) (alert_queue s) /\
    (forall d st, device_status s !! d = Some st ->
       alerts st = alerts_for d (alert_queue s)).
Proof.
  intros Hi HS.
  destruct (run_inv (fun s => wf cfg s /\ alerts_ok cfg s) (fun _ => True)
              cfg clock evs s0) as (s & E & _ & [H1 H2]).
  - split; [now apply init_wf|]. pose proof (quiet_init cfg "" s0 Hi) as Hq.
    apply init_some in Hi. subst s0. split; cbn [alert_queue device_status].
    + constructor.
    + intros d st. rewrite lookup_fold_insert. destruct (decide _).
      * now intros [= <-].
      * now rewrite lookup_empty.
  - apply Forall_forall. trivial.
  - intros ev s1 _ Hs1. apply alerts_ok_step; [lia|exact Hs1].
  - exists s. auto.
Qed.

(** *** A turn of the processing loop *)

(** X7.  A turn of the processing loop never raises: with an empty queue
    it changes nothing, and when the log it takes from the queue names a device
    without a history, the [KeyError] is swallowed by the bare [except], so
    the log is gone from the queue and nothing else has changed. *)
Theorem processing_turn_never_raises s :
  (exists s', process_logs_iter s = (inl tt, s')) /\
  (log_queue s = [] -> process_logs_iter s = (inl tt, s)) /\
  (forall log rest,
     log_queue s = log :: rest -> logs_cache s !! Log.device_id log = None ->
     process_logs_iter s = (inl tt, set_log_queue rest s)).
Proof.
  split; [apply process_logs_iter_total|]. split.
  - apply process_logs_iter_empty.
  - intros log rest Hq Hc. erewrite process_logs_iter_cons by exact Hq.
    unfold process_one. cbn [logs_cache set_log_queue]. now rewrite Hc.
Qed.

(** X8.  On a well-formed state, as many turns of the processing loop as
    there are logs waiting empty the queue, and the history of each configured
    device then holds the last [analysis_window] entries of what it held
    followed by the logs of that device from the queue, in queue order; no log
    of another device has entered it. *)
Theorem drained_queue_fills_histories cfg s d :
  wf cfg s -> d ∈ device_ids cfg ->
  exists s' c0 c,
    process_logs (length (log_queue s)) s = (inl tt, s') /\
    log_queue s' = [] /\
    logs_cache s !! d = Some c0 /\ logs_cache s' !! d = Some c /\
    Deque.items c =
      Deque.lastn (Z.to_nat (analysis_window cfg))
        (Deque.items c0 ++
         List.filter (fun l => String.eqb (Log.device_id l) d) (log_queue s)).
Proof.
  intros Hwf Hd.
  destruct (wf_cache _ _ Hwf d Hd) as (c0 & Hc0 & Hb & Hm).
  destruct (process_logs_drains s) as (s' & E & Hq & Hc).
  exists s', c0, (Deque.extend
    (List.filter (fun l => String.eqb (Log.device_id l) d) (log_queue s)) c0).
  split; [exact E|]. split; [exact Hq|]. split; [exact Hc0|].
  split; [now rewrite Hc, Hc0|].
  rewrite items_extend by exact Hb. now rewrite Hm.
Qed.

(** ** The dashboard of log_system.py *)

Section dashboard_facts.
Import Dashboard.

Lemma dash_ok_init cfg : dash_ok (Dashboard.init cfg).
Proof.
  split; cbn.
  - intros k ser. rewrite lookup_fold_insert. destruct (decide _).
    + intros [= <-]. cbn. lia.
    + now rewrite lookup_empty.
  - lia.
Qed.

Lemma dash_ok_take_result s d :
  dash_ok d -> dash_ok (snd (take_result s d)).
Proof.
  intros [H1 H2]. unfold take_result.
  destruct (analysis_queue s) as [|r rest]; [now split|].
  destruct (analysis_data d !! Result.device_id r) as [ser|] eqn:E; [|now split].
  destruct (H1 _ _ E) as (He & Hw & Hb).
  split; cbn [snd analysis_data Dashboard.alerts]; [|exact H2].
  intros k ser'. destruct (decide (Result.device_id r = k)) as [<-|Hne].
  - rewrite lookup_insert_eq. intros [= <-].
    rewrite !length_app. cbn [length].
    destruct (Nat.ltb_spec 20 (length (timestamps ser) + 1));
      cbn [timestamps error_ratios warn_ratios].
    + destruct (timestamps ser), (error_ratios ser), (warn_ratios ser);
        cbn in *; try lia. rewrite !length_app. cbn. lia.
    + rewrite !length_app. cbn. lia.
  - rewrite lookup_insert_ne by exact Hne. apply H1.
Qed.

Lemma dash_ok_take_alert s d :
  dash_ok d -> dash_ok (snd (take_alert s d)).
Proof.
  intros [H1 H2]. unfold take_alert.
  destruct (alert_queue s) as [|a rest]; [now split|].
  split; cbn [snd analysis_data Dashboard.alerts]; [exact H1|].
  rewrite length_app. cbn [length].
  destruct (Nat.ltb_spec 5 (length (Dashboard.alerts d) + 1)).
  - destruct (Dashboard.alerts d); cbn in *; [lia|]. rewrite length_app. cbn. lia.
  - rewrite length_app. cbn. lia.
Qed.

Lemma dash_ok_iter sd : dash_ok (snd sd) -> dash_ok (snd (process_queues_iter sd)).
Proof.
  intros H. unfold process_queues_iter.
  pose proof (dash_ok_take_result (fst sd) (snd sd) H) as H1.
  destruct (take_result (fst sd) (snd sd)) as [s1 d1]. cbn [snd] in H1.
  now apply dash_ok_take_alert.
Qed.

(** X9.  Whatever the queues hold at each turn of [process_queues], the
    dashboard built by [__init__] keeps, for every device, three series of one
    and the same length, at most 20 points long, and keeps at most 5 alerts. *)
Theorem dashboard_series_aligned_and_bounded cfg states :
  let d := after_turns cfg states in
  (forall k ser, analysis_data d !! k = Some ser ->
     length (error_ratios ser) = length (timestamps ser) /\
     length (warn_ratios ser) = length (timestamps ser) /\
     length (timestamps ser) <= 20) /\
  length (Dashboard.alerts d) <= 5.
Proof.
  intros d.
  assert (H : dash_ok d).
  { subst d. unfold after_turns. generalize (dash_ok_init cfg).
    generalize (Dashboard.init cfg). induction states as [|s ss IH]; intros d0 H0.
    - exact H0.
    - cbn [fold_left]. apply IH. now apply (dash_ok_iter (s, d0)). }
  destruct H as [H1 H2]. split; assumption.
Qed.

Lemma pop_front_lastn {A : Type} n (l : list A) x :
  length l <= n ->
  (if n <? length (l ++ [x]) then tail (l ++ [x]) else l ++ [x])
  = Deque.lastn n (l ++ [x]).
Proof.
  intros H. apply (items_append x (Deque.mk n l)). exact H.
Qed.

Lemma lastn_id {A : Type} n (l : list A) : length l <= n -> Deque.lastn n l = l.
Proof.
  intros H. unfold Deque.lastn. now replace (length l - n) with 0 by lia.
Qed.

Lemma process_queues_iter_spec s d :
  dash_ok d ->
  exists s1 d1, process_queues_iter (s, d) = (s1, d1) /\
    analysis_queue s1 = tail (analysis_queue s) /\
    alert_queue s1 = tail (alert_queue s) /\
    shows 1 s d d1.
Proof.
  intros [H1 H2]. unfold process_queues_iter, take_result, take_alert, shows.
  cbn [fst snd].
  assert (Hal : forall s0 : State, alert_queue s0 = alert_queue s -> forall ad,
    exists s1 d1,
      match alert_queue s0 with
      | [] => (s0, {| analysis_data := ad; alerts := Dashboard.alerts d |})
      | alert :: rest =>
          (set_alert_queue rest s0,
           {| analysis_data := ad;
              alerts := if 5 <? length (Dashboard.alerts d ++ [alert])
                        then tail (Dashboard.alerts d ++ [alert])
                        else Dashboard.alerts d ++ [alert] |})
      end = (s1, d1) /\
      analysis_queue s1 = analysis_queue s0 /\
      alert_queue s1 = tail (alert_queue s) /\
      analysis_data d1 = ad /\
      Dashboard.alerts d1
      = Deque.lastn 5 (Dashboard.alerts d ++ take 1 (alert_queue s))).
  { intros s0 E ad. rewrite E. destruct (alert_queue s) as [|a rest].
    - eexists _, _. split; [reflexivity|]. cbn. rewrite app_nil_r.
      rewrite lastn_id by exact H2. auto.
    - eexists _, _. split; [reflexivity|]. cbn [analysis_queue alert_queue
        set_alert_queue analysis_data Dashboard.alerts tail take].
      rewrite pop_front_lastn by exact H2. auto. }
  destruct (analysis_queue s) as [|r rest] eqn:Eq.
  - destruct d as [ad al]. cbn [analysis_data Dashboard.alerts] in *.
    destruct (Hal s eq_refl ad) as (s1 & d1 & E & Ha & Hb & Hc & Hd).
    exists s1, d1. split; [exact E|]. rewrite Ha, Eq. split; [reflexivity|].
    split; [exact Hb|]. split; [exact Hd|]. rewrite Hc. intros k.
    destruct (ad !! k) as [ser|] eqn:Ek; [|reflexivity].
    exists ser. split; [reflexivity|]. cbn. rewrite !app_nil_r.
    destruct (H1 _ _ Ek) as (He & Hw & Hb'). rewrite !lastn_id by lia. auto.
  - destruct (analysis_data d !! Result.device_id r) as [ser|] eqn:Er.
    + destruct (H1 _ _ Er) as (He & Hw & Hb').
      match goal with |- context [<[_ := ?x]> (analysis_data d)] => set (ser' := x) end.
      destruct (Hal (set_analysis_queue rest s) eq_refl
                  (<[Result.device_id r := ser']> (analysis_data d)))
        as (s1 & d1 & E & Ha & Hb & Hc & Hd).
      exists s1, d1. split; [exact E|]. rewrite Ha. split; [reflexivity|].
      split; [exact Hb|]. split; [exact Hd|]. rewrite Hc. intros k.
      destruct (decide (Result.device_id r = k)) as [<-|Hne].
      * rewrite Er, lookup_insert_eq. exists ser'. split; [reflexivity|].
        unfold results_for. cbn [take List.filter]. rewrite String.eqb_refl.
        rewrite take_0. cbn [map List.filter]. subst ser'.
        rewrite length_app. cbn [length].
        rewrite <- !pop_front_lastn by lia. rewrite !length_app, He, Hw. cbn [length].
        destruct (20 <? length (timestamps ser) + 1);
          cbn [timestamps error_ratios warn_ratios]; auto.
      * rewrite lookup_insert_ne by exact Hne.
        destruct (analysis_data d !! k) as [ser0|] eqn:Ek; [|reflexivity].
        exists ser0. split; [reflexivity|].
        unfold results_for. cbn [take List.filter].
        destruct (String.eqb_spec (Result.device_id r) k); [contradiction|].
        rewrite take_0. cbn. rewrite !app_nil_r.
        destruct (H1 _ _ Ek) as (He0 & Hw0 & Hb0). rewrite !lastn_id by lia. auto.
    + destruct d as [ad al]. cbn [analysis_data Dashboard.alerts] in *.
      destruct (Hal (set_analysis_queue rest s) eq_refl ad)
        as (s1 & d1 & E & Ha & Hb & Hc & Hd).
      exists s1, d1. split; [exact E|]. rewrite Ha. split; [reflexivity|].
      split; [exact Hb|]. split; [exact Hd|]. rewrite Hc. intros k.
      destruct (ad !! k) as [ser|] eqn:Ek; [|reflexivity].
      exists ser. split; [reflexivity|].
      unfold results_for. cbn [take List.filter].
      destruct (String.eqb_spec (Result.device_id r) k); [congruence|].
      rewrite take_0. cbn. rewrite !app_nil_r.
      destruct (H1 _ _ Ek) as (He0 & Hw0 & Hb0). rewrite !lastn_id by lia. auto.
Qed.

Lemma take_1_tail {A : Type} n (l : list A) :
  take 1 l ++ take n (tail l) = take (S n) l.
Proof. destruct l; [now destruct n|reflexivity]. Qed.

Lemma shows_compose n s s1 d d1 d' :
  analysis_queue s1 = tail (analysis_queue s) ->
  alert_queue s1 = tail (alert_queue s) ->
  shows 1 s d d1 -> shows n s1 d1 d' -> shows (S n) s d d'.
Proof.
  intros Ha Hb [A1 S1] [A2 S2]. split.
  - rewrite A2, A1, Hb, lastn_app_lastn_l, <- app_assoc. now rewrite take_1_tail.
  - intros k. specialize (S1 k). specialize (S2 k).
    destruct (analysis_data d !! k) as [ser|].
    + destruct S1 as (ser1 & E1 & T1 & R1 & W1). rewrite E1 in S2.
      destruct S2 as (ser2 & E2 & T2 & R2 & W2).
      exists ser2. split; [exact E2|]. cbv zeta in *.
      rewrite T2, R2, W2, T1, R1, W1, Ha, !lastn_app_lastn_l, <- !app_assoc.
      rewrite <- !map_app. unfold results_for. rewrite <- !List.filter_app.
      now rewrite take_1_tail.
    + now rewrite S1 in S2.
Qed.

Lemma process_queues_spec n s d :
  dash_ok d ->
  exists s' d', process_queues n (s, d) = (s', d') /\
    analysis_queue s' = drop n (analysis_queue s) /\
    alert_queue s' = drop n (alert_queue s) /\
    shows n s d d'.
Proof.
  revert s d. induction n as [|n IH]; intros s d Hok.
  - exists s, d. split; [reflexivity|]. split; [reflexivity|]. split; [reflexivity|].
    destruct Hok as [H1 H2]. split.
    + rewrite take_0, app_nil_r. now rewrite lastn_id.
    + intros k. destruct (analysis_data d !! k) as [ser|] eqn:Ek; [|reflexivity].
      exists ser. split; [reflexivity|]. rewrite take_0. cbn. rewrite !app_nil_r.
      destruct (H1 _ _ Ek) as (He & Hw & Hb). rewrite !lastn_id by lia. auto.
  - destruct (process_queues_iter_spec s d Hok) as (s1 & d1 & E1 & Ha & Hb & Hs).
    assert (Hok1 : dash_ok d1).
    { pose proof (dash_ok_iter (s, d) Hok) as H. now rewrite E1 in H. }
    destruct (IH s1 d1 Hok1) as (s' & d' & E' & Ha' & Hb' & Hs').
    exists s', d'. cbn [process_queues]. rewrite E1. split; [exact E'|].
    split; [rewrite Ha', Ha; destruct (analysis_queue s); [cbn [tail]; now rewrite !drop_nil|reflexivity]|].
    split; [rewrite Hb', Hb; destruct (alert_queue s); [cbn [tail]; now rewrite !drop_nil|reflexivity]|].
    now apply (shows_compose n s s1 d d1 d').
Qed.

(** X10.  [n] turns of [process_queues] on a dashboard just built take
    the first [n] results and the first [n] alerts from the queues.  The
    dashboard then holds the last 5 of those alerts and, for a configured
    device, the timestamps, error ratios and warn ratios of the last 20 of
    those results that are about the device, oldest first. *)
Theorem dashboard_shows_latest cfg s n k :
  k ∈ device_ids cfg ->
  exists s' d' ser,
    process_queues n (s, Dashboard.init cfg) = (s', d') /\
    analysis_queue s' = drop n (analysis_queue s) /\
    alert_queue s' = drop n (alert_queue s) /\
    Dashboard.alerts d' = Deque.lastn 5 (take n (alert_queue s)) /\
    analysis_data d' !! k = Some ser /\
    let rs := results_for k (take n (analysis_queue s)) in
    timestamps ser = Deque.lastn 20 (map Result.timestamp rs) /\
    error_ratios ser = Deque.lastn 20 (map Result.error_ratio rs) /\
    warn_ratios ser = Deque.lastn 20 (map Result.warn_ratio rs).
Proof.
  intros Hk.
  destruct (process_queues_spec n s (Dashboard.init cfg) (dash_ok_init cfg))
    as (s' & d' & E & Ha & Hb & Hal & Hs).
  specialize (Hs k). cbn [Dashboard.init analysis_data] in Hs.
  rewrite lookup_fold_insert, decide_True in Hs by exact Hk.
  destruct Hs as (ser & Es & Hser).
  exists s', d', ser. repeat (split; [assumption|]). exact Hser.
Qed.

Lemma string_length_app (a b : string) :
  String.length (a +:+ b) = String.length a + String.length b.
Proof.
  induction a as [|c a IH]; [reflexivity|].
  change (S (String.length (a +:+ b)) = S (String.length a + String.length b)).
  now rewrite IH.
Qed.

Lemma alert_text_from device_id alerts text0 :
  let text := fold_left (fun text alert =>
    if String.eqb (Alert.device_id alert) device_id
    then text +:+ Alert.timestamp alert +:+ ": " +:+ Alert.message alert +:+ nl
    else text) alerts text0 in
  (alerts_for device_id alerts = [] -> text = text0) /\
  (alerts_for device_id alerts <> [] ->
     String.length text0 + 3 <= String.length text).
Proof.
  revert text0. induction alerts as [|a al IH]; intros text0; cbn zeta.
  - split; [reflexivity|]. intros H. now contradiction H.
  - cbn [fold_left]. unfold alerts_for. cbn [List.filter].
    destruct (String.eqb (Alert.device_id a) device_id).
    + split; [discriminate|]. intros _.
      set (t1 := (text0 +:+ Alert.timestamp a +:+ ": " +:+ Alert.message a +:+ nl)%string).
      assert (H1 : String.length text0 + 3 <= String.length t1).
      { subst t1. rewrite !string_length_app. cbn. lia. }
      destruct (IH t1) as [Hn Hs]. fold (alerts_for device_id al) in *.
      destruct (alerts_for device_id al) eqn:E.
      * now rewrite Hn.
      * specialize (Hs ltac:(discriminate)). lia.
    + apply IH.
Qed.

(** X11.  The text that [update_plots] draws for a device is
    "No recent alerts" exactly when none of the alerts kept by the dashboard
    is about that device. *)
Theorem no_recent_alerts_iff device_id alerts :
  shown_text device_id alerts = "No recent alerts"%string <->
  Forall (fun a => Alert.device_id a <> device_id) alerts.
Proof.
  rewrite <- alerts_for_nil. unfold shown_text, alert_text.
  destruct (alert_text_from device_id alerts ("Recent Alerts:" +:+ nl)%string)
    as [Hn Hs]. cbv zeta in *.
  destruct (alerts_for device_id alerts) eqn:E.
  - rewrite Hn by reflexivity. rewrite String.eqb_refl. split; reflexivity.
  - specialize (Hs ltac:(discriminate)).
    set (text := fold_left _ _ _) in *. split; [|discriminate].
    destruct (String.eqb_spec text ("Recent Alerts:" +:+ nl)%string) as [Et|Et].
    + rewrite Et in Hs. vm_compute in Hs. lia.
    + intros Ht. rewrite Ht in Hs. vm_compute in Hs. lia.
Qed.

End dashboard_facts.

(** ** Further properties of log_analyzer.py *)

Import LogAnalyzerMore.

(** X12.  A history never holds more than [N] = [S * 10] logs, so the
    slice [recent_logs] is the whole history: in the analysis of a device with
    data [log_analyzer] publishes one result with the ratios of the history,
    and puts an alert for the device on the alert queue exactly when the
    published error ratio is above one half, every turn anew. *)
Theorem log_analyzer_alert_iff_ratio_above_half clock d logs s :
  logs <> [] -> length logs <= Z.to_nat LogAnalyzerPy.N ->
  let s' := LogAnalyzerPy.analyze_device clock d logs s in
  exists r,
    LogAnalyzerPy.analysis_queue s' = LogAnalyzerPy.analysis_queue s ++ [r] /\
    LogAnalyzerPy.r_device_id r = d /\
    LogAnalyzerPy.r_error_ratio r = ratio ERROR logs /\
    LogAnalyzerPy.r_warn_ratio r = ratio WARN logs /\
    (Float.ltb (Float.of_Q (1 # 2)) (LogAnalyzerPy.r_error_ratio r) = true ->
       exists a, LogAnalyzerPy.alert_queue s' = LogAnalyzerPy.alert_queue s ++ [a] /\
                 LogAnalyzerPy.a_device_id a = d) /\
    (Float.ltb (Float.of_Q (1 # 2)) (LogAnalyzerPy.r_error_ratio r) <> true ->
       LogAnalyzerPy.alert_queue s' = LogAnalyzerPy.alert_queue s).
Proof.
  intros Hne Hlen s'. subst s'. unfold LogAnalyzerPy.analyze_device.
  destruct logs as [|l0 ls] eqn:El; [congruence|]. rewrite <- El in *.
  assert (Hrecent : Deque.lastn (Z.to_nat (LogAnalyzerPy.S * 10)) logs = logs).
  { apply lastn_id. exact Hlen. }
  cbv zeta. rewrite Hrecent.
  assert (Hpos : (0 <? length logs) = true).
  { apply Nat.ltb_lt. rewrite El. cbn. lia. }
  rewrite Hpos. cbn [andb LogAnalyzerPy.analysis_queue LogAnalyzerPy.alert_queue].
  eexists. split; [reflexivity|]. cbn [LogAnalyzerPy.r_device_id
    LogAnalyzerPy.r_error_ratio LogAnalyzerPy.r_warn_ratio].
  split; [reflexivity|]. split; [reflexivity|]. split; [reflexivity|].
  fold (ratio ERROR logs).
  destruct (Float.ltb (Float.of_Q (1 # 2)) (ratio ERROR logs)) eqn:E.
  - split; [intros _; eexists; split; reflexivity|].
    intros Hn. contradiction.
  - split; [|intros _; apply app_nil_r].
    intros Hlt. discriminate.
Qed.

Lemma dict_get_alter_same f key dl c :
  LogAnalyzerPy.dict_get key dl = Some c ->
  LogAnalyzerPy.dict_get key (LogAnalyzerPy.dict_alter f key dl) = Some (f c).
Proof.
  induction dl as [|[k v] dl IH]; cbn; [discriminate|].
  destruct (String.eqb k key) eqn:E; cbn; rewrite E; [now intros [= ->]|exact IH].
Qed.

Lemma dict_get_alter_other f key key' dl :
  key' <> key ->
  LogAnalyzerPy.dict_get key' (LogAnalyzerPy.dict_alter f key dl)
  = LogAnalyzerPy.dict_get key' dl.
Proof.
  intros Hne. induction dl as [|[k v] dl IH]; cbn; [reflexivity|].
  destruct (String.eqb_spec k key) as [->|Hk]; cbn.
  - destruct (String.eqb_spec key key'); [congruence|reflexivity].
  - now rewrite IH.
Qed.

Lemma dict_alter_keys f key dl :
  map fst (LogAnalyzerPy.dict_alter f key dl) = map fst dl.
Proof.
  induction dl as [|[k v] dl IH]; cbn; [reflexivity|].
  destruct (String.eqb k key); cbn; [reflexivity|now rewrite IH].
Qed.

(** X13.  When the log taken from the queue is of a device that already has
    a history, [log_analyzer] appends it to that history, evicting the oldest
    entry of a full one; the devices keep their order in [device_logs] and
    every other history is unchanged. *)
Theorem seen_device_log_is_appended (la : LogAnalyzerPy.State) log rest c :
  LogAnalyzerPy.log_queue la = log :: rest ->
  LogAnalyzerPy.dict_get (Log.device_id log) (LogAnalyzerPy.device_logs la) = Some c ->
  let la' := LogAnalyzerPy.ingest la in
  LogAnalyzerPy.log_queue la' = rest /\
  LogAnalyzerPy.dict_get (Log.device_id log) (LogAnalyzerPy.device_logs la')
  = Some (Deque.append log c) /\
  map fst (LogAnalyzerPy.device_logs la') = map fst (LogAnalyzerPy.device_logs la) /\
  (forall k, k <> Log.device_id log ->
     LogAnalyzerPy.dict_get k (LogAnalyzerPy.device_logs la')
     = LogAnalyzerPy.dict_get k (LogAnalyzerPy.device_logs la)).
Proof.
  intros Hq Hc la'. subst la'. unfold LogAnalyzerPy.ingest. rewrite Hq, Hc.
  cbn [LogAnalyzerPy.log_queue LogAnalyzerPy.device_logs].
  split; [reflexivity|]. split; [now apply dict_get_alter_same|].
  split; [apply dict_alter_keys|]. intros k Hk. now apply dict_get_alter_other.
Qed.

Lemma dict_get_none_keys key dl :
  LogAnalyzerPy.dict_get key dl = None <-> key ∉ map fst dl.
Proof.
  induction dl as [|[k v] dl IH]; cbn.
  - split; [intros _ H; now apply elem_of_nil in H|reflexivity].
  - destruct (String.eqb_spec k key) as [->|Hk].
    + split; [discriminate|]. intros H. exfalso. apply H. now left.
    + rewrite IH. split.
      * intros H [E|H']%elem_of_cons; [congruence|contradiction].
      * intros H H'. apply H. now right.
Qed.

Lemma logs_seen_ingest s :
  logs_seen (LogAnalyzerPy.device_logs s) ->
  logs_seen (LogAnalyzerPy.device_logs (LogAnalyzerPy.ingest s)).
Proof.
  intros [H1 H2]. unfold LogAnalyzerPy.ingest.
  destruct (LogAnalyzerPy.log_queue s) as [|log rest]; [now split|].
  cbn [LogAnalyzerPy.device_logs].
  assert (Halter : forall dl,
    Forall (fun kv => Deque.items (snd kv) <> []) dl ->
    Forall (fun kv => Deque.items (snd kv) <> [])
      (LogAnalyzerPy.dict_alter (Deque.append log) (Log.device_id log) dl)).
  { induction 1 as [|[k v] dl Hkv Hdl IH]; cbn; [constructor|].
    destruct (String.eqb k (Log.device_id log)); constructor; try assumption.
    cbn [snd] in *. unfold Deque.append. cbn [Deque.items].
    destruct (Deque.items v) as [|y l]; [congruence|].
    destruct (_ <? _); cbn; [destruct l|]; discriminate. }
  destruct (LogAnalyzerPy.dict_get _ _) eqn:E.
  - split; [now apply Halter|]. now rewrite dict_alter_keys.
  - rewrite dict_alter_app_fresh by exact E. split.
    + apply Forall_app. split; [exact H1|]. constructor; [|constructor].
      cbn. discriminate.
    + rewrite map_app. cbn. apply NoDup_app. split; [exact H2|].
      split; [|apply NoDup_singleton].
      intros k Hk Hk'. apply list_elem_of_singleton in Hk'. subst k.
      now apply dict_get_none_keys in E.
Qed.

Lemma la_analyze_device_result clock k logs s :
  logs <> [] ->
  exists r,
    LogAnalyzerPy.analysis_queue (LogAnalyzerPy.analyze_device clock k logs s)
    = LogAnalyzerPy.analysis_queue s ++ [r] /\
    LogAnalyzerPy.r_device_id r = k.
Proof.
  intros Hne. unfold LogAnalyzerPy.analyze_device.
  destruct logs; [congruence|]. eexists. split; reflexivity.
Qed.

Lemma la_analysis_results clock (dl : list (string * Deque.t Log.t)) s :
  Forall (fun kv => Deque.items (snd kv) <> []) dl ->
  exists rs,
    LogAnalyzerPy.analysis_queue
      (fold_left (fun acc kv =>
         LogAnalyzerPy.analyze_device clock (fst kv) (Deque.items (snd kv)) acc)
         dl s)
    = LogAnalyzerPy.analysis_queue s ++ rs /\
    map LogAnalyzerPy.r_device_id rs = map fst dl.
Proof.
  intros H. revert s. induction H as [|[k v] dl Hkv Hdl IH]; intros s.
  - exists []. cbn. now rewrite app_nil_r.
  - cbn [fold_left fst snd]. cbn [snd] in Hkv.
    destruct (IH (LogAnalyzerPy.analyze_device clock k (Deque.items v) s))
      as (rs & E & Hk).
    destruct (la_analyze_device_result clock k (Deque.items v) s Hkv)
      as (r & Er & Hr).
    exists (r :: rs). split.
    + rewrite E, Er, <- app_assoc. reflexivity.
    + cbn [map]. now rewrite Hk, Hr.
Qed.

Lemma logs_seen_iterations n clock s :
  logs_seen (LogAnalyzerPy.device_logs s) ->
  logs_seen (LogAnalyzerPy.device_logs (LogAnalyzerPy.iterations n clock s)).
Proof.
  revert s. induction n as [|n IH]; intros s H; [exact H|].
  cbn [LogAnalyzerPy.iterations]. apply IH.
  rewrite la_iteration_device_logs. now apply logs_seen_ingest.
Qed.

(** X14.  In every state that [log_analyzer] reaches from its start, no
    device is listed twice in [device_logs] and no history is empty, so a turn
    of the loop publishes exactly one result for each device seen so far
    (the one of the log just taken included), in the order of first sight. *)
Theorem one_result_per_seen_device queue turns clock :
  let s := LogAnalyzerPy.iterations turns clock (LogAnalyzerPy.start queue) in
  NoDup (map fst (LogAnalyzerPy.device_logs s)) /\
  Forall (fun kv => Deque.items (snd kv) <> []) (LogAnalyzerPy.device_logs s) /\
  exists rs,
    LogAnalyzerPy.analysis_queue (LogAnalyzerPy.iteration clock s)
    = LogAnalyzerPy.analysis_queue s ++ rs /\
    map LogAnalyzerPy.r_device_id rs
    = map fst (LogAnalyzerPy.device_logs (LogAnalyzerPy.ingest s)).
Proof.
  intros s.
  assert (Hseen : logs_seen (LogAnalyzerPy.device_logs s)).
  { subst s. apply logs_seen_iterations. split; constructor. }
  destruct Hseen as [H1 H2]. split; [exact H2|]. split; [exact H1|].
  unfold LogAnalyzerPy.iteration. cbv zeta.
  destruct (logs_seen_ingest s (conj H1 H2)) as [H1' _].
  destruct (la_analysis_results clock
              (LogAnalyzerPy.device_logs (LogAnalyzerPy.ingest s))
              (LogAnalyzerPy.ingest s) H1') as (rs & E & Hk).
  exists rs. split; [|exact Hk]. rewrite E. f_equal.
  unfold LogAnalyzerPy.ingest. now destruct (LogAnalyzerPy.log_queue s).
Qed.

(** ** The visualizer of visualization.py *)

Section visualizer_facts.
Import Visualizer.

Lemma dd_get_alter_same f key dd :
  dd_get key (dd_alter f key dd) = Some (f (default fresh (dd_get key dd))).
Proof.
  induction dd as [|[k v] dd IH]; cbn.
  - now rewrite String.eqb_refl.
  - destruct (String.eqb k key) eqn:E; cbn; rewrite E; [reflexivity|exact IH].
Qed.

Lemma dd_get_alter_other f key key' dd :
  key' <> key -> dd_get key' (dd_alter f key dd) = dd_get key' dd.
Proof.
  intros Hne. induction dd as [|[k v] dd IH]; cbn.
  - destruct (String.eqb_spec key key'); [congruence|reflexivity].
  - destruct (String.eqb_spec k key) as [->|Hk]; cbn.
    + destruct (String.eqb_spec key key'); [congruence|reflexivity].
    + now rewrite IH.
Qed.

Lemma drain_results_get k q dd :
  let dd' := fold_left (fun acc data =>
               dd_alter (absorb_result data) (LogAnalyzerPy.r_device_id data) acc)
               q dd in
  match results_for k q with
  | [] => dd_get k dd' = dd_get k dd
  | _ :: _ =>
      dd_get k dd' =
      Some (fold_left (fun v data => absorb_result data v) (results_for k q)
              (default fresh (dd_get k dd)))
  end.
Proof.
  revert dd. induction q as [|r q IH]; intros dd; cbn zeta; [reflexivity|].
  cbn [fold_left]. unfold results_for in *. cbn [List.filter].
  specialize (IH (dd_alter (absorb_result r) (LogAnalyzerPy.r_device_id r) dd)).
  cbn zeta in IH.
  destruct (String.eqb_spec (LogAnalyzerPy.r_device_id r) k) as [E|Hne];
    [rewrite E in *|].
  - rewrite dd_get_alter_same in IH. cbn [fold_left default].
    destruct (List.filter _ q); [|exact IH]. now rewrite IH.
  - rewrite dd_get_alter_other in IH by congruence. exact IH.
Qed.

Lemma drain_alerts_get k q dd :
  let dd' := fold_left (fun acc alert =>
               dd_alter (absorb_alert alert) (LogAnalyzerPy.a_device_id alert) acc)
               q dd in
  match alerts_for k q with
  | [] => dd_get k dd' = dd_get k dd
  | _ :: _ =>
      dd_get k dd' =
      Some (fold_left (fun v alert => absorb_alert alert v) (alerts_for k q)
              (default fresh (dd_get k dd)))
  end.
Proof.
  revert dd. induction q as [|r q IH]; intros dd; cbn zeta; [reflexivity|].
  cbn [fold_left]. unfold alerts_for in *. cbn [List.filter].
  specialize (IH (dd_alter (absorb_alert r) (LogAnalyzerPy.a_device_id r) dd)).
  cbn zeta in IH.
  destruct (String.eqb_spec (LogAnalyzerPy.a_device_id r) k) as [E|Hne];
    [rewrite E in *|].
  - rewrite dd_get_alter_same in IH. cbn [fold_left default].
    destruct (List.filter _ q); [|exact IH]. now rewrite IH.
  - rewrite dd_get_alter_other in IH by congruence. exact IH.
Qed.

Lemma absorb_results_fold rs v :
  fold_left (fun v data => absorb_result data v) rs v =
  {| timestamps := timestamps v ++ map LogAnalyzerPy.r_timestamp rs;
     error_ratios := error_ratios v ++ map LogAnalyzerPy.r_error_ratio rs;
     warn_ratios := warn_ratios v ++ map LogAnalyzerPy.r_warn_ratio rs;
     last_error := match last rs with
                   | Some r => LogAnalyzerPy.r_last_error r
                   | None => last_error v
                   end;
     alerts := alerts v |}.
Proof.
  revert v. induction rs as [|r rs IH]; intros v.
  - cbn. rewrite !app_nil_r. now destruct v.
  - cbn [fold_left]. rewrite IH. unfold absorb_result.
    cbn [timestamps error_ratios warn_ratios last_error alerts map].
    rewrite <- !app_assoc. cbn [app]. f_equal.
    destruct rs as [|r' rs']; [reflexivity|].
    change (last (r :: r' :: rs')) with (last (r' :: rs')).
    destruct (last (r' :: rs')) eqn:E; [reflexivity|].
    apply last_None in E. discriminate.
Qed.

Lemma absorb_alerts_fold al v :
  fold_left (fun v alert => absorb_alert alert v) al v =
  {| timestamps := timestamps v; error_ratios := error_ratios v;
     warn_ratios := warn_ratios v; last_error := last_error v;
     alerts := alerts v ++ al |}.
Proof.
  revert v. induction al as [|a al IH]; intros v.
  - cbn. rewrite app_nil_r. now destruct v.
  - cbn [fold_left]. rewrite IH. unfold absorb_alert.
    cbn [timestamps error_ratios warn_ratios last_error alerts].
    now rewrite <- app_assoc.
Qed.

(** X15.  The queue-reading part of [update_plot] leaves both queues
    empty.  For each device, the results about it are appended to its three
    series in queue order, [last_error] becomes that of the last such result
    (also when that is [None]) and is kept when there is none, and the alerts
    about it are appended to its alerts; a device that nothing on the queues
    is about keeps its entry, or keeps having none. *)
Theorem update_plot_absorbs_queues s dd k :
  let s' := fst (update_plot s dd) in
  let dd' := snd (update_plot s dd) in
  let rs := results_for k (LogAnalyzerPy.analysis_queue s) in
  let al := alerts_for k (LogAnalyzerPy.alert_queue s) in
  let v := default fresh (dd_get k dd) in
  LogAnalyzerPy.analysis_queue s' = [] /\
  LogAnalyzerPy.alert_queue s' = [] /\
  (rs = [] -> al = [] -> dd_get k dd' = dd_get k dd) /\
  (rs <> [] \/ al <> [] ->
   dd_get k dd' =
   Some {| timestamps := timestamps v ++ map LogAnalyzerPy.r_timestamp rs;
           error_ratios := error_ratios v ++ map LogAnalyzerPy.r_error_ratio rs;
           warn_ratios := warn_ratios v ++ map LogAnalyzerPy.r_warn_ratio rs;
           last_error := match last rs with
                         | Some r => LogAnalyzerPy.r_last_error r
                         | None => last_error v
                         end;
           alerts := alerts v ++ al |}).
Proof.
  intros s' dd' rs al v. subst s' dd'. unfold update_plot. cbn [fst snd].
  cbn [LogAnalyzerPy.analysis_queue LogAnalyzerPy.alert_queue].
  split; [reflexivity|]. split; [reflexivity|].
  set (dd1 := fold_left _ (LogAnalyzerPy.analysis_queue s) dd).
  pose proof (drain_results_get k (LogAnalyzerPy.analysis_queue s) dd) as H1.
  pose proof (drain_alerts_get k (LogAnalyzerPy.alert_queue s) dd1) as H2.
  cbv zeta in H1, H2. fold dd1 in H1. fold rs in H1. fold al in H2.
  destruct rs as [|r rs'] eqn:Er, al as [|a al'] eqn:Ea.
  - split; [intros _ _; now rewrite H2, H1|]. intros [H|H]; congruence.
  - split; [discriminate|]. intros _. rewrite H2, absorb_alerts_fold, H1.
    subst v. cbn. now rewrite !app_nil_r.
  - split; [discriminate|]. intros _. rewrite H2, H1, absorb_results_fold.
    subst v. cbn [timestamps error_ratios warn_ratios last_error alerts].
    now rewrite app_nil_r.
  - split; [discriminate|]. intros _.
    rewrite H2, absorb_alerts_fold, H1. cbn [default].
    rewrite absorb_results_fold. subst v. reflexivity.
Qed.

Lemma aligned_alter f key dd :
  (forall v,
     length (error_ratios v) = length (timestamps v) /\
     length (warn_ratios v) = length (timestamps v) ->
     length (error_ratios (f v)) = length (timestamps (f v)) /\
     length (warn_ratios (f v)) = length (timestamps (f v))) ->
  aligned dd -> aligned (dd_alter f key dd).
Proof.
  intros Hf. unfold aligned. induction 1 as [|[k v] dd Hkv Hdd IH]; cbn.
  - constructor; [|constructor]. cbn. apply Hf. cbn. auto.
  - destruct (String.eqb k key); constructor; try assumption.
    cbn in *. now apply Hf.
Qed.

Lemma aligned_update_plot s dd : aligned dd -> aligned (snd (update_plot s dd)).
Proof.
  intros H. unfold update_plot. cbn [snd].
  assert (H1 : forall q dd0, aligned dd0 ->
    aligned (fold_left (fun acc data =>
      dd_alter (absorb_result data) (LogAnalyzerPy.r_device_id data) acc) q dd0)).
  { induction q as [|r q IH]; intros dd0 H0; [exact H0|].
    cbn [fold_left]. apply IH. apply aligned_alter; [|exact H0].
    intros v [He Hw]. cbn. rewrite !length_app. cbn. lia. }
  assert (H2 : forall q dd0, aligned dd0 ->
    aligned (fold_left (fun acc alert =>
      dd_alter (absorb_alert alert) (LogAnalyzerPy.a_device_id alert) acc) q dd0)).
  { induction q as [|r q IH]; intros dd0 H0; [exact H0|].
    cbn [fold_left]. apply IH. apply aligned_alter; [|exact H0].
    intros v Hv. exact Hv. }
  apply H2, H1, H.
Qed.

Lemma aligned_get k dd v :
  aligned dd -> dd_get k dd = Some v ->
  length (error_ratios v) = length (timestamps v) /\
  length (warn_ratios v) = length (timestamps v).
Proof.
  unfold aligned. induction 1 as [|[k' v'] dd Hkv Hdd IH]; cbn; [discriminate|].
  destruct (String.eqb k' k); [|exact IH]. now intros [= <-].
Qed.

(** X16.  However often [update_plot] has run, the three series of a
    device have one length, and what is drawn for a device with data are the
    last 20 points of each series (all of them when there are fewer), so the
    three lines have the same number of points, between 1 and 20. *)
Theorem plotted_points_are_the_latest states k v :
  let dd := fold_left (fun dd s => snd (update_plot s dd)) states [] in
  dd_get k dd = Some v ->
  length (error_ratios v) = length (timestamps v) /\
  length (warn_ratios v) = length (timestamps v) /\
  match plotted v with
  | None => timestamps v = []
  | Some (ts, er, wr) =>
      ts = Deque.lastn 20 (timestamps v) /\
      er = Deque.lastn 20 (error_ratios v) /\
      wr = Deque.lastn 20 (warn_ratios v) /\
      length er = length ts /\ length wr = length ts /\
      1 <= length ts <= 20
  end.
Proof.
  intros dd.
  assert (Hal : aligned dd).
  { subst dd. assert (H0 : aligned []) by constructor. revert H0.
    generalize (@nil (string * VData)).
    induction states as [|s ss IH]; intros dd0 H0; [exact H0|].
    cbn [fold_left]. apply IH. now apply aligned_update_plot. }
  intros Hv. destruct (aligned_get k dd v Hal Hv) as [He Hw].
  split; [exact He|]. split; [exact Hw|].
  unfold plotted, recent. destruct (timestamps v) as [|t ts] eqn:Et; [reflexivity|].
  rewrite <- Et in *.
  assert (Hpos : 1 <= length (timestamps v)) by (rewrite Et; cbn; lia).
  unfold Deque.lastn. rewrite He, Hw.
  replace (length (timestamps v) - Nat.min 20 (length (timestamps v)))
    with (length (timestamps v) - 20) by lia.
  repeat (split; [reflexivity|]).
  rewrite !length_drop, He, Hw. lia.
Qed.

End visualizer_facts.

(** ** The generators and the logs of configured devices *)

Section generator_facts.
Import Generator.

Lemma random_choice_some {A : Type} r (seq : list A) :
  seq <> [] -> exists x, random_choice r seq = Some x /\ x ∈ seq.
Proof.
  intros Hne. unfold random_choice. destruct seq as [|y l] eqn:E; [congruence|].
  rewrite <- E.
  assert (Hlt : r mod length seq < length seq).
  { apply Nat.mod_upper_bound. rewrite E. cbn. lia. }
  destruct (lookup_lt_is_Some_2 seq _ Hlt) as [x Hx].
  exists x. split; [exact Hx|]. now apply list_elem_of_lookup_2 in Hx.
Qed.

(** X17.  Whatever numbers are drawn, [generate_log] of log_system.py and
    of log_producer.py returns a log, never an error: the log carries the
    device id and the clock reading it was given, its level is one of the
    three levels, and its message is one of the sample messages of that very
    level. *)
Theorem generated_log_is_consistent messages device_id now r1 r2 :
  messages = sample_messages \/ messages = producer_messages ->
  exists log,
    generate_log messages device_id now r1 r2 = Some log /\
    Log.device_id log = device_id /\ Log.timestamp log = now /\
    Log.log_level log ∈ log_levels /\
    Log.message log ∈ messages (Log.log_level log).
Proof.
  intros Hm. unfold generate_log.
  destruct (random_choice_some r1 log_levels ltac:(discriminate)) as (lv & E1 & H1).
  rewrite E1. cbn [mbind option_bind].
  destruct (random_choice_some r2 (messages lv)) as (m & E2 & H2).
  { destruct Hm as [-> | ->]; destruct lv; discriminate. }
  rewrite E2. cbn [mbind option_bind]. eexists. split; [reflexivity|]. cbn. auto.
Qed.
End generator_facts.

(** X18.  On a well-formed state, a turn of the processing loop that
    takes a log of a configured device appends it to the history of that
    device and touches nothing else; when the history size is positive the
    log is then the newest entry of the history. *)
Theorem configured_device_log_is_appended cfg s log rest :
  wf cfg s -> Log.device_id log ∈ device_ids cfg ->
  log_queue s = log :: rest ->
  exists s' c,
    process_logs_iter s = (inl tt, s') /\
    log_queue s' = rest /\
    logs_cache s !! Log.device_id log = Some c /\
    logs_cache s' = <[Log.device_id log := Deque.append log c]> (logs_cache s) /\
    device_status s' = device_status s /\ alert_windows s' = alert_windows s /\
    ((0 < analysis_window cfg)%Z ->
     last (Deque.items (Deque.append log c)) = Some log).
Proof.
  intros Hwf Hd Hq.
  destruct (wf_cache _ _ Hwf _ Hd) as (c & Hc & Hb & Hm).
  erewrite process_logs_iter_cons by exact Hq.
  unfold process_one. cbn [logs_cache set_log_queue]. rewrite Hc.
  eexists _, c. split; [reflexivity|].
  cbn [log_queue set_logs_cache set_log_queue logs_cache device_status
       alert_windows].
  repeat (split; [reflexivity|]).
  intros HN. unfold Deque.append. cbn [Deque.items].
  destruct (Nat.ltb_spec (Deque.maxlen c) (length (Deque.items c ++ [log])))
    as [Hlt|Hle]; [|apply last_snoc].
  destruct (Deque.items c) as [|y l].
  - cbn in Hlt. lia.
  - cbn [app tail]. apply last_snoc.
Qed.

(** ** Instances of the further properties *)

Lemma zero_alert_window_raises_witness :
  exists s', analyze_logs MoreSamples.no_window Sample.clock
               MoreSamples.no_window_state
             = (inr ZeroDivisionError, s') /\ analysis_queue s' = [].
Proof.
  destruct (zero_alert_window_raises MoreSamples.no_window Sample.clock
              MoreSamples.no_window_state) as (s' & E & Hq & _).
  - apply wfb_wf. vm_compute. reflexivity.
  - reflexivity.
  - exists "device2"%string. split.
    + apply (bool_decide_unpack _). vm_compute. exact I.
    + vm_compute. reflexivity.
  - exists s'. split; [exact E|exact Hq].
Defined.

Lemma window_rolls_without_breach_witness :
  exists s' w',
    analyze_device CONFIG Sample.clock "device1" MoreSamples.calm = (inl tt, s') /\
    alert_windows s' !! "device1"%string = Some w' /\
    length (Deque.items w') = 10.
Proof.
  destruct (window_rolls_without_breach CONFIG Sample.clock "device1"
              (Deque.mk 20 [Sample.log "device1" INFO])
              {| last_error := None; alerts := [] |}
              (Deque.mk 10 (repeat Float.zero 10)) MoreSamples.calm)
    as (s' & w' & E & Hw & Hi & _).
  - apply wfb_wf. vm_compute. reflexivity.
  - apply (bool_decide_unpack _). vm_compute. exact I.
  - reflexivity.
  - vm_compute. reflexivity.
  - vm_compute. reflexivity.
  - vm_compute. reflexivity.
  - discriminate.
  - reflexivity.
  - vm_compute. reflexivity.
  - exists s', w'. split; [exact E|]. split; [exact Hw|]. rewrite Hi. reflexivity.
Defined.

Lemma alert_rate_bound_witness :
  exists s,
    run CONFIG Sample.clock
      [Put (Sample.log "device1" ERROR); Process; Analyze; Analyze] Sample.fresh
    = (inl tt, s) /\
    (10 * Z.of_nat (length (alerts_for "device1" (alert_queue s))) <= 2)%Z.
Proof.
  destruct (alert_rate_bound CONFIG Sample.clock "device1" Sample.fresh
      [Put (Sample.log "device1" ERROR); Process; Analyze; Analyze])
    as (s & E & H).
  - vm_compute. reflexivity.
  - apply (bool_decide_unpack _). vm_compute. exact I.
  - reflexivity.
  - exists s. split; [exact E|exact H].
Defined.

Lemma alerts_are_recorded_witness :
  exists s,
    run CONFIG Sample.clock
      [Put (Sample.log "device1" ERROR); Process; Analyze] Sample.fresh
    = (inl tt, s) /\
    forall d st, device_status s !! d = Some st ->
      alerts st = alerts_for d (alert_queue s).
Proof.
  destruct (alerts_are_recorded CONFIG Sample.clock Sample.fresh
      [Put (Sample.log "device1" ERROR); Process; Analyze])
    as (s & E & _ & H).
  - vm_compute. reflexivity.
  - reflexivity.
  - exists s. split; [exact E|exact H].
Defined.

Lemma drained_queue_fills_histories_witness :
  exists s' c,
    process_logs 2 MoreSamples.calm = (inl tt, s') /\
    logs_cache s' !! "device1"%string = Some c /\
    Deque.items c = [Sample.log "device1" INFO; Sample.log "device1" WARN].
Proof.
  destruct (drained_queue_fills_histories CONFIG MoreSamples.calm "device1")
    as (s' & c0 & c & E & _ & Hc0 & Hc & Hi).
  - apply wfb_wf. vm_compute. reflexivity.
  - apply (bool_decide_unpack _). vm_compute. exact I.
  - exists s', c. split; [exact E|]. split; [exact Hc|].
    rewrite Hi. assert (c0 = Deque.mk 20 [Sample.log "device1" INFO]) as ->.
    { vm_compute in Hc0. now injection Hc0 as <-. }
    vm_compute. reflexivity.
Defined.

Lemma dashboard_shows_latest_witness :
  exists s' d' ser,
    Dashboard.process_queues 3 (MoreSamples.calm, Dashboard.init CONFIG) = (s', d') /\
    Dashboard.analysis_data d' !! "device1"%string = Some ser /\
    Dashboard.timestamps ser = [].
Proof.
  destruct (dashboard_shows_latest CONFIG MoreSamples.calm 3 "device1")
    as (s' & d' & ser & E & _ & _ & _ & Hs & Ht & _).
  - apply (bool_decide_unpack _). vm_compute. exact I.
  - exists s', d', ser. split; [exact E|]. split; [exact Hs|]. rewrite Ht.
    reflexivity.
Defined.

Lemma log_analyzer_alert_iff_ratio_above_half_witness :
  exists r,
    LogAnalyzerPy.analysis_queue
      (LogAnalyzerPy.analyze_device Sample.clock "device1"
         [Sample.log "device1" ERROR] (LogAnalyzerPy.start []))
    = [r] /\ LogAnalyzerPy.r_device_id r = "device1"%string.
Proof.
  destruct (log_analyzer_alert_iff_ratio_above_half Sample.clock "device1"
              [Sample.log "device1" ERROR] (LogAnalyzerPy.start []))
    as (r & E & Hd & _).
  - discriminate.
  - vm_compute. lia.
  - exists r. split; [exact E|exact Hd].
Defined.

Lemma seen_device_log_is_appended_witness :
  LogAnalyzerPy.dict_get "device1"
    (LogAnalyzerPy.device_logs (LogAnalyzerPy.ingest MoreSamples.seen))
  = Some (Deque.append (Sample.log "device1" WARN)
            (Deque.mk 100 [Sample.log "device1" ERROR])).
Proof.
  destruct (seen_device_log_is_appended MoreSamples.seen
              (Sample.log "device1" WARN) []
              (Deque.mk 100 [Sample.log "device1" ERROR]))
    as (_ & H & _).
  - reflexivity.
  - reflexivity.
  - exact H.
Defined.

Lemma plotted_points_are_the_latest_witness :
  length (Visualizer.error_ratios MoreSamples.held)
  = length (Visualizer.timestamps MoreSamples.held).
Proof.
  destruct (plotted_points_are_the_latest [MoreSamples.published] "device1"
              MoreSamples.held) as (H & _).
  - vm_compute. reflexivity.
  - exact H.
Defined.

Lemma generated_log_is_consistent_witness :
  exists log,
    Generator.generate_log Generator.sample_messages "device1"
      "2024-05-01 10:00:00" 5 7 = Some log /\
    Log.device_id log = "device1"%string.
Proof.
  destruct (generated_log_is_consistent Generator.sample_messages "device1"
              "2024-05-01 10:00:00" 5 7) as (log & E & Hd & _).
  - left. reflexivity.
  - exists log. split; [exact E|exact Hd].
Defined.

Lemma configured_device_log_is_appended_witness :
  exists s', process_logs_iter MoreSamples.calm = (inl tt, s') /\
             log_queue s' = [Sample.log "device2" ERROR].
Proof.
  destruct (configured_device_log_is_appended CONFIG MoreSamples.calm
              (Sample.log "device1" WARN) [Sample.log "device2" ERROR])
    as (s' & c & E & Hq & _).
  - apply wfb_wf. vm_compute. reflexivity.
  - apply (bool_decide_unpack _). vm_compute. exact I.
  - reflexivity.
  - exists s'. split; [exact E|exact Hq].
Defined.

(** ** The analyzer and its dashboard *)

Section analyzer_dashboard_facts.
Import Dashboard.

Lemma dashboard_keys_iter (P : string -> Prop) sd :
  dash_ok (snd sd) ->
  (forall k, is_Some (analysis_data (snd sd) !! k) <-> P k) ->
  forall k, is_Some (analysis_data (snd (process_queues_iter sd)) !! k) <-> P k.
Proof.
  destruct sd as [s d]. cbn [snd]. intros Hok HP k.
  destruct (process_queues_iter_spec s d Hok) as (s1 & d1 & E & _ & _ & _ & Hs).
  rewrite E. cbn [snd]. rewrite <- HP. specialize (Hs k).
  destruct (analysis_data d !! k) as [ser|].
  - destruct Hs as (ser' & -> & _). split; eauto.
  - rewrite Hs. reflexivity.
Qed.

Lemma dashboard_keys cfg states k :
  is_Some (analysis_data (after_turns cfg states) !! k) <-> k ∈ device_ids cfg.
Proof.
  unfold after_turns.
  assert (H0 : dash_ok (Dashboard.init cfg) /\
               forall k, is_Some (analysis_data (Dashboard.init cfg) !! k)
                         <-> k ∈ device_ids cfg).
  { split; [apply dash_ok_init|]. intros k'. cbn [Dashboard.init analysis_data].
    rewrite lookup_fold_insert. destruct (decide (k' ∈ device_ids cfg)).
    - split; eauto.
    - rewrite lookup_empty. split; [intros [x Hx]; discriminate|contradiction]. }
  revert H0. generalize (Dashboard.init cfg).
  induction states as [|s ss IH]; intros d [Hok Hk]; [apply Hk|].
  cbn [fold_left]. apply IH. split.
  - apply (dash_ok_iter (s, d)), Hok.
  - apply (dashboard_keys_iter _ (s, d)); assumption.
Qed.

(** X19.  Every result that a call of [analyze_logs] puts on the analysis
    queue is about a device for which the dashboard built from the same
    configuration holds series, whatever the dashboard has processed so far:
    the dashboard never has to discard a result of the analyzer. *)
Theorem published_results_have_series cfg clock s states :
  wf cfg s -> (alert_window cfg <> 0)%Z ->
  exists s' rs,
    analyze_logs cfg clock s = (inl tt, s') /\
    analysis_queue s' = analysis_queue s ++ rs /\
    Forall (fun r =>
      is_Some (analysis_data (after_turns cfg states) !! Result.device_id r)) rs.
Proof.
  intros Hwf HS.
  destruct (analyze_loop_results cfg clock (device_ids cfg) s Hwf HS)
    as (s' & rs & E & _ & _ & Hq & Hids & _); [auto|].
  exists s', rs. split; [exact E|]. split; [exact Hq|].
  apply Forall_forall. intros r Hr. apply dashboard_keys.
  assert (Hin : Result.device_id r ∈ map Result.device_id rs).
  { apply list_elem_of_fmap. eauto. }
  rewrite Hids in Hin. apply list_elem_of_In, List.filter_In in Hin.
  now apply list_elem_of_In.
Qed.

End analyzer_dashboard_facts.

Lemma published_results_have_series_witness :
  exists s' rs,
    analyze_logs CONFIG Sample.clock Sample.hot = (inl tt, s') /\
    analysis_queue s' = rs.
Proof.
  destruct (published_results_have_series CONFIG Sample.clock Sample.hot [])
    as (s' & rs & E & Hq & _).
  - apply wfb_wf. vm_compute. reflexivity.
  - discriminate.
  - exists s', rs. split; [exact E|exact Hq].
Defined.
